(** * Lea: the Universal Syntax Tree engine

    A shallow embedding of the tree model (src/models/ast_universal.py), the
    parser registry and dispatch (src/parsers/base_parser.py), the hand-written
    JavaScript tokenizer and statement parser (src/parsers/javascript_parser.py),
    the Python adapter (src/parsers/python_parser.py) and the complexity
    estimate (src/routes/ast_api.py), with the properties the specification
    states about them.

    Conventions.
    - A Python [str] is a Rocq [string]; a character is a code point in
      0..255 (the Latin-1 range of Python's str).
    - A Python [int] is a [Z]; list indices and loop counters are [nat].
    - A Python [float] is kept as the decimal text it was built from.
    - A Python [dict] with string keys is an insertion-ordered association
      list; the registry's two dicts are [gmap]s.
    - A raised exception is the [Raise] case of [result]; an exception
      raised while another one is being handled carries that one as its
      [__context__]. *)

From Stdlib Require Import ZArith Lia Bool Ascii String List DecimalString.
From stdpp Require Import base gmap strings list fin_maps.
Import ListNotations.

Set Warnings "-register-all".
Local Open Scope string_scope.
Local Open Scope nat_scope.

(** ** Python values *)

Inductive PyVal : Type :=
| PNone
| PBool (b : bool)
| PInt (z : Z)
| PFloat (text : string)
| PStr (s : string)
| PBytes (s : string)
| PObject (class_name repr : string) (* any other object: complex, ellipsis, ... *)
| PList (l : list PyVal)
| PDict (d : list (string * PyVal)).

(** The [SyntaxError] of the native grammar: its message and the position
    attributes [filename], [lineno] and [offset] (the column), each [None]
    when the native layer does not supply it. *)
Record SyntaxError : Type := mkSyntaxError {
  msg : string;
  filename : option string;
  err_lineno : option Z;
  err_offset : option Z
}.

(** Python exceptions, with the message they are built with.
    [WithContext e context] is [e] raised inside an [except] block that was
    handling [context], with no [from] clause: the interpreter sets
    [e.__context__ = context], so the handled exception, a [SyntaxError]
    with its position attributes included, travels with the new one. *)
Inductive exn : Type :=
| KeyError (key : string)
| IndexError (msg : string)
| TypeError (msg : string)
| AttributeError (msg : string)
| ValueError (msg : string)
| RecursionError
| WithContext (e : exn) (context : exn + SyntaxError).

Inductive result (A : Type) : Type :=
| Ok (a : A)
| Raise (e : exn).
Arguments Ok {A} a.
Arguments Raise {A} e.

Definition rbind {A B} (r : result A) (k : A -> result B) : result B :=
  match r with
  | Ok a => k a
  | Raise e => Raise e
  end.

Declare Scope res_scope.
Delimit Scope res_scope with res.
Notation "'do' x <~ r ;; k" := (rbind r (fun x => k))
  (at level 10, x name, r at level 99, k at level 200) : res_scope.

(** [str(z)] of an int. *)
Definition str_of_int (z : Z) : string :=
  DecimalString.NilZero.string_of_int (Z.to_int z).

(** [repr(s)] of a str, on code points below 256. The quotes are double
    when [s] holds a single quote and no double one, single otherwise; the
    quote in use and the backslash are escaped with a backslash; tab, line
    feed and carriage return are written [\t], [\n], [\r]; every other
    character that is not printable (below 32, 127 to 160, and 173) is
    written [\xhh] with two lower-case hex digits. *)
Definition double_quote : ascii := ascii_of_nat 34.

Definition hex_digit (n : nat) : ascii :=
  nth n (list_ascii_of_string "0123456789abcdef") "0"%char.

Definition repr_char (quote c : ascii) : list ascii :=
  let n := nat_of_ascii c in
  if Ascii.eqb c quote || Ascii.eqb c "\"%char then ["\"%char; c]
  else if n =? 9 then ["\"%char; "t"%char]
  else if n =? 10 then ["\"%char; "n"%char]
  else if n =? 13 then ["\"%char; "r"%char]
  else if (n <? 32) || ((127 <=? n) && (n <=? 160)) || (n =? 173)
       then ["\"%char; "x"%char; hex_digit (n / 16); hex_digit (n mod 16)]
       else [c].

Definition repr_str (s : string) : string :=
  let cs := list_ascii_of_string s in
  let quote := if existsb (Ascii.eqb "'"%char) cs
                  && negb (existsb (Ascii.eqb double_quote) cs)
               then double_quote else "'"%char in
  string_of_list_ascii ((quote :: flat_map (repr_char quote) cs) ++ [quote])%list.

(** [d.get(key)]: the value bound to [key], [None] when absent. *)
Fixpoint dict_get (key : string) (d : list (string * PyVal)) : option PyVal :=
  match d with
  | [] => None
  | (k, v) :: d' => if String.eqb k key then Some v else dict_get key d'
  end.

(** [d.get(key, dflt)]. *)
Definition dict_get_default (key : string) (dflt : PyVal)
           (d : list (string * PyVal)) : PyVal :=
  match dict_get key d with
  | Some v => v
  | None => dflt
  end.

(** [d[key] = value]: overwrite in place, or append a new binding. *)
Fixpoint dict_set (key : string) (value : PyVal) (d : list (string * PyVal))
  : list (string * PyVal) :=
  match d with
  | [] => [(key, value)]
  | (k, v) :: d' =>
      if String.eqb k key then (k, value) :: d' else (k, v) :: dict_set key value d'
  end.

(** A float text denotes zero when its mantissa (the part before any
    exponent) has a digit and no digit other than 0. *)
Fixpoint mantissa (l : list ascii) : list ascii :=
  match l with
  | [] => []
  | c :: l' => if Ascii.eqb c "e" || Ascii.eqb c "E" then [] else c :: mantissa l'
  end.

Definition float_is_zero (text : string) : bool :=
  let m := mantissa (list_ascii_of_string text) in
  existsb (Ascii.eqb "0") m
  && negb (existsb (fun c => (49 <=? nat_of_ascii c) && (nat_of_ascii c <=? 57)) m).

(** [bool(v)]. *)
Definition truthy (v : PyVal) : bool :=
  match v with
  | PNone => false
  | PBool b => b
  | PInt z => negb (Z.eqb z 0)
  | PFloat t => negb (float_is_zero t)
  | PStr s | PBytes s => negb (String.eqb s "")
  | PObject _ _ => true
  | PList l => match l with [] => false | _ => true end
  | PDict d => match d with [] => false | _ => true end
  end.

(** [data[key]] on a value expected to be a dict. *)
Definition subscript (data : PyVal) (key : string) : result PyVal :=
  match data with
  | PDict d => match dict_get key d with
               | Some v => Ok v
               | None => Raise (KeyError key)
               end
  | _ => Raise (TypeError "object is not subscriptable")
  end.

(** [data.get(key)] on a value expected to be a dict; [None] when absent. *)
Definition get (data : PyVal) (key : string) : result PyVal :=
  match data with
  | PDict d => Ok (dict_get_default key PNone d)
  | _ => Raise (AttributeError "object has no attribute 'get'")
  end.

(** [data.get(key, dflt)]. *)
Definition get_default (data : PyVal) (key : string) (dflt : PyVal) : result PyVal :=
  match data with
  | PDict d => Ok (dict_get_default key dflt d)
  | _ => Raise (AttributeError "object has no attribute 'get'")
  end.

(** The dataclass fields are typed; the embedding reads a field of the
    declared type and reports any other value as a [TypeError] (Python itself
    would store it unchecked). *)
Definition as_str (v : PyVal) : result string :=
  match v with PStr s => Ok s | _ => Raise (TypeError "str expected") end.

Definition as_int (v : PyVal) : result Z :=
  match v with PInt z => Ok z | _ => Raise (TypeError "int expected") end.

Definition as_opt_str (v : PyVal) : result (option string) :=
  match v with
  | PNone => Ok None
  | PStr s => Ok (Some s)
  | _ => Raise (TypeError "Optional[str] expected")
  end.

Definition as_list (v : PyVal) : result (list PyVal) :=
  match v with PList l => Ok l | _ => Raise (TypeError "list expected") end.

Definition as_dict (v : PyVal) : result (list (string * PyVal)) :=
  match v with PDict d => Ok d | _ => Raise (TypeError "dict expected") end.

Definition of_opt_str (o : option string) : PyVal :=
  match o with Some s => PStr s | None => PNone end.

(** ** src/models/ast_universal.py *)

Inductive NodeType : Type :=
| PROGRAM | MODULE
| VARIABLE_DECLARATION | FUNCTION_DECLARATION | CLASS_DECLARATION
| INTERFACE_DECLARATION | IMPORT_DECLARATION
| LITERAL | IDENTIFIER | BINARY_EXPRESSION | UNARY_EXPRESSION
| CALL_EXPRESSION | MEMBER_EXPRESSION | ASSIGNMENT_EXPRESSION
| EXPRESSION_STATEMENT | BLOCK_STATEMENT | IF_STATEMENT | WHILE_STATEMENT
| FOR_STATEMENT | RETURN_STATEMENT | BREAK_STATEMENT | CONTINUE_STATEMENT
| PRIMITIVE_TYPE | ARRAY_TYPE | OBJECT_TYPE | FUNCTION_TYPE
| COMMENT | ANNOTATION.

Definition NodeType_eqb (a b : NodeType) : bool :=
  match a, b with
  | PROGRAM, PROGRAM | MODULE, MODULE
  | VARIABLE_DECLARATION, VARIABLE_DECLARATION
  | FUNCTION_DECLARATION, FUNCTION_DECLARATION
  | CLASS_DECLARATION, CLASS_DECLARATION
  | INTERFACE_DECLARATION, INTERFACE_DECLARATION
  | IMPORT_DECLARATION, IMPORT_DECLARATION
  | LITERAL, LITERAL | IDENTIFIER, IDENTIFIER
  | BINARY_EXPRESSION, BINARY_EXPRESSION | UNARY_EXPRESSION, UNARY_EXPRESSION
  | CALL_EXPRESSION, CALL_EXPRESSION | MEMBER_EXPRESSION, MEMBER_EXPRESSION
  | ASSIGNMENT_EXPRESSION, ASSIGNMENT_EXPRESSION
  | EXPRESSION_STATEMENT, EXPRESSION_STATEMENT
  | BLOCK_STATEMENT, BLOCK_STATEMENT | IF_STATEMENT, IF_STATEMENT
  | WHILE_STATEMENT, WHILE_STATEMENT | FOR_STATEMENT, FOR_STATEMENT
  | RETURN_STATEMENT, RETURN_STATEMENT | BREAK_STATEMENT, BREAK_STATEMENT
  | CONTINUE_STATEMENT, CONTINUE_STATEMENT
  | PRIMITIVE_TYPE, PRIMITIVE_TYPE | ARRAY_TYPE, ARRAY_TYPE
  | OBJECT_TYPE, OBJECT_TYPE | FUNCTION_TYPE, FUNCTION_TYPE
  | COMMENT, COMMENT | ANNOTATION, ANNOTATION => true
  | _, _ => false
  end.

(** The members in definition order, and [member.value]. *)
Definition NodeType_members : list NodeType :=
  [PROGRAM; MODULE; VARIABLE_DECLARATION; FUNCTION_DECLARATION;
   CLASS_DECLARATION; INTERFACE_DECLARATION; IMPORT_DECLARATION; LITERAL;
   IDENTIFIER; BINARY_EXPRESSION; UNARY_EXPRESSION; CALL_EXPRESSION;
   MEMBER_EXPRESSION; ASSIGNMENT_EXPRESSION; EXPRESSION_STATEMENT;
   BLOCK_STATEMENT; IF_STATEMENT; WHILE_STATEMENT; FOR_STATEMENT;
   RETURN_STATEMENT; BREAK_STATEMENT; CONTINUE_STATEMENT; PRIMITIVE_TYPE;
   ARRAY_TYPE; OBJECT_TYPE; FUNCTION_TYPE; COMMENT; ANNOTATION].

Definition NodeType_value (t : NodeType) : string :=
  match t with
  | PROGRAM => "program"
  | MODULE => "module"
  | VARIABLE_DECLARATION => "variable_declaration"
  | FUNCTION_DECLARATION => "function_declaration"
  | CLASS_DECLARATION => "class_declaration"
  | INTERFACE_DECLARATION => "interface_declaration"
  | IMPORT_DECLARATION => "import_declaration"
  | LITERAL => "literal"
  | IDENTIFIER => "identifier"
  | BINARY_EXPRESSION => "binary_expression"
  | UNARY_EXPRESSION => "unary_expression"
  | CALL_EXPRESSION => "call_expression"
  | MEMBER_EXPRESSION => "member_expression"
  | ASSIGNMENT_EXPRESSION => "assignment_expression"
  | EXPRESSION_STATEMENT => "expression_statement"
  | BLOCK_STATEMENT => "block_statement"
  | IF_STATEMENT => "if_statement"
  | WHILE_STATEMENT => "while_statement"
  | FOR_STATEMENT => "for_statement"
  | RETURN_STATEMENT => "return_statement"
  | BREAK_STATEMENT => "break_statement"
  | CONTINUE_STATEMENT => "continue_statement"
  | PRIMITIVE_TYPE => "primitive_type"
  | ARRAY_TYPE => "array_type"
  | OBJECT_TYPE => "object_type"
  | FUNCTION_TYPE => "function_type"
  | COMMENT => "comment"
  | ANNOTATION => "annotation"
  end.

(** [NodeType(value)]: the member with that value; otherwise the
    [ValueError] of [Enum], whose message starts with [repr(value)]. *)
Definition NodeType_of_value (v : string) : result NodeType :=
  match find (fun t => String.eqb (NodeType_value t) v) NodeType_members with
  | Some t => Ok t
  | None => Raise (ValueError (repr_str v +:+ " is not a valid NodeType"))
  end.

Inductive DataType : Type :=
| STRING | NUMBER | INTEGER | FLOAT | BOOLEAN | NULL | UNDEFINED | VOID | ANY.

Definition DataType_value (t : DataType) : string :=
  match t with
  | STRING => "string"
  | NUMBER => "number"
  | INTEGER => "integer"
  | FLOAT => "float"
  | BOOLEAN => "boolean"
  | NULL => "null"
  | UNDEFINED => "undefined"
  | VOID => "void"
  | ANY => "any"
  end.

Record SourceLocation : Type := mkSourceLocation {
  line : Z;
  column : Z;
  file_path : option string
}.

Record SourceRange : Type := mkSourceRange {
  start : SourceLocation;
  end_ : SourceLocation
}.

(** The [children] list is declared [List['ASTNode']], but nothing checks
    what is appended to it: an element is a node or [None] (the JavaScript
    parser can append [None], see [_parse_variable_declaration]). *)
Inductive ASTNode : Type := mkASTNode {
  id : string;
  type : NodeType;
  children : list (option ASTNode);
  attributes : list (string * PyVal);
  source_range : option SourceRange;
  original_language : option string
}.

Record UniversalSyntaxTree : Type := mkUST {
  root : ASTNode;
  metadata : list (string * PyVal);
  version : string
}.

(** [ASTNode.add_child], [get_attribute], [set_attribute]. *)
Definition add_child (self : ASTNode) (child : option ASTNode) : ASTNode :=
  mkASTNode (id self) (type self) (children self ++ [child]) (attributes self)
            (source_range self) (original_language self).

Definition get_attribute (self : ASTNode) (key : string) (dflt : PyVal) : PyVal :=
  dict_get_default key dflt (attributes self).

Definition set_attribute (self : ASTNode) (key : string) (value : PyVal) : ASTNode :=
  mkASTNode (id self) (type self) (children self)
            (dict_set key value (attributes self))
            (source_range self) (original_language self).

Definition set_source_range (self : ASTNode) (sr : SourceRange) : ASTNode :=
  mkASTNode (id self) (type self) (children self) (attributes self)
            (Some sr) (original_language self).

(** Every element of every [children] list is a node. *)
Fixpoint well_typed (n : ASTNode) : bool :=
  forallb (fun child => match child with
                        | Some c => well_typed c
                        | None => false
                        end) (children n).

Definition location_to_dict (l : SourceLocation) : PyVal :=
  PDict [("line", PInt (line l)); ("column", PInt (column l));
         ("file_path", of_opt_str (file_path l))].

(** [results] collects a list comprehension whose body may raise. *)
Fixpoint results {A} (l : list (result A)) : result (list A) :=
  match l with
  | [] => Ok []
  | r :: l' => (do a <~ r ;; do t <~ results l' ;; Ok (a :: t))%res
  end.

Definition no_attribute (name : string) : exn :=
  AttributeError ("'NoneType' object has no attribute '" +:+ name +:+ "'").

(** [ASTNode.to_dict]. A [SourceRange] object is always truthy, so the
    conditional expression tests for [None] only. [child.to_dict()] on a
    [None] child raises. *)
Fixpoint to_dict (self : ASTNode) : result PyVal :=
  (do cs <~ results (map (fun child => match child with
                                       | Some c => to_dict c
                                       | None => Raise (no_attribute "to_dict")
                                       end) (children self)) ;;
   Ok (PDict [("id", PStr (id self));
              ("type", PStr (NodeType_value (type self)));
              ("children", PList cs);
              ("attributes", PDict (attributes self));
              ("source_range",
                match source_range self with
                | Some sr => PDict [("start", location_to_dict (start sr));
                                    ("end", location_to_dict (end_ sr))]
                | None => PNone
                end);
              ("original_language", of_opt_str (original_language self))]))%res.

Definition location_from_dict (d : PyVal) : result SourceLocation :=
  (do l <~ subscript d "line" ;;
   do l <~ as_int l ;;
   do c <~ subscript d "column" ;;
   do c <~ as_int c ;;
   do f <~ get d "file_path" ;;
   do f <~ as_opt_str f ;;
   Ok (mkSourceLocation l c f))%res.

(** [ASTNode.from_dict]. The four arguments of [cls(...)] are evaluated in
    the order written, so a missing [id] is reported before a missing or
    invalid [type]; the values are then stored in the typed fields of the
    node. The recursion follows the nesting of [data]; [depth] bounds it and
    is set by [from_dict] below to more than the nesting of [data], so that
    the bound is never what stops it. *)
Fixpoint from_dict_rec (depth : nat) (data : PyVal) : result ASTNode :=
  match depth with
  | 0 => Raise RecursionError
  | S depth' =>
      (do i <~ subscript data "id" ;;
       do t <~ subscript data "type" ;;
       do t <~ as_str t ;;
       do t <~ NodeType_of_value t ;;
       do a <~ get_default data "attributes" (PDict []) ;;
       do ol <~ get data "original_language" ;;
       do i <~ as_str i ;;
       do a <~ as_dict a ;;
       do ol <~ as_opt_str ol ;;
       do srv <~ get data "source_range" ;;
       do sr <~ (if truthy srv then
                   do s <~ subscript srv "start" ;;
                   do s <~ location_from_dict s ;;
                   do e <~ subscript srv "end" ;;
                   do e <~ location_from_dict e ;;
                   Ok (Some (mkSourceRange s e))
                 else Ok None) ;;
       do cs <~ get_default data "children" (PList []) ;;
       do cs <~ as_list cs ;;
       do cs <~ results (map (from_dict_rec depth') cs) ;;
       Ok (mkASTNode i t (map Some cs) a sr ol))%res
  end.

Fixpoint py_size (v : PyVal) : nat :=
  match v with
  | PList l => S (list_sum (map py_size l))
  | PDict d => S (list_sum (map (fun kv => py_size (snd kv)) d))
  | _ => 1
  end.

Definition from_dict (data : PyVal) : result ASTNode :=
  from_dict_rec (py_size data) data.

(** [json.dumps] refuses a value that is neither a dict, a list, a str, a
    number, a bool nor [None]: the class name of the first such value it
    meets, in the order it writes the document. *)
Fixpoint json_refused (v : PyVal) : option string :=
  match v with
  | PBytes _ => Some "bytes"
  | PObject class_name _ => Some class_name
  | PList l =>
      (fix first (l : list PyVal) : option string :=
         match l with
         | [] => None
         | x :: l' => match json_refused x with
                      | Some c => Some c
                      | None => first l'
                      end
         end) l
  | PDict d =>
      (fix first (d : list (string * PyVal)) : option string :=
         match d with
         | [] => None
         | (_, x) :: d' => match json_refused x with
                           | Some c => Some c
                           | None => first d'
                           end
         end) d
  | _ => None
  end.

(** The dict [to_json] hands to [json.dumps], when [json.dumps] accepts it,
    and the one [from_json] receives from [json.loads]. The JSON text
    between the two is Python's json library and is not modelled. *)
Definition to_json_data (self : UniversalSyntaxTree) : result PyVal :=
  (do r <~ to_dict (root self) ;;
   let document := PDict [("version", PStr (version self));
                          ("metadata", PDict (metadata self));
                          ("root", r)] in
   match json_refused document with
   | Some class_name =>
       Raise (TypeError ("Object of type " +:+ class_name
                         +:+ " is not JSON serializable"))
   | None => Ok document
   end)%res.

(** [UniversalSyntaxTree.from_json] on the document [json.loads] returned. *)
Definition from_json_data (data : PyVal) : result UniversalSyntaxTree :=
  (do r <~ subscript data "root" ;;
   do r <~ from_dict r ;;
   do m <~ get_default data "metadata" (PDict []) ;;
   do m <~ as_dict m ;;
   do v <~ get_default data "version" (PStr "1.0") ;;
   do v <~ as_str v ;;
   Ok (mkUST r m v))%res.

(** ** Induction on trees *)

Definition on_child (P : ASTNode -> Prop) (child : option ASTNode) : Prop :=
  match child with
  | Some c => P c
  | None => True
  end.

Section ASTNode_induction.
Variable P : ASTNode -> Prop.
Hypothesis step : forall i t cs a sr ol,
    Forall (on_child P) cs -> P (mkASTNode i t cs a sr ol).

Fixpoint ASTNode_nested_ind (n : ASTNode) : P n :=
  match n with
  | mkASTNode i t cs a sr ol =>
      step i t cs a sr ol
        ((fix all (l : list (option ASTNode)) : Forall (on_child P) l :=
            match l with
            | [] => List.Forall_nil (on_child P)
            | child :: l' =>
                @List.Forall_cons _ (on_child P) child l'
                  (match child return on_child P child with
                   | Some c => ASTNode_nested_ind c
                   | None => I
                   end)
                  (all l')
            end) cs)
  end.
End ASTNode_induction.

Definition child_to_dict (child : option ASTNode) : result PyVal :=
  match child with
  | Some c => to_dict c
  | None => Raise (no_attribute "to_dict")
  end.

(** ** Regular expressions (Python's [re], the fragment the tokenizer uses)

    [re_match r s pos] is [pattern.match(s, pos)]: a backtracking matcher
    anchored at [pos] that returns the end of the first match found, trying
    the left alternative first, as many repetitions as possible for a greedy
    star and as few as possible for a lazy one. [\b] looks at the character
    before [pos] in the whole string. A repetition whose body matched the
    empty string is not taken again; the star loops are bounded by the length
    of the subject, which no sequence of non-empty iterations exceeds. *)

Inductive regex : Type :=
| Eps
| Chr (c : ascii)
| Cls (p : ascii -> bool)
| WordB
| Cat (a b : regex)
| Alt (a b : regex)
| Star (a : regex)
| StarLazy (a : regex).

Definition Plus (a : regex) : regex := Cat a (Star a).
Definition Opt (a : regex) : regex := Alt a Eps.

Fixpoint Lit (s : string) : regex :=
  match s with
  | EmptyString => Eps
  | String c EmptyString => Chr c
  | String c s' => Cat (Chr c) (Lit s')
  end.

Definition code (c : ascii) : nat := nat_of_ascii c.
Definition between (lo hi : nat) (c : ascii) : bool :=
  (lo <=? code c) && (code c <=? hi).

(** [\d], [\s] and [\w] of a str pattern, on code points below 256. *)
Definition is_digit (c : ascii) : bool := between 48 57 c.
Definition is_space (c : ascii) : bool :=
  between 9 13 c || between 28 32 c || (code c =? 133) || (code c =? 160).
Definition is_word (c : ascii) : bool :=
  between 48 57 c || between 65 90 c || between 97 122 c || (code c =? 95)
  || (code c =? 170) || (code c =? 178) || (code c =? 179) || (code c =? 181)
  || (code c =? 185) || (code c =? 186) || between 188 190 c
  || between 192 214 c || between 216 246 c || between 248 255 c.

(** [.] (no DOTALL flag): anything but a line feed. *)
Definition dot : regex := Cls (fun c => negb (code c =? 10)).
Definition any_char : regex := Cls (fun c => is_space c || negb (is_space c)).
Definition none_of (l : list ascii) : regex :=
  Cls (fun c => negb (existsb (Ascii.eqb c) l)).

Definition word_at (s : list ascii) (i : nat) : bool :=
  match s !! i with
  | Some c => is_word c
  | None => false
  end.

Definition at_boundary (s : list ascii) (i : nat) : bool :=
  xorb (match i with 0 => false | S i' => word_at s i' end) (word_at s i).

Fixpoint rmatch (r : regex) (s : list ascii) (k : nat -> option nat) (i : nat)
  {struct r} : option nat :=
  match r with
  | Eps => k i
  | Chr c =>
      match s !! i with
      | Some c' => if Ascii.eqb c c' then k (S i) else None
      | None => None
      end
  | Cls p =>
      match s !! i with
      | Some c' => if p c' then k (S i) else None
      | None => None
      end
  | WordB => if at_boundary s i then k i else None
  | Cat a b => rmatch a s (rmatch b s k) i
  | Alt a b =>
      match rmatch a s k i with
      | Some e => Some e
      | None => rmatch b s k i
      end
  | Star a =>
      (fix loop (n : nat) (i : nat) {struct n} : option nat :=
         match n with
         | 0 => k i
         | S n' =>
             match rmatch a s (fun j => if i <? j then loop n' j else None) i with
             | Some e => Some e
             | None => k i
             end
         end) (length s) i
  | StarLazy a =>
      (fix loop (n : nat) (i : nat) {struct n} : option nat :=
         match k i with
         | Some e => Some e
         | None =>
             match n with
             | 0 => None
             | S n' => rmatch a s (fun j => if i <? j then loop n' j else None) i
             end
         end) (length s) i
  end.

Definition re_match (r : regex) (s : list ascii) (pos : nat) : option nat :=
  rmatch r s Some pos.

(** The least length of a match. *)
Fixpoint min_len (r : regex) : nat :=
  match r with
  | Eps | WordB | Star _ | StarLazy _ => 0
  | Chr _ | Cls _ => 1
  | Cat a b => min_len a + min_len b
  | Alt a b => Nat.min (min_len a) (min_len b)
  end.

(** ** src/parsers/javascript_parser.py: the tokenizer *)

Record Token : Type := mkToken {
  tok_type : string;
  tok_value : string;
  tok_line : Z;
  tok_column : nat
}.

Definition dquote : ascii := "034"%char.
Definition squote : ascii := "'"%char.
Definition backquote : ascii := "`"%char.
Definition backslash : ascii := "\"%char.

Definition quoted (q : ascii) : regex :=
  Cat (Chr q)
      (Cat (Star (Alt (none_of [q; backslash]) (Cat (Chr backslash) dot)))
           (Chr q)).

Definition keyword (w : string) : regex := Cat WordB (Cat (Lit w) WordB).

Definition ident_start (c : ascii) : bool :=
  between 97 122 c || between 65 90 c || (code c =? 95) || (code c =? 36).
Definition ident_part (c : ascii) : bool :=
  between 97 122 c || between 65 90 c || between 48 57 c
  || (code c =? 95) || (code c =? 36).

(** [self.token_patterns], in the order of the source. *)
Definition token_patterns : list (string * regex) :=
  [ ("COMMENT_SINGLE", Cat (Lit "//") (Star dot));
    ("COMMENT_MULTI", Cat (Lit "/*") (Cat (StarLazy any_char) (Lit "*/")));
    ("STRING_DOUBLE", quoted dquote);
    ("STRING_SINGLE", quoted squote);
    ("STRING_TEMPLATE", quoted backquote);
    ("NUMBER", Cat (Plus (Cls is_digit)) (Cat (Opt (Chr ".")) (Star (Cls is_digit))));
    ("FUNCTION", keyword "function");
    ("CONST", keyword "const");
    ("LET", keyword "let");
    ("VAR", keyword "var");
    ("IF", keyword "if");
    ("ELSE", keyword "else");
    ("FOR", keyword "for");
    ("WHILE", keyword "while");
    ("RETURN", keyword "return");
    ("BREAK", keyword "break");
    ("CONTINUE", keyword "continue");
    ("CLASS", keyword "class");
    ("IMPORT", keyword "import");
    ("EXPORT", keyword "export");
    ("FROM", keyword "from");
    ("TRUE", keyword "true");
    ("FALSE", keyword "false");
    ("NULL", keyword "null");
    ("UNDEFINED", keyword "undefined");
    ("ARROW", Lit "=>");
    ("ASSIGN", Lit "=");
    ("PLUS_ASSIGN", Lit "+=");
    ("MINUS_ASSIGN", Lit "-=");
    ("MULTIPLY_ASSIGN", Lit "*=");
    ("DIVIDE_ASSIGN", Lit "/=");
    ("EQUALITY", Alt (Lit "===") (Lit "=="));
    ("INEQUALITY", Alt (Lit "!==") (Lit "!="));
    ("LESS_EQUAL", Lit "<=");
    ("GREATER_EQUAL", Lit ">=");
    ("LESS", Lit "<");
    ("GREATER", Lit ">");
    ("PLUS", Lit "+");
    ("MINUS", Lit "-");
    ("MULTIPLY", Lit "*");
    ("DIVIDE", Lit "/");
    ("MODULO", Lit "%");
    ("AND", Lit "&&");
    ("OR", Lit "||");
    ("NOT", Lit "!");
    ("SEMICOLON", Lit ";");
    ("COMMA", Lit ",");
    ("DOT", Lit ".");
    ("LPAREN", Lit "(");
    ("RPAREN", Lit ")");
    ("LBRACE", Lit "{");
    ("RBRACE", Lit "}");
    ("LBRACKET", Lit "[");
    ("RBRACKET", Lit "]");
    ("IDENTIFIER", Cat (Cls ident_start) (Star (Cls ident_part)));
    ("WHITESPACE", Plus (Cls is_space));
    ("NEWLINE", Chr "010"%char) ].

(** [s.split('\n')]. *)
Fixpoint split_lines (cur : list ascii) (s : list ascii) : list (list ascii) :=
  match s with
  | [] => [rev cur]
  | c :: s' =>
      if code c =? 10 then rev cur :: split_lines [] s'
      else split_lines (c :: cur) s'
  end.

(** [line[a:b]] as a str. *)
Definition slice (line : list ascii) (a b : nat) : string :=
  string_of_list_ascii (take (b - a) (drop a line)).

(** The [for token_type, pattern in self.compiled_patterns] loop: the first
    rule that matches at [column], with the end of its match. *)
Fixpoint first_match (patterns : list (string * regex)) (line : list ascii)
         (column : nat) : option (string * nat) :=
  match patterns with
  | [] => None
  | (token_type, pattern) :: rest =>
      match re_match pattern line column with
      | Some e => Some (token_type, e)
      | None => first_match rest line column
      end
  end.

Definition discarded (token_type : string) : bool :=
  existsb (String.eqb token_type) ["WHITESPACE"; "COMMENT_SINGLE"; "COMMENT_MULTI"].

(** One iteration of [while column < len(line)]: the tokens appended and the
    new value of [column]. *)
Definition scan_step (line_num : Z) (line : list ascii) (column : nat)
  : list Token * nat :=
  match first_match token_patterns line column with
  | Some (token_type, e) =>
      (if discarded token_type then []
       else [mkToken token_type (slice line column e) line_num column], e)
  | None => ([], column + 1)
  end.

(** The while loop, run for at most [fuel] iterations: [None] when the loop
    has not reached its exit by then. *)
Fixpoint scan_line (fuel : nat) (line_num : Z) (line : list ascii) (column : nat)
  : option (list Token) :=
  if column <? length line then
    match fuel with
    | 0 => None
    | S fuel' =>
        let '(toks, column') := scan_step line_num line column in
        option_map (app toks) (scan_line fuel' line_num line column')
    end
  else Some [].

(** [for line_num, line in enumerate(lines, 1)]. *)
Fixpoint scan_lines (line_num : Z) (lines : list (list ascii))
  : option (list Token) :=
  match lines with
  | [] => Some []
  | line :: rest =>
      match scan_line (length line) line_num line 0, scan_lines (line_num + 1)%Z rest with
      | Some a, Some b => Some (a ++ b)%list
      | _, _ => None
      end
  end.

Definition tokenize_run (source_code : string) : option (list Token) :=
  scan_lines 1%Z (split_lines [] (list_ascii_of_string source_code)).

(** [JavaScriptParser._tokenize]. By [tokenize_run_total] below the run
    always completes, so the [None] branch is never taken. *)
Definition _tokenize (source_code : string) : list Token :=
  match tokenize_run source_code with
  | Some toks => toks
  | None => []
  end.

Definition nonempty_rules (patterns : list (string * regex)) : bool :=
  forallb (fun rule => 1 <=? min_len (snd rule)) patterns.

(** ** Node identity

    [ASTNode(...)] without an [id] argument draws one from
    [str(uuid.uuid4())]. The [World] holds what the random source will
    answer, draw by draw, and how many draws were made; a computation that
    builds nodes threads it. *)

Record World : Type := mkWorld {
  uuid4 : nat -> string;
  drawn : nat
}.

Definition M (A : Type) : Type := World -> result (A * World).

Definition ret {A} (a : A) : M A := fun w => Ok (a, w).
Definition raise {A} (e : exn) : M A := fun _ => Raise e.
Definition mbind' {A B} (m : M A) (k : A -> M B) : M B :=
  fun w => match m w with
           | Ok (a, w') => k a w'
           | Raise e => Raise e
           end.
Definition lift {A} (r : result A) : M A :=
  fun w => match r with
           | Ok a => Ok (a, w)
           | Raise e => Raise e
           end.

Declare Scope M_scope.
Delimit Scope M_scope with M.
Notation "'do' x <~ r ;; k" := (mbind' r (fun x => k))
  (at level 10, x name, r at level 99, k at level 200) : M_scope.
Notation "'do' ' p <~ r ;; k" := (mbind' r (fun p => k))
  (at level 10, p pattern, r at level 99, k at level 200) : M_scope.

(** [ASTNode(type=t, original_language=lang)]. *)
Definition new_ASTNode (t : NodeType) (lang : option string) : M ASTNode :=
  fun w => Ok (mkASTNode (uuid4 w (drawn w)) t [] [] None lang,
               mkWorld (uuid4 w) (S (drawn w))).

(** ** src/parsers/javascript_parser.py: the statement parser *)

Definition javascript : option string := Some "javascript".

(** [tokens[i]]. *)
Definition tok_at (tokens : list Token) (i : nat) : result Token :=
  match tokens !! i with
  | Some t => Ok t
  | None => Raise (IndexError "list index out of range")
  end.

(** [i < len(tokens) and tokens[i].type == ty]. *)
Definition type_is (tokens : list Token) (i : nat) (ty : string) : bool :=
  match tokens !! i with
  | Some t => String.eqb (tok_type t) ty
  | None => false
  end.

(** [i < len(tokens) and tokens[i].type != ty]. *)
Definition type_is_not (tokens : list Token) (i : nat) (ty : string) : bool :=
  match tokens !! i with
  | Some t => negb (String.eqb (tok_type t) ty)
  | None => false
  end.

(** [len(s)] of a str. *)
Definition str_len (s : string) : nat := String.length s.

(** [JavaScriptParser._set_source_range]. *)
Definition _set_source_range (node : ASTNode) (start_token end_token : Token)
           (file_path : option string) : ASTNode :=
  set_source_range node
    (mkSourceRange
       (mkSourceLocation (tok_line start_token) (Z.of_nat (tok_column start_token))
                         file_path)
       (mkSourceLocation (tok_line end_token)
                         (Z.of_nat (tok_column end_token + str_len (tok_value end_token)))
                         file_path)).

(** The common tail of the handlers:
    [self._set_source_range(node, tokens[start], tokens[min(i-1, len(tokens)-1)], file_path)]
    then [return node, i - start]. Every caller has [1 <= i] and a non-empty
    token list, so neither index is negative. *)
Definition finish (node : ASTNode) (tokens : list Token) (start i : nat)
           (file_path : option string) : M (option ASTNode * nat) :=
  (do st <~ lift (tok_at tokens start) ;;
   do en <~ lift (tok_at tokens (Nat.min (i - 1) (length tokens - 1))) ;;
   ret (Some (_set_source_range node st en file_path), i - start))%M.

(** The index loops run over the tokens from [i] on, [rest = tokens[i:]]. *)

(** [while i < len(tokens) and tokens[i].type != 'RPAREN':] collect the
    identifiers, [i += 1]. *)
Fixpoint scan_parameters (rest : list Token) (i : nat) (parameters : list PyVal)
  : nat * list PyVal :=
  match rest with
  | [] => (i, parameters)
  | t :: rest' =>
      if String.eqb (tok_type t) "RPAREN" then (i, parameters)
      else scan_parameters rest' (S i)
             (if String.eqb (tok_type t) "IDENTIFIER"
              then parameters ++ [PStr (tok_value t)] else parameters)
  end.

(** [while i < len(tokens) and brace_count > 0:] track the nesting, [i += 1]. *)
Fixpoint scan_body (rest : list Token) (i : nat) (brace_count : Z) : nat :=
  match rest with
  | [] => i
  | t :: rest' =>
      if (0 <? brace_count)%Z then
        scan_body rest' (S i)
          (if String.eqb (tok_type t) "LBRACE" then (brace_count + 1)%Z
           else if String.eqb (tok_type t) "RBRACE" then (brace_count - 1)%Z
           else brace_count)
      else i
  end.

(** [while i < len(tokens) and tokens[i].type != stop: i += 1]. *)
Fixpoint skip_until (stop : string) (rest : list Token) (i : nat) : nat :=
  match rest with
  | [] => i
  | t :: rest' =>
      if String.eqb (tok_type t) stop then i else skip_until stop rest' (S i)
  end.

(** [if i < len(tokens) and tokens[i].type == 'IDENTIFIER':] set [name],
    [i += 1]. *)
Definition take_name (node : ASTNode) (tokens : list Token) (i : nat)
  : ASTNode * nat :=
  match tokens !! i with
  | Some t =>
      if String.eqb (tok_type t) "IDENTIFIER"
      then (set_attribute node "name" (PStr (tok_value t)), i + 1)
      else (node, i)
  | None => (node, i)
  end.

Definition _parse_function_declaration (tokens : list Token) (start : nat)
           (file_path : option string) : M (option ASTNode * nat) :=
  (do node <~ new_ASTNode FUNCTION_DECLARATION javascript ;;
   let i := start + 1 in
   let '(node, i) := take_name node tokens i in
   let '(node, i) :=
     if type_is tokens i "LPAREN" then
       let i := i + 1 in
       let '(i, parameters) := scan_parameters (drop i tokens) i [] in
       let node := set_attribute node "parameters" (PList parameters) in
       (node, if type_is tokens i "RPAREN" then i + 1 else i)
     else (node, i) in
   do '(node, i) <~
     (if type_is tokens i "LBRACE" then
        let i := i + 1 in
        let i := scan_body (drop i tokens) i 1 in
        do body_node <~ new_ASTNode BLOCK_STATEMENT javascript ;;
        ret (add_child node (Some body_node), i)
      else ret (node, i)) ;;
   finish node tokens start i file_path)%M.

(** [s[1:-1]]. *)
Definition strip_quotes (s : string) : string :=
  string_of_list_ascii (removelast (tl (list_ascii_of_string s))).

(** ['.' in s]. *)
Definition has_dot (s : string) : bool :=
  existsb (Ascii.eqb ".") (list_ascii_of_string s).

(** The default of [sys.get_int_max_str_digits()]. *)
Definition int_max_str_digits : Z := 4300.

(** [int(s)] on the text of a NUMBER token, a run of decimal digits. A run
    of more digits than the interpreter's limit is refused with a
    [ValueError]; any text that is not a digit run is reported as the
    [ValueError] of a malformed literal. *)
Definition int_ (s : string) : result Z :=
  let cs := list_ascii_of_string s in
  if forallb is_digit cs && negb (String.eqb s "") then
    if (Z.of_nat (length cs) <=? int_max_str_digits)%Z then
      Ok (fold_left (fun acc c => (10 * acc + Z.of_nat (code c - 48))%Z) cs 0%Z)
    else
      Raise (ValueError
               ("Exceeds the limit (" +:+ str_of_int int_max_str_digits
                +:+ " digits) for integer string conversion: value has "
                +:+ str_of_int (Z.of_nat (length cs))
                +:+ " digits; use sys.set_int_max_str_digits() to increase the limit"))
  else Raise (ValueError ("invalid literal for int() with base 10: " +:+ repr_str s)).

Definition literal (value : PyVal) (data_type : DataType) (token : Token)
           (file_path : option string) : M (option ASTNode * nat) :=
  (do node <~ new_ASTNode LITERAL javascript ;;
   let node := set_attribute node "value" value in
   let node := set_attribute node "data_type" (PStr (DataType_value data_type)) in
   ret (Some (_set_source_range node token token file_path), 1))%M.

Definition _parse_expression (tokens : list Token) (start : nat)
           (file_path : option string) : M (option ASTNode * nat) :=
  match tokens !! start with
  | None => ret (None, 0)
  | Some token =>
      let ty := tok_type token in
      if existsb (String.eqb ty) ["STRING_DOUBLE"; "STRING_SINGLE"; "STRING_TEMPLATE"]
      then literal (PStr (strip_quotes (tok_value token))) STRING token file_path
      else if String.eqb ty "NUMBER" then
        (do node <~ new_ASTNode LITERAL javascript ;;
         do value <~ (if has_dot (tok_value token)
                      then ret (PFloat (tok_value token))
                      else lift (do z <~ int_ (tok_value token) ;; Ok (PInt z))%res) ;;
         let node := set_attribute node "value" value in
         let node := set_attribute node "data_type"
                       (PStr (DataType_value (if has_dot (tok_value token)
                                              then FLOAT else INTEGER))) in
         ret (Some (_set_source_range node token token file_path), 1))%M
      else if existsb (String.eqb ty) ["TRUE"; "FALSE"]
      then literal (PBool (String.eqb (tok_value token) "true")) BOOLEAN token file_path
      else if String.eqb ty "NULL" then literal PNone NULL token file_path
      else if String.eqb ty "UNDEFINED" then literal PNone UNDEFINED token file_path
      else if String.eqb ty "IDENTIFIER" then
        (do node <~ new_ASTNode IDENTIFIER javascript ;;
         let node := set_attribute node "name" (PStr (tok_value token)) in
         ret (Some (_set_source_range node token token file_path), 1))%M
      else ret (None, 1)
  end.

(** The tuple [_parse_expression] returns is bound to [value_node] and
    tested as a whole: a pair is always truthy, so its first component is
    appended as a child even when it is [None]. *)
Definition _parse_variable_declaration (tokens : list Token) (start : nat)
           (file_path : option string) : M (option ASTNode * nat) :=
  (do node <~ new_ASTNode VARIABLE_DECLARATION javascript ;;
   do kind <~ lift (tok_at tokens start) ;;
   let node := set_attribute node "kind" (PStr (tok_value kind)) in
   let i := start + 1 in
   let '(node, i) := take_name node tokens i in
   do '(node, i) <~
     (if type_is tokens i "ASSIGN" then
        let i := i + 1 in
        if i <? length tokens then
          do value_node <~ _parse_expression tokens i file_path ;;
          ret (add_child node (fst value_node), i + snd value_node)
        else ret (node, i)
      else ret (node, i)) ;;
   let i := if type_is tokens i "SEMICOLON" then i + 1 else i in
   finish node tokens start i file_path)%M.

(** [_parse_if_statement], [_parse_for_statement], [_parse_while_statement]:
    skip to the first closing brace and past it. *)
Definition skip_to_brace (t : NodeType) (tokens : list Token) (start : nat)
           (file_path : option string) : M (option ASTNode * nat) :=
  (do node <~ new_ASTNode t javascript ;;
   let i := start + 1 in
   let i := skip_until "RBRACE" (drop i tokens) i in
   let i := if i <? length tokens then i + 1 else i in
   finish node tokens start i file_path)%M.

Definition _parse_if_statement := skip_to_brace IF_STATEMENT.
Definition _parse_for_statement := skip_to_brace FOR_STATEMENT.
Definition _parse_while_statement := skip_to_brace WHILE_STATEMENT.

Definition _parse_return_statement (tokens : list Token) (start : nat)
           (file_path : option string) : M (option ASTNode * nat) :=
  (do node <~ new_ASTNode RETURN_STATEMENT javascript ;;
   let i := start + 1 in
   do '(node, i) <~
     (if type_is_not tokens i "SEMICOLON" then
        do '(expr, consumed) <~ _parse_expression tokens i file_path ;;
        match expr with
        | Some e => ret (add_child node (Some e), i + consumed)
        | None => ret (node, i)
        end
      else ret (node, i)) ;;
   let i := if type_is tokens i "SEMICOLON" then i + 1 else i in
   finish node tokens start i file_path)%M.

(** [_parse_break_statement], [_parse_continue_statement]. *)
Definition keyword_statement (t : NodeType) (tokens : list Token) (start : nat)
           (file_path : option string) : M (option ASTNode * nat) :=
  (do node <~ new_ASTNode t javascript ;;
   let i := start + 1 in
   let i := if type_is tokens i "SEMICOLON" then i + 1 else i in
   finish node tokens start i file_path)%M.

Definition _parse_break_statement := keyword_statement BREAK_STATEMENT.
Definition _parse_continue_statement := keyword_statement CONTINUE_STATEMENT.

Definition _parse_class_declaration (tokens : list Token) (start : nat)
           (file_path : option string) : M (option ASTNode * nat) :=
  (do node <~ new_ASTNode CLASS_DECLARATION javascript ;;
   let i := start + 1 in
   let '(node, i) := take_name node tokens i in
   let i := skip_until "RBRACE" (drop i tokens) i in
   let i := if i <? length tokens then i + 1 else i in
   finish node tokens start i file_path)%M.

Definition _parse_import_export (tokens : list Token) (start : nat)
           (file_path : option string) : M (option ASTNode * nat) :=
  (do node <~ new_ASTNode IMPORT_DECLARATION javascript ;;
   do kind <~ lift (tok_at tokens start) ;;
   let node := set_attribute node "type" (PStr (tok_value kind)) in
   let i := start + 1 in
   let i := skip_until "SEMICOLON" (drop i tokens) i in
   let i := if i <? length tokens then i + 1 else i in
   finish node tokens start i file_path)%M.

Definition _parse_expression_statement (tokens : list Token) (start : nat)
           (file_path : option string) : M (option ASTNode * nat) :=
  (do '(expr, consumed) <~ _parse_expression tokens start file_path ;;
   match expr with
   | Some e =>
       do stmt <~ new_ASTNode EXPRESSION_STATEMENT javascript ;;
       ret (Some (add_child stmt (Some e)), consumed)
   | None => ret (None, 1)
   end)%M.

Definition _parse_statement (tokens : list Token) (start : nat)
           (file_path : option string) : M (option ASTNode * nat) :=
  match tokens !! start with
  | None => ret (None, 0)
  | Some token =>
      let ty := tok_type token in
      if String.eqb ty "FUNCTION" then _parse_function_declaration tokens start file_path
      else if existsb (String.eqb ty) ["CONST"; "LET"; "VAR"]
      then _parse_variable_declaration tokens start file_path
      else if String.eqb ty "IF" then _parse_if_statement tokens start file_path
      else if String.eqb ty "FOR" then _parse_for_statement tokens start file_path
      else if String.eqb ty "WHILE" then _parse_while_statement tokens start file_path
      else if String.eqb ty "RETURN" then _parse_return_statement tokens start file_path
      else if String.eqb ty "BREAK" then _parse_break_statement tokens start file_path
      else if String.eqb ty "CONTINUE" then _parse_continue_statement tokens start file_path
      else if String.eqb ty "CLASS" then _parse_class_declaration tokens start file_path
      else if existsb (String.eqb ty) ["IMPORT"; "EXPORT"]
      then _parse_import_export tokens start file_path
      else _parse_expression_statement tokens start file_path
  end.

(** The [while i < len(tokens)] loop of [_parse_tokens], for at most [fuel]
    iterations. Each iteration moves [i] on by at least one, so
    [len(tokens) - i] iterations reach the exit ([statements_fuel] below). *)
Fixpoint statements (fuel : nat) (tokens : list Token) (file_path : option string)
         (root : ASTNode) (i : nat) : M ASTNode :=
  if i <? length tokens then
    match fuel with
    | 0 => ret root
    | S fuel' =>
        (do '(node, consumed) <~ _parse_statement tokens i file_path ;;
         let root := match node with
                     | Some n => add_child root (Some n)
                     | None => root
                     end in
         statements fuel' tokens file_path root
                    (i + (if 0 <? consumed then consumed else 1)))%M
    end
  else ret root.

Definition _parse_tokens (tokens : list Token) (file_path : option string)
  : M ASTNode :=
  (do root <~ new_ASTNode PROGRAM javascript ;;
   let root := set_attribute root "language" (PStr "javascript") in
   statements (length tokens) tokens file_path root 0)%M.

(** [str(e)] of the exceptions above; the context is not part of it. *)
Fixpoint exn_str (e : exn) : string :=
  match e with
  | KeyError key => repr_str key
  | IndexError msg | TypeError msg | AttributeError msg | ValueError msg => msg
  | RecursionError => "maximum recursion depth exceeded"
  | WithContext e _ => exn_str e
  end.

(** [e.__context__]. *)
Definition context_of (e : exn) : option (exn + SyntaxError) :=
  match e with
  | WithContext _ context => Some context
  | _ => None
  end.

(** [isinstance(e, ValueError)]. *)
Fixpoint is_ValueError (e : exn) : bool :=
  match e with
  | ValueError _ => true
  | WithContext e _ => is_ValueError e
  | _ => false
  end.

(** The position attributes of the [SyntaxError] an exception carries as
    its context. *)
Definition carried_line (e : exn) : option Z :=
  match context_of e with
  | Some (inr native) => err_lineno native
  | _ => None
  end.

Definition carried_column (e : exn) : option Z :=
  match context_of e with
  | Some (inr native) => err_offset native
  | _ => None
  end.

(** [try: ... except Exception as e: raise ValueError(prefix + str(e))]: the
    new exception is raised while [e] is handled. *)
Definition reraise {A} (prefix : string) (m : M A) : M A :=
  fun w => match m w with
           | Ok r => Ok r
           | Raise e => Raise (WithContext (ValueError (prefix +:+ exn_str e)) (inl e))
           end.

Module JavaScriptParser.
Definition language : string := "javascript".
Definition supported_extensions : list string :=
  [".js"; ".jsx"; ".mjs"; ".ts"; ".tsx"].

Definition parse (source_code : string) (file_path : option string)
  : M UniversalSyntaxTree :=
  reraise "Erreur lors du parsing JavaScript: "
    (let tokens := _tokenize source_code in
     do root_node <~ _parse_tokens tokens file_path ;;
     ret (mkUST root_node
            [("language", PStr "javascript");
             ("file_path", of_opt_str file_path);
             ("parser", PStr "JavaScriptParser");
             ("token_count", PInt (Z.of_nat (length tokens)))]
            "1.0"))%M.
End JavaScriptParser.

(** ** str methods and os.path.splitext *)

(** [c.lower()] on code points below 256. *)
Definition lower_char (c : ascii) : ascii :=
  if between 65 90 c || between 192 214 c || between 216 222 c
  then ascii_of_nat (code c + 32) else c.

(** [s.lower()]. *)
Definition lower (s : string) : string :=
  string_of_list_ascii (map lower_char (list_ascii_of_string s)).

Fixpoint lstrip (l : list ascii) : list ascii :=
  match l with
  | c :: l' => if is_space c then lstrip l' else l
  | [] => []
  end.

(** [s.strip()]. *)
Definition strip (s : string) : string :=
  string_of_list_ascii (rev (lstrip (rev (lstrip (list_ascii_of_string s))))).

Fixpoint starts_with (sub s : list ascii) : bool :=
  match sub, s with
  | [], _ => true
  | a :: sub', b :: s' => Ascii.eqb a b && starts_with sub' s'
  | _ :: _, [] => false
  end.

Fixpoint contains_at (sub s : list ascii) : bool :=
  starts_with sub s ||
  match s with
  | [] => false
  | _ :: s' => contains_at sub s'
  end.

(** [sub in s]. *)
Definition contains (sub s : string) : bool :=
  contains_at (list_ascii_of_string sub) (list_ascii_of_string s).

(** [p.rfind(c)]: the last index of [c], [None] for Python's -1. *)
Fixpoint rfind (c : ascii) (p : list ascii) (i : nat) : option nat :=
  match p with
  | [] => None
  | c' :: p' =>
      match rfind c p' (S i) with
      | Some j => Some j
      | None => if Ascii.eqb c c' then Some i else None
      end
  end.

(** [os.path.splitext(p)[1]] (posixpath): the extension starts at the last
    dot, provided that dot comes after the last slash and some character of
    the file name before it is not a dot. *)
Definition splitext_ext (path : string) : string :=
  let p := list_ascii_of_string path in
  let filenameIndex := match rfind "/" p 0 with Some s => s + 1 | None => 0 end in
  match rfind "." p 0 with
  | Some dotIndex =>
      if (filenameIndex <=? dotIndex)
         && existsb (fun c => negb (Ascii.eqb c "."))
                    (take (dotIndex - filenameIndex) (drop filenameIndex p))
      then string_of_list_ascii (drop dotIndex p)
      else ""
  | None => ""
  end.

(** ** src/parsers/base_parser.py *)

(** A parser object: what [BaseParser.__init__] stores and the [parse]
    method of the subclass. *)
Record BaseParser : Type := mkParser {
  language : string;
  supported_extensions : list string;
  parse : string -> option string -> M UniversalSyntaxTree
}.

Record ParserRegistry : Type := mkRegistry {
  _parsers : gmap string BaseParser;
  _extension_map : gmap string string
}.

(** [ParserRegistry()]. *)
Definition empty_registry : ParserRegistry := mkRegistry ∅ ∅.

Definition register_parser (self : ParserRegistry) (parser : BaseParser)
  : ParserRegistry :=
  mkRegistry
    (<[language parser := parser]> (_parsers self))
    (fold_left (fun m ext => <[ext := language parser]> m)
               (supported_extensions parser) (_extension_map self)).

Definition get_parser (self : ParserRegistry) (lang : string) : option BaseParser :=
  _parsers self !! lang.

(** [if language:] is false for [None] and for the empty string. *)
Definition get_parser_by_extension (self : ParserRegistry) (file_extension : string)
  : option BaseParser :=
  match _extension_map self !! lower file_extension with
  | Some lang => if String.eqb lang "" then None else _parsers self !! lang
  | None => None
  end.

(** An optional str argument that is neither [None] nor empty. *)
Definition given (arg : option string) : option string :=
  match arg with
  | Some s => if String.eqb s "" then None else Some s
  | None => None
  end.

(** [f"{arg}"] of an optional str. *)
Definition fmt (arg : option string) : string :=
  match arg with
  | Some s => s
  | None => "None"
  end.

Definition e_acute : string := String (ascii_of_nat 233) "".

Definition no_parser_found (lang file_path : option string) : exn :=
  ValueError ("Aucun parser trouv" +:+ e_acute +:+ " pour le langage '"
              +:+ fmt lang +:+ "' ou le fichier '" +:+ fmt file_path +:+ "'").

Definition parse_code (registry : ParserRegistry) (source_code : string)
           (lang file_path : option string) : M UniversalSyntaxTree :=
  let parser :=
    match given lang with
    | Some l => get_parser registry l
    | None =>
        match given file_path with
        | Some f => get_parser_by_extension registry (splitext_ext f)
        | None => None
        end
    end in
  match parser with
  | Some p => parse p source_code file_path
  | None => raise (no_parser_found lang file_path)
  end.

(** [any(keyword in source_lower for keyword in keywords)]. *)
Definition any_in (keywords : list string) (source_lower : string) : bool :=
  existsb (fun keyword => contains keyword source_lower) keywords.

Definition detect_language (registry : ParserRegistry) (source_code : string)
           (file_path : option string) : option string :=
  let by_extension :=
    match given file_path with
    | Some f => _extension_map registry !! lower (splitext_ext f)
    | None => None
    end in
  match by_extension with
  | Some lang => Some lang
  | None =>
      let source_lower := strip (lower source_code) in
      if any_in ["def "; "import "; "from "; "class "; "if __name__"] source_lower
      then Some "python"
      else if any_in ["function "; "const "; "let "; "var "; "=>"; "console.log"]
                     source_lower
      then Some "javascript"
      else if any_in ["public class"; "public static void main"; "import java"]
                     source_lower
      then Some "java"
      else if any_in ["#include"; "int main("; "printf("; "cout <<"] source_lower
      then Some (if contains "cout" source_lower then "cpp" else "c")
      else None
  end.

(** *** The registry invariant *)

(** Every language name the extension map holds is a key of the parser map. *)
Definition registry_inv (reg : ParserRegistry) : Prop :=
  forall ext lang, _extension_map reg !! ext = Some lang ->
                   is_Some (_parsers reg !! lang).

(** A parser named by the empty string, as [BaseParser.__init__('')] builds. *)
Definition unnamed_parser : BaseParser :=
  mkParser "" [".q"] (fun _ _ => raise (ValueError "unsupported")).

(** ** The native syntax tree (Python's [ast] module)

    A native node has a class ([type(node).__name__]), the position
    attributes it carries (an absent one is an attribute the node does not
    have) and its fields in [_fields] order. A field holds a plain value, a
    node, or a list of such. *)

Record Position : Type := mkPosition {
  lineno : option Z;
  col_offset : option Z;
  end_lineno : option Z;
  end_col_offset : option Z
}.

Inductive PyAst : Type :=
| AstNode (kind : string) (pos : Position) (fields : list (string * AstField))
with AstField : Type :=
| FValue (v : PyVal)
| FNode (n : PyAst)
| FList (items : list AstField).

Definition kind_of (node : PyAst) : string :=
  match node with AstNode kind _ _ => kind end.
Definition pos_of (node : PyAst) : Position :=
  match node with AstNode _ pos _ => pos end.
Definition fields_of (node : PyAst) : list (string * AstField) :=
  match node with AstNode _ _ fields => fields end.

(** [isinstance(node, ast.K)]. *)
Definition isinstance (node : PyAst) (K : string) : bool :=
  String.eqb (kind_of node) K.

Fixpoint assoc {A} (name : string) (l : list (string * A)) : option A :=
  match l with
  | [] => None
  | (k, v) :: l' => if String.eqb k name then Some v else assoc name l'
  end.

(** [node.name]: [AttributeError] when the node has no such field. *)
Definition field (node : PyAst) (name : string) : result AstField :=
  match assoc name (fields_of node) with
  | Some f => Ok f
  | None => Raise (AttributeError ("'" +:+ kind_of node
                                   +:+ "' object has no attribute '" +:+ name +:+ "'"))
  end.

(** A field read as a plain value, as a node (or [None]), as a list. *)
Definition field_value (node : PyAst) (name : string) : result PyVal :=
  (do f <~ field node name ;;
   match f with
   | FValue v => Ok v
   | _ => Raise (TypeError "plain value expected")
   end)%res.

Definition field_node (node : PyAst) (name : string) : result (option PyAst) :=
  (do f <~ field node name ;;
   match f with
   | FNode n => Ok (Some n)
   | FValue PNone => Ok None
   | _ => Raise (TypeError "node expected")
   end)%res.

Definition field_list (node : PyAst) (name : string) : result (list AstField) :=
  (do f <~ field node name ;;
   match f with
   | FList l => Ok l
   | _ => Raise (TypeError "list expected")
   end)%res.

(** ** src/parsers/python_parser.py *)

(** The kind table of [_get_asu_node_type]. *)
Definition mapping : list (string * NodeType) :=
  [ ("Module", PROGRAM);
    ("FunctionDef", FUNCTION_DECLARATION);
    ("AsyncFunctionDef", FUNCTION_DECLARATION);
    ("ClassDef", CLASS_DECLARATION);
    ("Return", RETURN_STATEMENT);
    ("Delete", EXPRESSION_STATEMENT);
    ("Assign", ASSIGNMENT_EXPRESSION);
    ("AugAssign", ASSIGNMENT_EXPRESSION);
    ("AnnAssign", VARIABLE_DECLARATION);
    ("For", FOR_STATEMENT);
    ("AsyncFor", FOR_STATEMENT);
    ("While", WHILE_STATEMENT);
    ("If", IF_STATEMENT);
    ("With", BLOCK_STATEMENT);
    ("AsyncWith", BLOCK_STATEMENT);
    ("Raise", EXPRESSION_STATEMENT);
    ("Try", BLOCK_STATEMENT);
    ("Assert", EXPRESSION_STATEMENT);
    ("Import", IMPORT_DECLARATION);
    ("ImportFrom", IMPORT_DECLARATION);
    ("Global", EXPRESSION_STATEMENT);
    ("Nonlocal", EXPRESSION_STATEMENT);
    ("Expr", EXPRESSION_STATEMENT);
    ("Pass", EXPRESSION_STATEMENT);
    ("Break", BREAK_STATEMENT);
    ("Continue", CONTINUE_STATEMENT);
    ("BoolOp", BINARY_EXPRESSION);
    ("BinOp", BINARY_EXPRESSION);
    ("UnaryOp", UNARY_EXPRESSION);
    ("Lambda", FUNCTION_DECLARATION);
    ("IfExp", IF_STATEMENT);
    ("Dict", LITERAL);
    ("Set", LITERAL);
    ("ListComp", EXPRESSION_STATEMENT);
    ("SetComp", EXPRESSION_STATEMENT);
    ("DictComp", EXPRESSION_STATEMENT);
    ("GeneratorExp", EXPRESSION_STATEMENT);
    ("Await", EXPRESSION_STATEMENT);
    ("Yield", EXPRESSION_STATEMENT);
    ("YieldFrom", EXPRESSION_STATEMENT);
    ("Compare", BINARY_EXPRESSION);
    ("Call", CALL_EXPRESSION);
    ("Constant", LITERAL);
    ("Attribute", MEMBER_EXPRESSION);
    ("Subscript", MEMBER_EXPRESSION);
    ("Starred", EXPRESSION_STATEMENT);
    ("Name", IDENTIFIER);
    ("List", LITERAL);
    ("Tuple", LITERAL);
    ("Slice", EXPRESSION_STATEMENT) ].

(** [PythonParser._get_asu_node_type]: the legacy literal classes first,
    then the table, with the expression statement as the default. *)
Definition _get_asu_node_type (node : PyAst) : NodeType :=
  if existsb (isinstance node) ["Num"; "Str"; "Bytes"; "NameConstant"]
  then LITERAL
  else match assoc (kind_of node) mapping with
       | Some t => t
       | None => EXPRESSION_STATEMENT
       end.

(** [PythonParser._get_python_type]. [bool] is a subclass of [int], so
    [isinstance(value, int)] holds of [True] and [False]. *)
Definition is_str (v : PyVal) : bool := match v with PStr _ => true | _ => false end.
Definition is_int (v : PyVal) : bool :=
  match v with PInt _ | PBool _ => true | _ => false end.
Definition is_float (v : PyVal) : bool := match v with PFloat _ => true | _ => false end.
Definition is_bool (v : PyVal) : bool := match v with PBool _ => true | _ => false end.
Definition is_None (v : PyVal) : bool := match v with PNone => true | _ => false end.

Definition _get_python_type (value : PyVal) : string :=
  if is_str value then DataType_value STRING
  else if is_int value then DataType_value INTEGER
  else if is_float value then DataType_value FLOAT
  else if is_bool value then DataType_value BOOLEAN
  else if is_None value then DataType_value NULL
  else DataType_value ANY.

(** The loops of [_process_node_attributes] over a list field. *)

(** [for arg in ast_node.args.args: args.append(arg.arg)]. *)
Fixpoint arg_names (items : list AstField) : result (list PyVal) :=
  match items with
  | [] => Ok []
  | FNode a :: rest =>
      (do v <~ field_value a "arg" ;; do t <~ arg_names rest ;; Ok (v :: t))%res
  | _ :: rest => Raise (no_attribute "arg")
  end.

(** Decorators and base classes: a [Name] gives its [id]; with
    [with_attr], an [Attribute] gives its [attr]; anything else is skipped. *)
Fixpoint names_of (with_attr : bool) (items : list AstField) : result (list PyVal) :=
  match items with
  | [] => Ok []
  | FNode n :: rest =>
      if isinstance n "Name" then
        (do v <~ field_value n "id" ;; do t <~ names_of with_attr rest ;; Ok (v :: t))%res
      else if with_attr && isinstance n "Attribute" then
        (do v <~ field_value n "attr" ;; do t <~ names_of with_attr rest ;; Ok (v :: t))%res
      else names_of with_attr rest
  | _ :: rest => names_of with_attr rest
  end.

(** [for alias in ast_node.names:] one dict per alias. *)
Fixpoint alias_infos (items : list AstField) : result (list PyVal) :=
  match items with
  | [] => Ok []
  | FNode a :: rest =>
      (do name <~ field_value a "name" ;;
       do asname <~ field_value a "asname" ;;
       let name_info := [("name", name)] in
       let name_info := if truthy asname
                        then dict_set "alias" asname name_info else name_info in
       do t <~ alias_infos rest ;;
       Ok (PDict name_info :: t))%res
  | _ :: rest => Raise (no_attribute "name")
  end.

(** [if ast_node.decorator_list:] set [decorators]. *)
Definition set_decorators (with_attr : bool) (ast_node : PyAst) (asu_node : ASTNode)
  : result ASTNode :=
  (do decorator_list <~ field_list ast_node "decorator_list" ;;
   match decorator_list with
   | [] => Ok asu_node
   | _ =>
       do decorators <~ names_of with_attr decorator_list ;;
       Ok (set_attribute asu_node "decorators" (PList decorators))
   end)%res.

Definition _process_node_attributes (ast_node : PyAst) (asu_node : ASTNode)
  : result ASTNode :=
  (if isinstance ast_node "Module" then
     Ok (set_attribute asu_node "type" (PStr "module"))
   else if isinstance ast_node "FunctionDef" || isinstance ast_node "AsyncFunctionDef" then
     do name <~ field_value ast_node "name" ;;
     let asu_node := set_attribute asu_node "name" name in
     let asu_node := set_attribute asu_node "is_async"
                       (PBool (isinstance ast_node "AsyncFunctionDef")) in
     do arguments <~ field_node ast_node "args" ;;
     do args <~ match arguments with
                | Some a => do l <~ field_list a "args" ;; arg_names l
                | None => Ok []
                end ;;
     let asu_node := set_attribute asu_node "parameters" (PList args) in
     set_decorators true ast_node asu_node
   else if isinstance ast_node "ClassDef" then
     do name <~ field_value ast_node "name" ;;
     let asu_node := set_attribute asu_node "name" name in
     do bases <~ field_list ast_node "bases" ;;
     do bases <~ names_of false bases ;;
     let asu_node := set_attribute asu_node "base_classes" (PList bases) in
     set_decorators false ast_node asu_node
   else if isinstance ast_node "Name" then
     do name <~ field_value ast_node "id" ;;
     let asu_node := set_attribute asu_node "name" name in
     do ctx <~ field_node ast_node "ctx" ;;
     Ok (set_attribute asu_node "context"
           (PStr (match ctx with Some c => kind_of c | None => "NoneType" end)))
   else if isinstance ast_node "Constant" then
     do value <~ field_value ast_node "value" ;;
     let asu_node := set_attribute asu_node "value" value in
     Ok (set_attribute asu_node "data_type" (PStr (_get_python_type value)))
   else if isinstance ast_node "Num" then
     do n <~ field_value ast_node "n" ;;
     let asu_node := set_attribute asu_node "value" n in
     Ok (set_attribute asu_node "data_type" (PStr (DataType_value NUMBER)))
   else if isinstance ast_node "Str" then
     do s <~ field_value ast_node "s" ;;
     let asu_node := set_attribute asu_node "value" s in
     Ok (set_attribute asu_node "data_type" (PStr (DataType_value STRING)))
   else if isinstance ast_node "BinOp" || isinstance ast_node "UnaryOp" then
     do op <~ field_node ast_node "op" ;;
     Ok (set_attribute asu_node "operator"
           (PStr (match op with Some o => kind_of o | None => "NoneType" end)))
   else if isinstance ast_node "Call" then
     do func <~ field_node ast_node "func" ;;
     match func with
     | Some f =>
         if isinstance f "Name" then
           do v <~ field_value f "id" ;; Ok (set_attribute asu_node "function_name" v)
         else if isinstance f "Attribute" then
           do v <~ field_value f "attr" ;; Ok (set_attribute asu_node "function_name" v)
         else Ok asu_node
     | None => Ok asu_node
     end
   else if isinstance ast_node "Attribute" then
     do v <~ field_value ast_node "attr" ;;
     Ok (set_attribute asu_node "attribute" v)
   else if isinstance ast_node "Import" || isinstance ast_node "ImportFrom" then
     do asu_node <~
       (if isinstance ast_node "ImportFrom" then
          do module <~ field_value ast_node "module" ;;
          do level <~ field_value ast_node "level" ;;
          Ok (set_attribute (set_attribute asu_node "module" module) "level" level)
        else Ok asu_node) ;;
     do names <~ field_list ast_node "names" ;;
     do names <~ alias_infos names ;;
     Ok (set_attribute asu_node "names" (PList names))
   else Ok asu_node)%res.

(** The source range of [_convert_ast_node]: present when the native node
    has both [lineno] and [col_offset]; the end falls back on the start. *)
Definition native_range (node : PyAst) (file_path : option string)
  : option SourceRange :=
  match lineno (pos_of node), col_offset (pos_of node) with
  | Some l, Some c =>
      let end_line := match end_lineno (pos_of node) with Some e => e | None => l end in
      let end_col := match end_col_offset (pos_of node) with Some e => e | None => c end in
      Some (mkSourceRange (mkSourceLocation l c file_path)
                          (mkSourceLocation end_line end_col file_path))
  | _, _ => None
  end.

(** The loop [for child in ast.iter_child_nodes(node)] of
    [_convert_ast_node], written over the fields: a field that is a node
    yields that node, a field that is a list yields its items that are
    nodes. [convert] is the recursive call. *)
Definition over_items (convert : PyAst -> M ASTNode)
  : list AstField -> ASTNode -> M ASTNode :=
  fix go (items : list AstField) (asu_node : ASTNode) {struct items} : M ASTNode :=
    match items with
    | [] => ret asu_node
    | FNode child :: items' =>
        (do child_asu <~ convert child ;;
         go items' (add_child asu_node (Some child_asu)))%M
    | _ :: items' => go items' asu_node
    end.

Definition over_fields (convert : PyAst -> M ASTNode)
  : list (string * AstField) -> ASTNode -> M ASTNode :=
  fix go (fs : list (string * AstField)) (asu_node : ASTNode) {struct fs} : M ASTNode :=
    match fs with
    | [] => ret asu_node
    | (_, FValue _) :: fs' => go fs' asu_node
    | (_, FNode child) :: fs' =>
        (do child_asu <~ convert child ;;
         go fs' (add_child asu_node (Some child_asu)))%M
    | (_, FList items) :: fs' =>
        (do asu_node <~ over_items convert items asu_node ;;
         go fs' asu_node)%M
    end.

(** [PythonParser._convert_ast_node]. *)
Fixpoint _convert_ast_node (node : PyAst) (file_path : option string)
  {struct node} : M ASTNode :=
  match node with
  | AstNode kind pos fields =>
      (do asu_node <~ new_ASTNode (_get_asu_node_type node) (Some "python") ;;
       let asu_node := match native_range node file_path with
                       | Some sr => set_source_range asu_node sr
                       | None => asu_node
                       end in
       do asu_node <~ lift (_process_node_attributes node asu_node) ;;
       over_fields (fun child => _convert_ast_node child file_path)
                   fields asu_node)%M
  end.

(** What [ast.parse] answers: a tree, a [SyntaxError], or an exception of
    another class. *)
Inductive NativeResult : Type :=
| Parsed (tree : PyAst)
| Rejected (e : SyntaxError)
| Failed (e : exn).

(** The file name without its directories, as the interpreter prints it. *)
Definition basename (path : string) : string :=
  let p := list_ascii_of_string path in
  match rfind "/" p 0 with
  | Some i => string_of_list_ascii (drop (i + 1) p)
  | None => path
  end.

(** [str(e)] of a [SyntaxError], as the interpreter formats it: the message,
    then the file name and the line when known. The offset is not part of it. *)
Definition SyntaxError_str (e : SyntaxError) : string :=
  match filename e, err_lineno e with
  | Some f, Some l =>
      msg e +:+ " (" +:+ basename f +:+ ", line " +:+ str_of_int l +:+ ")"
  | Some f, None => msg e +:+ " (" +:+ basename f +:+ ")"
  | None, Some l => msg e +:+ " (line " +:+ str_of_int l +:+ ")"
  | None, None => msg e
  end.

Module PythonParser.
Section WithNative.
(** [ast.parse(source, filename=...)], the native grammar. *)
Variable ast_parse : string -> string -> NativeResult.

Definition language : string := "python".
Definition supported_extensions : list string := [".py"; ".pyw"; ".pyi"].

Definition parse (source_code : string) (file_path : option string)
  : M UniversalSyntaxTree :=
  match ast_parse source_code
                  (match given file_path with Some f => f | None => "<string>" end)
  with
  | Rejected e =>
      raise (WithContext
               (ValueError ("Erreur de syntaxe Python: " +:+ SyntaxError_str e))
               (inr e))
  | Failed e =>
      raise (WithContext
               (ValueError ("Erreur lors du parsing Python: " +:+ exn_str e))
               (inl e))
  | Parsed python_ast =>
      reraise "Erreur lors du parsing Python: "
        (do root_node <~ _convert_ast_node python_ast file_path ;;
         ret (mkUST root_node
                [("language", PStr "python");
                 ("file_path", of_opt_str file_path);
                 ("parser", PStr "PythonParser");
                 ("ast_version", PNone)]
                "1.0"))%M
  end.
End WithNative.
End PythonParser.

(** The two parsers as parser objects, and the registry as
    src/routes/ast_api.py fills it at import time. *)
Definition python_parser (ast_parse : string -> string -> NativeResult) : BaseParser :=
  mkParser PythonParser.language PythonParser.supported_extensions
           (PythonParser.parse ast_parse).

Definition javascript_parser : BaseParser :=
  mkParser JavaScriptParser.language JavaScriptParser.supported_extensions
           JavaScriptParser.parse.

Definition app_registry (ast_parse : string -> string -> NativeResult)
  : ParserRegistry :=
  register_parser (register_parser empty_registry (python_parser ast_parse))
                  javascript_parser.

(** ** src/routes/ast_api.py: the complexity estimate *)

(** The closure [count_nodes] of [analyze_ast]: the nodes in pre-order.
    Reaching a [None] child raises on [node.children]. *)
Fixpoint count_nodes (node : ASTNode) : result (list ASTNode) :=
  (do below <~ results (map (fun child => match child with
                                          | Some c => count_nodes c
                                          | None => Raise (no_attribute "children")
                                          end) (children node)) ;;
   Ok (node :: concat below))%res.

Definition control_flow_nodes : list NodeType :=
  [IF_STATEMENT; WHILE_STATEMENT; FOR_STATEMENT; BINARY_EXPRESSION].

(** [node.type in control_flow_nodes]. *)
Definition is_control_flow (node : ASTNode) : bool :=
  existsb (NodeType_eqb (type node)) control_flow_nodes.

Definition _estimate_cyclomatic_complexity (nodes : list ASTNode) : Z :=
  fold_left (fun complexity node =>
               if is_control_flow node then (complexity + 1)%Z else complexity)
            nodes 1%Z.

(** The number of nodes of the tree whose type is one of the four, counted
    node by node over the tree, as the specification words it. *)
Fixpoint control_flow_count (node : ASTNode) : Z :=
  ((if is_control_flow node then 1 else 0)
   + fold_right (fun child acc => match child with
                                  | Some c => control_flow_count c + acc
                                  | None => acc
                                  end) 0 (children node))%Z.

(** *** The control-flow weight of a node list *)

Definition weight (node : ASTNode) : Z := if is_control_flow node then 1%Z else 0%Z.

Definition total_weight (nodes : list ASTNode) : Z :=
  fold_right (fun node acc => (weight node + acc)%Z) 0%Z nodes.

Definition child_count_nodes (child : option ASTNode) : result (list ASTNode) :=
  match child with
  | Some c => count_nodes c
  | None => Raise (no_attribute "children")
  end.

Definition children_count (cs : list (option ASTNode)) : Z :=
  fold_right (fun child acc => match child with
                               | Some c => (control_flow_count c + acc)%Z
                               | None => acc
                               end) 0%Z cs.

Definition sample_tree : ASTNode :=
  mkASTNode "r" PROGRAM
    [Some (mkASTNode "a" IF_STATEMENT
             [Some (mkASTNode "b" BINARY_EXPRESSION [] [] None None);
              Some (mkASTNode "c" RETURN_STATEMENT [] [] None None)] [] None None);
     Some (mkASTNode "d" FOR_STATEMENT [] [] None None)]
    [] None None.

(** *** Native layers and worlds for the scenarios *)

(** A native layer that rejects every source with the error [e]. *)
Definition rejecting (e : SyntaxError) : string -> string -> NativeResult :=
  fun _ _ => Rejected e.

Definition world0 : World := mkWorld (fun _ => "") 0.

(** A native layer that is never reached by the scenarios below. *)
Definition no_native : string -> string -> NativeResult :=
  fun _ _ => Failed RecursionError.

(** ** Runs and node identities *)

(** A tree with every id blanked. *)
Fixpoint erase_ids (n : ASTNode) : ASTNode :=
  mkASTNode "" (type n)
            (map (fun child => match child with
                               | Some c => Some (erase_ids c)
                               | None => None
                               end) (children n))
            (attributes n) (source_range n) (original_language n).

Definition erase_tree (t : UniversalSyntaxTree) : UniversalSyntaxTree :=
  mkUST (erase_ids (root t)) (metadata t) (version t).

Definition same_shape (a b : ASTNode) : Prop := erase_ids a = erase_ids b.

(** What a run gives its caller, ids apart. *)
Definition outcome {A} (erase : A -> A) (r : result (A * World)) : result A :=
  match r with
  | Ok (a, _) => Ok (erase a)
  | Raise e => Raise e
  end.

(** Two runs that end alike: both return, with related values, or both
    raise the same exception. *)
Definition related {A} (R : A -> A -> Prop) (r1 r2 : result (A * World)) : Prop :=
  match r1, r2 with
  | Ok (a1, _), Ok (a2, _) => R a1 a2
  | Raise e1, Raise e2 => e1 = e2
  | _, _ => False
  end.

Definition same_statement (r1 r2 : option ASTNode * nat) : Prop :=
  match fst r1, fst r2 with
  | Some n1, Some n2 => same_shape n1 n2
  | None, None => True
  | _, _ => False
  end /\ snd r1 = snd r2.

(** *** Relations between the results of two runs, and induction on native trees *)

Definition related_res {A} (R : A -> A -> Prop) (r1 r2 : result A) : Prop :=
  match r1, r2 with
  | Ok a1, Ok a2 => R a1 a2
  | Raise e1, Raise e2 => e1 = e2
  | _, _ => False
  end.

Definition on_item (P : PyAst -> Prop) (item : AstField) : Prop :=
  match item with
  | FNode n => P n
  | _ => True
  end.

Definition on_field (P : PyAst -> Prop) (f : AstField) : Prop :=
  match f with
  | FValue _ => True
  | FNode n => P n
  | FList items => Forall (on_item P) items
  end.

Section PyAst_induction.
Variable P : PyAst -> Prop.
Hypothesis step : forall kind pos fields,
    Forall (fun kf => on_field P (snd kf)) fields -> P (AstNode kind pos fields).

Fixpoint PyAst_nested_ind (n : PyAst) : P n :=
  match n with
  | AstNode kind pos fields =>
      step kind pos fields
        ((fix all (fs : list (string * AstField))
            : Forall (fun kf => on_field P (snd kf)) fs :=
            match fs with
            | [] => List.Forall_nil _
            | (name, f) :: fs' =>
                @List.Forall_cons _ (fun kf => on_field P (snd kf)) (name, f) fs'
                  (match f return on_field P f with
                   | FValue _ => I
                   | FNode child => PyAst_nested_ind child
                   | FList items =>
                       (fix each (l : list AstField) : Forall (on_item P) l :=
                          match l with
                          | [] => List.Forall_nil _
                          | item :: l' =>
                              @List.Forall_cons _ (on_item P) item l'
                                (match item return on_item P item with
                                 | FNode child => PyAst_nested_ind child
                                 | _ => I
                                 end)
                                (each l')
                          end) items
                   end)
                  (all fs')
            end) fields)
  end.
End PyAst_induction.

Definition converts_alike (convert : PyAst -> M ASTNode) (n : PyAst) : Prop :=
  forall w1 w2, related same_shape (convert n w1) (convert n w2).

(** ** Tree queries and analysis utilities *)

(** The closure [traverse] of [UniversalSyntaxTree.get_nodes_by_type]: the
    nodes of the given type, collected in pre-order. Reaching a [None] child
    raises on [node.type]. *)
Fixpoint traverse_by_type (node_type : NodeType) (node : ASTNode)
  : result (list ASTNode) :=
  (do below <~ results (map (fun child => match child with
                                          | Some c => traverse_by_type node_type c
                                          | None => Raise (no_attribute "type")
                                          end) (children node)) ;;
   Ok ((if NodeType_eqb (type node) node_type then [node] else []) ++ concat below)%list)%res.

Definition get_nodes_by_type (self : UniversalSyntaxTree) (node_type : NodeType)
  : result (list ASTNode) :=
  traverse_by_type node_type (root self).

(** The loop [for child in node.children] of the closure [traverse] of
    [find_node_by_id]: the first hit among the children, looked up in
    order; a node object is always truthy, so [if result:] tests for
    [None]. Reaching a [None] child raises on [node.id]. *)
Definition first_hit (traverse : ASTNode -> result (option ASTNode))
  : list (option ASTNode) -> result (option ASTNode) :=
  fix first (cs : list (option ASTNode)) : result (option ASTNode) :=
    match cs with
    | [] => Ok None
    | None :: _ => Raise (no_attribute "id")
    | Some c :: cs' =>
        (do found <~ traverse c ;;
         match found with
         | Some n => Ok (Some n)
         | None => first cs'
         end)%res
    end.

(** The closure [traverse] of [UniversalSyntaxTree.find_node_by_id]. *)
Fixpoint traverse_by_id (node_id : string) (node : ASTNode)
  : result (option ASTNode) :=
  if String.eqb (id node) node_id then Ok (Some node)
  else first_hit (traverse_by_id node_id) (children node).

Definition find_node_by_id (self : UniversalSyntaxTree) (node_id : string)
  : result (option ASTNode) :=
  traverse_by_id node_id (root self).

(** The loop [for child in node.children] of [_calculate_ast_depth]:
    [max_child_depth = max(max_child_depth, child_depth)]. *)
Definition deepest (depth_of : ASTNode -> result Z)
  : list (option ASTNode) -> Z -> result Z :=
  fix each (cs : list (option ASTNode)) (max_child_depth : Z) : result Z :=
    match cs with
    | [] => Ok max_child_depth
    | None :: _ => Raise (no_attribute "children")
    | Some c :: cs' =>
        (do child_depth <~ depth_of c ;;
         each cs' (Z.max max_child_depth child_depth))%res
    end.

(** [_calculate_ast_depth(node, current_depth)] of src/routes/ast_api.py:
    [current_depth] at a node without children, else the largest of the
    children's depths and of the initial [max_child_depth = 0]. *)
Fixpoint _calculate_ast_depth (node : ASTNode) (current_depth : Z) : result Z :=
  match children node with
  | [] => Ok current_depth
  | cs => deepest (fun c => _calculate_ast_depth c (current_depth + 1)%Z) cs 0%Z
  end.

(** The longest path from a node down to a leaf, counted in edges. *)
Fixpoint height (node : ASTNode) : Z :=
  match children node with
  | [] => 0%Z
  | cs => (1 + fold_right (fun child acc => match child with
                                            | Some c => Z.max (height c) acc
                                            | None => acc
                                            end) 0 cs)%Z
  end.

(** [counts[key] = value] and [counts.get(key, 0)] on the histogram dict. *)
Fixpoint counts_get (key : string) (counts : list (string * Z)) : Z :=
  match counts with
  | [] => 0%Z
  | (k, v) :: counts' => if String.eqb k key then v else counts_get key counts'
  end.

Fixpoint counts_set (key : string) (value : Z) (counts : list (string * Z))
  : list (string * Z) :=
  match counts with
  | [] => [(key, value)]
  | (k, v) :: counts' =>
      if String.eqb k key then (k, value) :: counts'
      else (k, v) :: counts_set key value counts'
  end.

(** The histogram loop of [_analyze_ust]:
    [node_counts[node_type] = node_counts.get(node_type, 0) + 1]. *)
Definition count_type (node_counts : list (string * Z)) (node : ASTNode)
  : list (string * Z) :=
  let node_type := NodeType_value (type node) in
  counts_set node_type (counts_get node_type node_counts + 1)%Z node_counts.

Definition node_counts (all_nodes : list ASTNode) : list (string * Z) :=
  fold_left count_type all_nodes [].

(** The sum of the values of a histogram. *)
Definition counts_total (counts : list (string * Z)) : Z :=
  fold_right (fun kv acc => (snd kv + acc)%Z) 0%Z counts.

Definition has_type (node_type : NodeType) (node : ASTNode) : bool :=
  NodeType_eqb (type node) node_type.

Definition has_id (node_id : string) (node : ASTNode) : bool :=
  String.eqb (id node) node_id.

Definition children_height (cs : list (option ASTNode)) : Z :=
  fold_right (fun child acc => match child with
                               | Some c => Z.max (height c) acc
                               | None => acc
                               end) 0%Z cs.

(** A tree with a deep first branch and a shallow second one. *)
Definition lopsided_tree : ASTNode :=
  mkASTNode "r" PROGRAM
    [Some (mkASTNode "a" IF_STATEMENT
             [Some (mkASTNode "b" BLOCK_STATEMENT
                      [Some (mkASTNode "c" LITERAL [] [] None None)] [] None None)]
             [] None None);
     Some (mkASTNode "d" LITERAL [] [] None None)]
    [] None None.

(** ** The parser object's [can_parse] *)

(** [can_parse] of both parsers: [file_extension.lower() in self.supported_extensions]. *)
Definition can_parse (self : BaseParser) (file_extension : string) : bool :=
  existsb (String.eqb (lower file_extension)) (supported_extensions self).

(** ** Describing the token list *)

(** The characters a match of [r] can consume. *)
Fixpoint alphabet (r : regex) (c : ascii) : bool :=
  match r with
  | Eps | WordB => false
  | Chr c' => Ascii.eqb c' c
  | Cls p => p c
  | Cat a b | Alt a b => alphabet a c || alphabet b c
  | Star a | StarLazy a => alphabet a c
  end.

(** The tokens a scan of [line] emits from [column] on: each one is what
    the first matching rule gives at its own column, which is not before
    the end of the token before it. *)
Fixpoint emitted_from (line_num : Z) (line : list ascii) (column : nat)
         (toks : list Token) : Prop :=
  match toks with
  | [] => True
  | t :: ts =>
      exists e,
        column <= tok_column t /\ tok_column t < length line /\
        first_match token_patterns line (tok_column t) = Some (tok_type t, e) /\
        discarded (tok_type t) = false /\
        t = mkToken (tok_type t) (slice line (tok_column t) e) line_num (tok_column t) /\
        emitted_from line_num line e ts
  end.

(** A token that sits where it says: on line [line_num], with a non-empty
    text that is the text of [line] from the token's column on. *)
Definition located (line_num : Z) (line : list ascii) (t : Token) : Prop :=
  tok_line t = line_num /\
  tok_value t <> "" /\
  tok_column t + str_len (tok_value t) <= length line /\
  tok_value t = slice line (tok_column t) (tok_column t + str_len (tok_value t)) /\
  ~ In (tok_type t) ["WHITESPACE"; "COMMENT_SINGLE"; "COMMENT_MULTI"; "NEWLINE"].

(** Tokens in increasing column order that do not overlap. *)
Fixpoint ordered_from (column : nat) (toks : list Token) : Prop :=
  match toks with
  | [] => True
  | t :: ts =>
      column <= tok_column t /\
      ordered_from (tok_column t + str_len (tok_value t)) ts
  end.

(** The token lists of the lines, line by line from number [line_num]. *)
Fixpoint line_by_line (line_num : Z) (lines : list (list ascii))
         (per_line : list (list Token)) : Prop :=
  match lines, per_line with
  | [], [] => True
  | line :: lines', toks :: per_line' =>
      Forall (located line_num line) toks /\ ordered_from 0 toks /\
      line_by_line (line_num + 1)%Z lines' per_line'
  | _, _ => False
  end.

(** The text of a NUMBER token that has no dot is one [int] accepts. *)
Definition number_ok (t : Token) : Prop :=
  tok_type t = "NUMBER" -> has_dot (tok_value t) = false ->
  exists z, int_ (tok_value t) = Ok z.

(** The text of a NUMBER token that has no dot is a non-empty run of digits. *)
Definition digit_run (t : Token) : Prop :=
  tok_type t = "NUMBER" -> has_dot (tok_value t) = false ->
  forallb is_digit (list_ascii_of_string (tok_value t)) = true /\
  tok_value t <> "".

(** An integer literal: a NUMBER token whose text has no dot. *)
Definition is_integer_literal (t : Token) : bool :=
  String.eqb (tok_type t) "NUMBER" && negb (has_dot (tok_value t)).

(** No integer literal among the tokens has more digits than [int] takes. *)
Definition within_digit_limit (tokens : list Token) : bool :=
  forallb (fun t => negb (is_integer_literal t)
                    || (Z.of_nat (str_len (tok_value t)) <=? int_max_str_digits)%Z)
          tokens.

(** What [int] says of a digit run that is too long. *)
Definition digit_limit_error (digits : nat) : exn :=
  ValueError ("Exceeds the limit (" +:+ str_of_int int_max_str_digits
              +:+ " digits) for integer string conversion: value has "
              +:+ str_of_int (Z.of_nat digits)
              +:+ " digits; use sys.set_int_max_str_digits() to increase the limit").

(** ** Describing what a statement handler returns *)

(** The handler returns, and the number of tokens it reports as consumed is
    at least one and at most the number of tokens left from [start]. *)
Definition consumes (tokens : list Token) (start : nat)
           (r : result ((option ASTNode * nat) * World)) : Prop :=
  exists node consumed w',
    r = Ok ((node, consumed), w') /\ 1 <= consumed <= length tokens - start.

(** ** The shape of the trees the JavaScript parser builds *)

(** A node whose children, if any, have no children of their own. *)
Definition flat (node : ASTNode) : bool :=
  forallb (fun child => match child with
                        | Some c => match children c with [] => true | _ => false end
                        | None => true
                        end) (children node).

(** ** The native tree as the adapter walks it *)

(** The nodes among the items of a list field. *)
Definition item_nodes (items : list AstField) : list PyAst :=
  flat_map (fun item => match item with FNode c => [c] | _ => [] end) items.

Definition field_nodes (f : AstField) : list PyAst :=
  match f with
  | FValue _ => []
  | FNode c => [c]
  | FList items => item_nodes items
  end.

(** [ast.iter_child_nodes(node)]: the fields that are nodes and the nodes
    inside the fields that are lists, in field order. *)
Definition iter_child_nodes (node : PyAst) : list PyAst :=
  flat_map (fun kf => field_nodes (snd kf)) (fields_of node).

(** The number of nodes of a native tree. *)
Definition items_size (size : PyAst -> nat) (items : list AstField) : nat :=
  list_sum (map (fun item => match item with FNode c => size c | _ => 0 end) items).

Definition fields_size (size : PyAst -> nat) (fs : list (string * AstField)) : nat :=
  list_sum (map (fun kf => match snd kf with
                           | FValue _ => 0
                           | FNode c => size c
                           | FList items => items_size size items
                           end) fs).

Fixpoint native_size (node : PyAst) : nat :=
  match node with
  | AstNode _ _ fields => S (fields_size native_size fields)
  end.

(** An ASU node mirrors a native node when it has the type the kind table
    gives, the native position as its source range, Python as its language
    and, as children, nodes that mirror the native child nodes one by one. *)
Inductive mirrors (file_path : option string) : PyAst -> ASTNode -> Prop :=
| mirrors_node (node : PyAst) (n : ASTNode) (cs : list ASTNode) :
    type n = _get_asu_node_type node ->
    source_range n = native_range node file_path ->
    original_language n = Some "python" ->
    children n = map Some cs ->
    Forall2 (mirrors file_path) (iter_child_nodes node) cs ->
    mirrors file_path node n.

(** The ids of the nodes of [n] in pre-order are the [size] ids drawn from
    [w] on. *)
Definition ids_in_preorder (w : World) (size : nat) (n : ASTNode) : Prop :=
  exists nodes, count_nodes n = Ok nodes /\
                map id nodes = map (uuid4 w) (seq (drawn w) size).

(** What a conversion that returns [n] guarantees. *)
Definition converted (file_path : option string) (node : PyAst) (w : World)
           (n : ASTNode) (w' : World) : Prop :=
  mirrors file_path node n /\ well_typed n = true /\
  ids_in_preorder w (native_size node) n /\
  uuid4 w' = uuid4 w /\ drawn w' = drawn w + native_size node.

Definition converts_well (file_path : option string)
           (convert : PyAst -> M ASTNode) (node : PyAst) : Prop :=
  forall w n w', convert node w = Ok (n, w') -> converted file_path node w n w'.

(** The native tree of the module [x = 1]. *)
Definition native_assignment : PyAst :=
  AstNode "Module" (mkPosition None None None None)
    [("body",
      FList [FNode (AstNode "Assign"
                      (mkPosition (Some 1%Z) (Some 0%Z) (Some 1%Z) (Some 5%Z))
                      [("targets",
                        FList [FNode (AstNode "Name"
                                        (mkPosition (Some 1%Z) (Some 0%Z)
                                                    (Some 1%Z) (Some 1%Z))
                                        [("id", FValue (PStr "x"));
                                         ("ctx", FNode (AstNode "Store"
                                                          (mkPosition None None None None)
                                                          []))])]);
                       ("value",
                        FNode (AstNode "Constant"
                                 (mkPosition (Some 1%Z) (Some 4%Z) (Some 1%Z) (Some 5%Z))
                                 [("value", FValue (PInt 1)); ("kind", FValue PNone)]));
                       ("type_comment", FValue PNone)])]);
     ("type_ignores", FList [])].

(** A native layer that accepts the source and answers [tree]. *)
Definition accepting (tree : PyAst) : string -> string -> NativeResult :=
  fun _ _ => Parsed tree.

(** A node dict with its keys in another order, an unknown key, and only
    the required keys on the child. *)
Definition bare_dict : PyVal :=
  PDict [("type", PStr "literal"); ("id", PStr "n1"); ("extra", PInt 3);
         ("children", PList [PDict [("id", PStr "n2"); ("type", PStr "comment")]])].

(** The part of the loop invariants on the nodes added: they mirror the
    native nodes converted, all are typed trees, and their ids in pre-order
    are the ones drawn between [w] and [w']. *)
Definition appended (file_path : option string) (natives : list PyAst)
           (a : ASTNode) (w : World) (a' : ASTNode) (w' : World) (size : nat) : Prop :=
  exists cs,
    a' = mkASTNode (id a) (type a) (children a ++ map Some cs)%list
           (attributes a) (source_range a) (original_language a)
    /\ Forall2 (mirrors file_path) natives cs
    /\ Forall (fun c => well_typed c = true) cs
    /\ uuid4 w' = uuid4 w
    /\ drawn w' = drawn w + size
    /\ exists below, results (map child_count_nodes (map Some cs)) = Ok below
                     /\ map id (concat below) = map (uuid4 w) (seq (drawn w) size).

(** An integer literal of 4301 digits. *)
Definition long_literal : string := string_of_list_ascii (List.repeat "9"%char 4301).

(** * Properties *)

(** ** Round trip of the canonical form *)

Lemma NodeType_of_value_value (t : NodeType) :
  NodeType_of_value (NodeType_value t) = Ok t.
Proof. destruct t; reflexivity. Qed.

Lemma location_round_trip (l : SourceLocation) :
  location_from_dict (location_to_dict l) = Ok l.
Proof. destruct l as [ln c [f|]]; reflexivity. Qed.

Lemma to_dict_unfold (i : string) (t : NodeType) (cs : list (option ASTNode))
      (a : list (string * PyVal)) (sr : option SourceRange) (ol : option string) :
  to_dict (mkASTNode i t cs a sr ol) =
  (do ds <~ results (map child_to_dict cs) ;;
   Ok (PDict [("id", PStr i);
              ("type", PStr (NodeType_value t));
              ("children", PList ds);
              ("attributes", PDict a);
              ("source_range",
                match sr with
                | Some r => PDict [("start", location_to_dict (start r));
                                   ("end", location_to_dict (end_ r))]
                | None => PNone
                end);
              ("original_language", of_opt_str ol)]))%res.
Proof. reflexivity. Qed.

(** The children are read back one by one, each from its own dict. *)
Lemma children_round_trip (f : PyVal -> result ASTNode) (cs : list (option ASTNode)) :
  forall ds,
    results (map child_to_dict cs) = Ok ds ->
    Forall (on_child (fun c => forall d, to_dict c = Ok d ->
                                         py_size d <= list_sum (map py_size ds) ->
                                         f d = Ok c)) cs ->
    exists ns, results (map f ds) = Ok ns /\ map Some ns = cs.
Proof.
  induction cs as [|child cs IH]; intros ds Hds Hall; cbn [map results] in Hds.
  - injection Hds as <-. exists []. split; reflexivity.
  - destruct (child_to_dict child) as [d|e] eqn:Hd; [|discriminate].
    cbn [rbind] in Hds.
    destruct (results (map child_to_dict cs)) as [ds'|e] eqn:Hds'; [|discriminate].
    injection Hds as <-.
    apply List.Forall_cons_iff in Hall as [Hc Hall].
    destruct child as [c|]; [|discriminate].
    cbn [on_child child_to_dict] in Hc, Hd.
    destruct (IH ds' eq_refl) as (ns & Hns & Hmap).
    { eapply List.Forall_impl; [|exact Hall].
      intros [c'|]; cbn [on_child]; [|trivial].
      intros Hc' d' Hd' Hsz. apply Hc'; [exact Hd'|].
      simpl. lia. }
    exists (c :: ns). cbn [map results].
    rewrite (Hc d Hd) by (simpl; lia).
    cbn [rbind]. rewrite Hns. cbn [rbind]. rewrite Hmap. split; reflexivity.
Qed.

Lemma from_dict_rec_to_dict (n : ASTNode) :
  forall d depth, to_dict n = Ok d -> py_size d <= depth ->
                  from_dict_rec depth d = Ok n.
Proof.
  induction n as [i t cs a sr ol IH] using ASTNode_nested_ind.
  intros d depth Hd Hsz. rewrite to_dict_unfold in Hd.
  destruct (results (map child_to_dict cs)) as [ds|e] eqn:Hds; [|discriminate].
  cbn [rbind] in Hd. injection Hd as <-.
  assert (Hlt : list_sum (map py_size ds) < depth).
  { cbn [py_size map snd] in Hsz. unfold list_sum at 1 in Hsz.
    cbn [fold_right] in Hsz. cbn [py_size] in Hsz. lia. }
  clear Hsz.
  destruct depth as [|depth]; [lia|].
  destruct (children_round_trip (from_dict_rec depth) cs ds Hds) as (ns & Hns & Hmap).
  { eapply List.Forall_impl; [|exact IH].
    intros [c|]; cbn [on_child]; [|trivial].
    intros Hc d Hd Hsz. apply Hc; [exact Hd|lia]. }
  cbn [from_dict_rec].
  cbn [subscript get get_default dict_get dict_get_default String.eqb
       Ascii.eqb Bool.eqb rbind as_str as_dict].
  rewrite NodeType_of_value_value.
  cbn [rbind].
  assert (Hol : as_opt_str (of_opt_str ol) = Ok ol) by (destruct ol; reflexivity).
  rewrite Hol. cbn [rbind as_list].
  destruct sr as [[s e]|]; cbn [truthy rbind subscript dict_get String.eqb
                                 Ascii.eqb Bool.eqb start end_].
  - rewrite !location_round_trip. cbn [rbind]. rewrite Hns. cbn [rbind].
    rewrite Hmap. reflexivity.
  - rewrite Hns. cbn [rbind]. rewrite Hmap. reflexivity.
Qed.

(** Serialization succeeds exactly on the trees whose children are all nodes. *)
Lemma to_dict_well_typed (n : ASTNode) :
  well_typed n = true <-> exists d, to_dict n = Ok d.
Proof.
  induction n as [i t cs a sr ol IH] using ASTNode_nested_ind.
  rewrite to_dict_unfold. cbn [well_typed children]. fold well_typed.
  assert (H : forallb (fun child => match child with
                                    | Some c => well_typed c
                                    | None => false
                                    end) cs = true
              <-> exists ds, results (map child_to_dict cs) = Ok ds).
  { induction cs as [|child cs IHcs]; cbn [forallb map results].
    - split; eauto.
    - apply List.Forall_cons_iff in IH as [Hc Hcs]. specialize (IHcs Hcs).
      rewrite andb_true_iff, IHcs.
      destruct child as [c|]; cbn [on_child child_to_dict] in *.
      + rewrite Hc. split.
        * intros [[d Hd] [ds Hds]]. rewrite Hd, Hds. cbn. eauto.
        * intros [ds Hds]. destruct (to_dict c); [|discriminate].
          cbn [rbind] in Hds.
          destruct (results (map child_to_dict cs)); [|discriminate]. eauto.
      + split; [intros [? _]; discriminate | intros [? ?]; discriminate]. }
  rewrite H. split.
  - intros [ds ->]. cbn [rbind]. eauto.
  - intros [d Hd]. destruct (results (map child_to_dict cs)); [eauto|discriminate].
Qed.

Lemma round_trip_node (n : ASTNode) (d : PyVal) :
  to_dict n = Ok d -> from_dict d = Ok n.
Proof. intros H. unfold from_dict. eapply from_dict_rec_to_dict; [exact H|lia]. Qed.

Lemma round_trip_tree (t : UniversalSyntaxTree) (d : PyVal) :
  to_json_data t = Ok d -> from_json_data d = Ok t.
Proof.
  destruct t as [r m v]. unfold to_json_data, from_json_data. cbn [root metadata version].
  destruct (to_dict r) as [dr|e] eqn:Hr; [|discriminate].
  cbn [rbind]. cbv zeta. destruct (json_refused _); [discriminate|].
  intros H. injection H as <-.
  cbn [subscript get_default dict_get dict_get_default String.eqb Ascii.eqb
       Bool.eqb rbind as_dict as_str].
  rewrite (round_trip_node r dr Hr). reflexivity.
Qed.

(** ** Forward progress of the tokenizer *)

Lemma rmatch_min_len (r : regex) (s : list ascii) :
  forall k i e, rmatch r s k i = Some e ->
                exists j, i + min_len r <= j /\ k j = Some e.
Proof.
  induction r as [| c | p | | a IHa b IHb | a IHa b IHb | a IHa | a IHa];
    intros k i e H; cbn [rmatch min_len] in *.
  - exists i. split; [lia | exact H].
  - destruct (s !! i) as [c'|]; [|discriminate].
    destruct (Ascii.eqb c c'); [|discriminate].
    exists (S i). split; [lia | exact H].
  - destruct (s !! i) as [c'|]; [|discriminate].
    destruct (p c'); [|discriminate].
    exists (S i). split; [lia | exact H].
  - destruct (at_boundary s i); [|discriminate].
    exists i. split; [lia | exact H].
  - apply IHa in H as (j1 & Hj1 & H).
    apply IHb in H as (j2 & Hj2 & H).
    exists j2. split; [lia | exact H].
  - destruct (rmatch a s k i) eqn:Ha.
    + injection H as ->. apply IHa in Ha as (j & Hj & Hk).
      exists j. split; [lia | exact Hk].
    + apply IHb in H as (j & Hj & Hk).
      exists j. split; [lia | exact Hk].
  - revert i H. generalize (length s) as n.
    induction n as [|n IHn]; intros i H.
    + exists i. split; [lia | exact H].
    + match type of H with
      | match ?m with _ => _ end = _ => destruct m eqn:Hm
      end.
      * injection H as ->. apply IHa in Hm as (j & Hj & Hm).
        destruct (i <? j) eqn:Hij; [|discriminate].
        apply IHn in Hm as (j' & Hj' & Hk).
        exists j'. split; [lia | exact Hk].
      * exists i. split; [lia | exact H].
  - revert i H. generalize (length s) as n.
    induction n as [|n IHn]; intros i H.
    + destruct (k i) eqn:Hk; [|discriminate].
      exists i. split; [lia | congruence].
    + destruct (k i) eqn:Hk.
      * exists i. split; [lia | congruence].
      * apply IHa in H as (j & Hj & Hm).
        destruct (i <? j) eqn:Hij; [|discriminate].
        apply IHn in Hm as (j' & Hj' & Hk').
        exists j'. split; [lia | exact Hk'].
Qed.

Lemma re_match_min_len (r : regex) (s : list ascii) (pos e : nat) :
  re_match r s pos = Some e -> pos + min_len r <= e.
Proof.
  unfold re_match. intros H.
  apply rmatch_min_len in H as (j & Hj & Hk). injection Hk as ->. exact Hj.
Qed.

Lemma first_match_advances (patterns : list (string * regex))
      (line : list ascii) (column : nat) (token_type : string) (e : nat) :
  nonempty_rules patterns = true ->
  first_match patterns line column = Some (token_type, e) ->
  column < e.
Proof.
  induction patterns as [|[ty r] rest IH]; cbn [first_match nonempty_rules forallb snd];
    [discriminate|].
  intros Hne H. apply andb_prop in Hne as [Hr Hrest].
  destruct (re_match r line column) as [e'|] eqn:Hm.
  - injection H as _ ->. apply re_match_min_len in Hm.
    apply Nat.leb_le in Hr. lia.
  - apply IH; assumption.
Qed.

Lemma scan_step_advances (line_num : Z) (line : list ascii) (column : nat) :
  column < snd (scan_step line_num line column).
Proof.
  unfold scan_step.
  destruct (first_match token_patterns line column) as [[ty e]|] eqn:Hm;
    cbn [snd]; [|lia].
  eapply first_match_advances; [|exact Hm]. reflexivity.
Qed.

Lemma scan_line_total (line_num : Z) (line : list ascii) :
  forall fuel column, length line - column <= fuel ->
                      exists toks, scan_line fuel line_num line column = Some toks.
Proof.
  induction fuel as [|fuel IH]; intros column Hf; cbn [scan_line].
  - destruct (column <? length line) eqn:Hc; [|eauto].
    apply Nat.ltb_lt in Hc. lia.
  - destruct (column <? length line) eqn:Hc; [|eauto].
    apply Nat.ltb_lt in Hc.
    pose proof (scan_step_advances line_num line column) as Hadv.
    destruct (scan_step line_num line column) as [toks column']. cbn [snd] in Hadv.
    destruct (IH column') as [rest Hrest]; [lia|].
    rewrite Hrest. cbn. eauto.
Qed.

Lemma scan_lines_total (lines : list (list ascii)) :
  forall line_num, exists toks, scan_lines line_num lines = Some toks.
Proof.
  induction lines as [|line rest IH]; intros line_num; cbn [scan_lines]; [eauto|].
  destruct (scan_line_total line_num line (length line) 0) as [a Ha]; [lia|].
  destruct (IH (line_num + 1)%Z) as [b Hb].
  rewrite Ha, Hb. eauto.
Qed.

Lemma tokenize_run_total (source_code : string) :
  tokenize_run source_code = Some (_tokenize source_code).
Proof.
  unfold _tokenize.
  destruct (scan_lines_total (split_lines [] (list_ascii_of_string source_code)) 1%Z)
    as [toks H].
  unfold tokenize_run. rewrite H. reflexivity.
Qed.

(** C4 (forward progress). Tokenizing any input terminates without raising:
    at every scan position, either the first matching rule gives a match that
    ends strictly after the position and the scan moves to that end, or no
    rule matches, no token is produced and the scan moves on by exactly one
    character; hence the loop over a line reaches its exit within
    [len(line) - column] iterations, and the run over any source text
    completes with a token list. *)
Theorem tokenizer_forward_progress :
  (forall line_num line column,
      match first_match token_patterns line column with
      | Some (token_type, e) =>
          column < e /\ snd (scan_step line_num line column) = e
      | None =>
          scan_step line_num line column = ([], column + 1)
      end) /\
  (forall line_num line column,
      column < snd (scan_step line_num line column)) /\
  (forall line_num line column,
      exists toks,
        scan_line (length line - column) line_num line column = Some toks) /\
  (forall source_code,
      tokenize_run source_code = Some (_tokenize source_code)).
Proof.
  split; [|split; [|split]].
  - intros line_num line column. unfold scan_step.
    destruct (first_match token_patterns line column) as [[ty e]|] eqn:Hm;
      [|reflexivity].
    split; [|reflexivity].
    eapply first_match_advances; [|exact Hm]. reflexivity.
  - apply scan_step_advances.
  - intros. apply scan_line_total. lia.
  - apply tokenize_run_total.
Qed.

(** ** The order of the rules *)

(** A position where the EQUALITY pattern matches starts with [=], where the
    earlier ASSIGN rule matches as well. *)
Lemma equality_needs_assign (line : list ascii) (column e : nat) :
  re_match (Alt (Lit "===") (Lit "==")) line column = Some e ->
  re_match (Lit "=") line column = Some (S column).
Proof.
  unfold re_match. cbn [Lit rmatch].
  destruct (line !! column) as [c|]; [|discriminate].
  destruct (Ascii.eqb "=" c); [reflexivity|discriminate].
Qed.

(** No scan position ever yields an EQUALITY token: the rule is listed after
    ASSIGN, which takes every position it could match. *)
Lemma equality_rule_unreachable (line : list ascii) (column : nat)
      (token_type : string) (e : nat) :
  first_match token_patterns line column = Some (token_type, e) ->
  token_type <> "EQUALITY".
Proof.
  cbn [first_match token_patterns].
  repeat match goal with
         | |- context [match re_match ?r line column with _ => _ end] =>
             let H := fresh "H" in
             destruct (re_match r line column) eqn:H;
             try (intros [= <- _]; discriminate)
         end.
  match goal with
  | H : re_match (Alt _ _) line column = Some _ |- _ =>
      apply equality_needs_assign in H; congruence
  end.
Qed.

(** C5 (rule order), at the inputs the claim names: [===] is lexed as three
    ASSIGN tokens, not as one EQUALITY token, because ASSIGN precedes EQUALITY
    in the rule list; [=>] and [&&] are lexed as one token each, and [const]
    as a CONST token. *)
Theorem triple_equals_lexed_as_three_assigns :
  _tokenize "===" = [mkToken "ASSIGN" "=" 1 0; mkToken "ASSIGN" "=" 1 1;
                     mkToken "ASSIGN" "=" 1 2] /\
  _tokenize "=>" = [mkToken "ARROW" "=>" 1 0] /\
  _tokenize "&&" = [mkToken "AND" "&&" 1 0] /\
  _tokenize "const" = [mkToken "CONST" "const" 1 0] /\
  (exists i j, i < j /\
               fst <$> token_patterns !! i = Some "ASSIGN" /\
               fst <$> token_patterns !! j = Some "EQUALITY").
Proof.
  split; [vm_compute; reflexivity|].
  split; [vm_compute; reflexivity|].
  split; [vm_compute; reflexivity|].
  split; [vm_compute; reflexivity|].
  exists 26, 31. split; [lia|]. split; reflexivity.
Qed.

(** ** Scenario: a const declaration *)

(** C8. Parsing ["const x = 5;"] gives a root with exactly one child, a
    variable-declaration node with attributes kind = "const" and
    name = "x", whose only child is a literal node with value = 5 (an int)
    and data_type = "integer" and no children. *)
Theorem parse_const_x_5 :
  forall (w : World) (file_path : option string),
  exists (t : UniversalSyntaxTree) (w' : World) (decl lit : ASTNode),
    JavaScriptParser.parse "const x = 5;" file_path w = Ok (t, w') /\
    children (root t) = [Some decl] /\
    type decl = VARIABLE_DECLARATION /\
    attributes decl = [("kind", PStr "const"); ("name", PStr "x")] /\
    children decl = [Some lit] /\
    type lit = LITERAL /\
    attributes lit = [("value", PInt 5); ("data_type", PStr "integer")] /\
    children lit = [].
Proof.
  intros [u k] file_path.
  eexists _, _, _, _. split; [vm_compute; reflexivity|].
  cbn [root children]. repeat split; reflexivity.
Qed.

(** ** Scenario: an initializer that is not a primary expression *)

(** C1, at a tree the JavaScript parser builds: for ["let x = ("] the
    variable declaration has [None] in its child list, and serializing the
    tree raises [AttributeError], so there is no canonical form to read
    back. *)
Theorem to_json_raises_on_parsed_tree :
  forall (w : World) (file_path : option string),
  exists (t : UniversalSyntaxTree) (w' : World) (decl : ASTNode),
    JavaScriptParser.parse "let x = (" file_path w = Ok (t, w') /\
    children (root t) = [Some decl] /\
    children decl = [None] /\
    well_typed (root t) = false /\
    to_json_data t = Raise (no_attribute "to_dict").
Proof.
  intros [u k] file_path.
  eexists _, _, _. split; [vm_compute; reflexivity|].
  cbn [root children]. repeat split; reflexivity.
Qed.

(** ** The registry invariant *)

Lemma extensions_lookup (lang : string) (exts : list string) :
  forall (m : gmap string string) (k v : string),
    fold_left (fun m ext => <[ext := lang]> m) exts m !! k = Some v ->
    v = lang \/ m !! k = Some v.
Proof.
  induction exts as [|ext exts IH]; intros m k v H; cbn [fold_left] in H.
  - right. exact H.
  - apply IH in H as [->|H]; [left; reflexivity|].
    destruct (decide (ext = k)) as [->|Hne].
    + rewrite lookup_insert_eq in H. left. congruence.
    + rewrite lookup_insert_ne in H by exact Hne. right. exact H.
Qed.

Lemma registry_inv_empty : registry_inv empty_registry.
Proof. intros ext lang H. cbn in H. rewrite lookup_empty in H. discriminate. Qed.

Lemma registry_inv_register (reg : ParserRegistry) (parser : BaseParser) :
  registry_inv reg -> registry_inv (register_parser reg parser).
Proof.
  intros Hinv ext lang H. cbn [register_parser _parsers _extension_map] in *.
  apply extensions_lookup in H as [->|H].
  - rewrite lookup_insert_eq. eauto.
  - destruct (decide (language parser = lang)) as [->|Hne].
    + rewrite lookup_insert_eq. eauto.
    + rewrite lookup_insert_ne by exact Hne. eapply Hinv. exact H.
Qed.

Lemma registry_inv_reachable (parsers : list BaseParser) :
  forall reg, registry_inv reg -> registry_inv (fold_left register_parser parsers reg).
Proof.
  induction parsers as [|p ps IH]; intros reg Hinv; cbn [fold_left]; [exact Hinv|].
  apply IH, registry_inv_register, Hinv.
Qed.

(** C9 as stated fails: after registering a parser whose language name is
    the empty string the invariant holds and [".q"] is a key of the
    extension map, yet [get_parser_by_extension] answers [None], because its
    guard [if language:] takes the empty name for a missing one. *)
Lemma extension_of_unnamed_parser_not_resolved :
  let reg := register_parser empty_registry unnamed_parser in
  registry_inv reg /\
  _extension_map reg !! lower ".Q" = Some "" /\
  is_Some (_parsers reg !! "") /\
  get_parser_by_extension reg ".Q" = None.
Proof.
  cbn zeta. split; [apply registry_inv_register, registry_inv_empty|].
  split; [reflexivity|]. split; [|reflexivity].
  cbn. rewrite lookup_insert_eq. eauto.
Qed.

(** C9, amended. [register_parser] preserves the invariant, and under the
    invariant every extension whose lower-cased form the extension map sends
    to a non-empty language name is resolved to a parser by
    [get_parser_by_extension]. *)
Theorem registry_invariant_preserved
        (reg : ParserRegistry) (parser : BaseParser) (Hinv : registry_inv reg) :
  registry_inv (register_parser reg parser) /\
  forall ext lang,
    _extension_map (register_parser reg parser) !! lower ext = Some lang ->
    lang <> "" ->
    is_Some (get_parser_by_extension (register_parser reg parser) ext).
Proof.
  pose proof (registry_inv_register reg parser Hinv) as Hinv'.
  split; [exact Hinv'|].
  intros ext lang Hext Hne. unfold get_parser_by_extension. rewrite Hext.
  destruct (String.eqb lang "") eqn:Heq.
  - apply String.eqb_eq in Heq. contradiction.
  - eapply Hinv'. exact Hext.
Qed.

Lemma registry_invariant_preserved_witness :
  registry_inv (register_parser empty_registry
                  (mkParser "javascript" [".js"] JavaScriptParser.parse)) /\
  forall ext lang,
    _extension_map (register_parser empty_registry
                      (mkParser "javascript" [".js"] JavaScriptParser.parse))
      !! lower ext = Some lang ->
    lang <> "" ->
    is_Some (get_parser_by_extension
               (register_parser empty_registry
                  (mkParser "javascript" [".js"] JavaScriptParser.parse)) ext).
Proof.
  apply (registry_invariant_preserved empty_registry
           (mkParser "javascript" [".js"] JavaScriptParser.parse)).
  intros ext lang H. cbn in H. rewrite lookup_empty in H. discriminate.
Defined.

(** ** The complexity estimate *)

Lemma total_weight_cons (n : ASTNode) (nodes : list ASTNode) :
  total_weight (n :: nodes) = (weight n + total_weight nodes)%Z.
Proof. reflexivity. Qed.

Lemma estimate_from (nodes : list ASTNode) :
  forall complexity,
    fold_left (fun complexity node =>
                 if is_control_flow node then (complexity + 1)%Z else complexity)
              nodes complexity
    = (complexity + total_weight nodes)%Z.
Proof.
  induction nodes as [|n nodes IH]; intros c; cbn [fold_left].
  - cbn. lia.
  - rewrite IH, total_weight_cons. unfold weight. destruct (is_control_flow n); lia.
Qed.

Lemma total_weight_app (a b : list ASTNode) :
  total_weight (a ++ b) = (total_weight a + total_weight b)%Z.
Proof.
  induction a as [|n a IH]; cbn [app].
  - cbn. lia.
  - rewrite !total_weight_cons, IH. lia.
Qed.

Lemma count_nodes_unfold (node : ASTNode) :
  count_nodes node =
  (do below <~ results (map child_count_nodes (children node)) ;;
   Ok (node :: concat below))%res.
Proof. destruct node; reflexivity. Qed.

Lemma control_flow_count_unfold (node : ASTNode) :
  control_flow_count node = (weight node + children_count (children node))%Z.
Proof. destruct node; reflexivity. Qed.

Lemma count_nodes_weight (root : ASTNode) :
  well_typed root = true ->
  exists nodes, count_nodes root = Ok nodes /\
                total_weight nodes = control_flow_count root.
Proof.
  induction root as [i t cs a sr ol IH] using ASTNode_nested_ind.
  intros Hwt. rewrite count_nodes_unfold, control_flow_count_unfold.
  cbn [children well_typed] in *. fold well_typed in Hwt.
  assert (H : exists below, results (map child_count_nodes cs) = Ok below /\
                            total_weight (concat below) = children_count cs).
  { induction cs as [|child cs IHcs]; cbn [map results forallb] in *.
    - exists []. split; reflexivity.
    - apply andb_prop in Hwt as [Hc Hcs].
      apply List.Forall_cons_iff in IH as [IHc IHrest].
      destruct (IHcs IHrest Hcs) as (below & Hbelow & Hw).
      destruct child as [c|]; [|discriminate].
      cbn [on_child child_count_nodes] in *.
      destruct (IHc Hc) as (nodes & Hnodes & Hwn).
      exists (nodes :: below). rewrite Hnodes, Hbelow. cbn [rbind].
      split; [reflexivity|].
      cbn [concat]. rewrite total_weight_app.
      change (children_count (Some c :: cs))
        with (control_flow_count c + children_count cs)%Z. lia. }
  destruct H as (below & Hbelow & Hw).
  exists (mkASTNode i t cs a sr ol :: concat below). rewrite Hbelow. cbn [rbind].
  split; [reflexivity|].
  rewrite total_weight_cons. lia.
Qed.

(** C7. For every tree (every child a node), the traversal of [analyze_ast]
    collects its nodes and the estimate computed from them is 1 plus the
    number of nodes, over the whole tree, whose type is if-statement,
    while-statement, for-statement or binary-expression. *)
Theorem cyclomatic_estimate_counts_control_flow
        (root : ASTNode) (Hwt : well_typed root = true) :
  exists nodes,
    count_nodes root = Ok nodes /\
    _estimate_cyclomatic_complexity nodes = (1 + control_flow_count root)%Z.
Proof.
  destruct (count_nodes_weight root Hwt) as (nodes & Hnodes & Hw).
  exists nodes. split; [exact Hnodes|].
  unfold _estimate_cyclomatic_complexity. rewrite estimate_from, Hw. reflexivity.
Qed.

Lemma cyclomatic_estimate_witness :
  exists nodes,
    count_nodes sample_tree = Ok nodes /\
    _estimate_cyclomatic_complexity nodes = 4%Z.
Proof.
  destruct (cyclomatic_estimate_counts_control_flow sample_tree eq_refl)
    as (nodes & Hn & He).
  exists nodes. split; [exact Hn|]. rewrite He. reflexivity.
Defined.

(** ** Literal typing in the adapter *)

Lemma bool_is_never_classified (value : PyVal) :
  _get_python_type value <> DataType_value BOOLEAN.
Proof. destruct value; cbn; discriminate. Qed.

(** C10. A native [Constant] holding [True] or [False] is converted to a
    literal node whose attributes are the value itself and
    data_type = "integer": [isinstance(value, int)] is tested before
    [isinstance(value, bool)] and holds of a bool, so no value at all is
    ever given the data type "boolean". *)
Theorem bool_constant_typed_integer :
  forall (b : bool) (pos : Position) (kind_field : PyVal)
         (file_path : option string) (w : World),
    let ast_node := AstNode "Constant" pos
                      [("value", FValue (PBool b)); ("kind", FValue kind_field)] in
    _get_python_type (PBool b) = "integer" /\
    (forall value, _get_python_type value <> "boolean") /\
    exists asu_node w',
      _convert_ast_node ast_node file_path w = Ok (asu_node, w') /\
      type asu_node = LITERAL /\
      attributes asu_node = [("value", PBool b); ("data_type", PStr "integer")] /\
      get_attribute asu_node "data_type" PNone = PStr "integer".
Proof.
  intros b pos kind_field file_path [u k]. cbn zeta.
  split; [reflexivity|]. split; [exact bool_is_never_classified|].
  destruct pos as [[l|] [c|] el ec]; eexists _, _;
    (split; [cbv; reflexivity|]); repeat split; reflexivity.
Qed.

(** ** Rejection by the native grammar *)

(** C6. When the native grammar rejects the source, [parse] raises a
    [ValueError] and returns no tree: nothing of the source is converted.
    The error is raised while the native [SyntaxError] is handled, so it
    carries that error as its context, with the line number and the column
    whenever the native layer supplied them; its message is the fixed prefix
    followed by the text of the native error, which names the file and the
    line when they are known. *)
Theorem native_rejection_is_raised
        (ast_parse : string -> string -> NativeResult)
        (source_code : string) (file_path : option string)
        (e : SyntaxError) (w : World)
        (Hrej : ast_parse source_code
                  (match given file_path with Some f => f | None => "<string>" end)
                = Rejected e) :
  exists raised,
    PythonParser.parse ast_parse source_code file_path w = Raise raised /\
    is_ValueError raised = true /\
    context_of raised = Some (inr e) /\
    carried_line raised = err_lineno e /\
    carried_column raised = err_offset e /\
    exn_str raised = "Erreur de syntaxe Python: " +:+ SyntaxError_str e /\
    SyntaxError_str e
    = match filename e, err_lineno e with
      | Some f, Some l =>
          msg e +:+ " (" +:+ basename f +:+ ", line " +:+ str_of_int l +:+ ")"
      | Some f, None => msg e +:+ " (" +:+ basename f +:+ ")"
      | None, Some l => msg e +:+ " (line " +:+ str_of_int l +:+ ")"
      | None, None => msg e
      end.
Proof.
  eexists. split; [unfold PythonParser.parse, raise; rewrite Hrej; reflexivity|].
  cbn [is_ValueError context_of exn_str].
  unfold carried_line, carried_column. cbn [context_of].
  repeat (split; [reflexivity|]). reflexivity.
Qed.

Lemma native_rejection_witness :
  exists raised,
    PythonParser.parse
      (rejecting (mkSyntaxError "invalid syntax" (Some "<string>")
                                (Some 1%Z) (Some 7%Z)))
      "def f(:" None world0
    = Raise raised /\
    is_ValueError raised = true /\
    carried_line raised = Some 1%Z /\
    carried_column raised = Some 7%Z /\
    exn_str raised = "Erreur de syntaxe Python: invalid syntax (<string>, line 1)".
Proof.
  destruct (native_rejection_is_raised
              (rejecting (mkSyntaxError "invalid syntax" (Some "<string>")
                                        (Some 1%Z) (Some 7%Z)))
              "def f(:" None
              (mkSyntaxError "invalid syntax" (Some "<string>") (Some 1%Z) (Some 7%Z))
              world0 eq_refl)
    as (raised & Hraise & Hclass & _ & Hline & Hcolumn & Hstr & _).
  exists raised. repeat (split; [assumption|]). rewrite Hstr. vm_compute. reflexivity.
Defined.

(** ** Dispatch *)

(** C2 as stated fails: with the application's registry, a language argument
    that names no registered parser makes [parse_code] raise although the
    extension of the file path resolves to the JavaScript parser; the
    extension is not consulted once a language is given. *)
Lemma unknown_language_hides_extension :
  parse_code (app_registry no_native) "const x = 5;" (Some "cobol") (Some "a.js") world0
  = Raise (no_parser_found (Some "cobol") (Some "a.js")) /\
  language <$> get_parser_by_extension (app_registry no_native) (splitext_ext "a.js")
  = Some "javascript".
Proof. split; vm_compute; reflexivity. Qed.

(** C2, amended. [parse_code] consults the language argument alone when one
    is given (not [None], not empty), and the extension of the file path only
    when no language is given; it raises [ValueError] when what it consulted
    names no registered parser or when neither argument is given, and
    otherwise delegates to the [parse] of the parser found, with the same
    source and file path. A file path ending in [.xyz] with no language
    raises. *)
Theorem parse_code_resolution
        (registry : ParserRegistry) (source_code : string)
        (lang file_path : option string) (w : World) :
  (forall l, given lang = Some l ->
             parse_code registry source_code lang file_path w
             = match get_parser registry l with
               | Some p => parse p source_code file_path w
               | None => Raise (no_parser_found lang file_path)
               end) /\
  (given lang = None ->
   forall f, given file_path = Some f ->
             parse_code registry source_code lang file_path w
             = match get_parser_by_extension registry (splitext_ext f) with
               | Some p => parse p source_code file_path w
               | None => Raise (no_parser_found lang file_path)
               end) /\
  (given lang = None -> given file_path = None ->
   parse_code registry source_code lang file_path w
   = Raise (no_parser_found lang file_path)) /\
  (forall ast_parse,
      parse_code (app_registry ast_parse) source_code None (Some "module.xyz") w
      = Raise (no_parser_found None (Some "module.xyz"))).
Proof.
  unfold parse_code. repeat split.
  - intros l ->. destruct (get_parser registry l); reflexivity.
  - intros -> f ->.
    destruct (get_parser_by_extension registry (splitext_ext f)); reflexivity.
  - intros -> ->. reflexivity.
Qed.

Lemma parse_code_resolution_witness :
  parse_code (app_registry no_native) "const x = 5;" (Some "javascript")
             (Some "a.py") world0
  = JavaScriptParser.parse "const x = 5;" (Some "a.py") world0.
Proof.
  destruct (parse_code_resolution (app_registry no_native) "const x = 5;"
              (Some "javascript") (Some "a.py") world0) as [H _].
  rewrite (H "javascript" eq_refl). vm_compute. reflexivity.
Defined.

(** ** Runs of the JavaScript parser differ in ids only *)

Ltac case_split :=
  match goal with
  | |- context [match ?x with _ => _ end] =>
      lazymatch x with
      | context [match _ with _ => _ end] => fail
      | _ => destruct x eqn:?
      end
  end.

Ltac run_both := repeat (progress cbn || case_split).

Ltac by_cases :=
  run_both; try solve [split; reflexivity | reflexivity | contradiction].

Lemma erase_add_child (self : ASTNode) (child : option ASTNode) :
  erase_ids (add_child self child)
  = add_child (erase_ids self) (match child with
                                | Some c => Some (erase_ids c)
                                | None => None
                                end).
Proof. destruct self. cbn. rewrite map_app. reflexivity. Qed.

Lemma related_outcome {A} (erase : A -> A) (r1 r2 : result (A * World)) :
  related (fun a b => erase a = erase b) r1 r2 ->
  outcome erase r1 = outcome erase r2.
Proof.
  destruct r1 as [[a1 w1]|e1], r2 as [[a2 w2]|e2]; cbn; try contradiction.
  - intros ->. reflexivity.
  - intros ->. reflexivity.
Qed.

Lemma expression_related tokens start file_path w1 w2 :
  related same_statement (_parse_expression tokens start file_path w1)
                         (_parse_expression tokens start file_path w2).
Proof.
  destruct w1 as [u1 k1], w2 as [u2 k2].
  unfold _parse_expression, literal, mbind', new_ASTNode, ret, lift.
  by_cases.
Qed.

Lemma function_declaration_related tokens start file_path w1 w2 :
  related same_statement (_parse_function_declaration tokens start file_path w1)
                         (_parse_function_declaration tokens start file_path w2).
Proof.
  destruct w1 as [u1 k1], w2 as [u2 k2].
  unfold _parse_function_declaration, finish, take_name, mbind', new_ASTNode,
    ret, lift, tok_at, type_is.
  by_cases.
Qed.

Lemma variable_declaration_related tokens start file_path w1 w2 :
  related same_statement (_parse_variable_declaration tokens start file_path w1)
                         (_parse_variable_declaration tokens start file_path w2).
Proof.
  destruct w1 as [u1 k1], w2 as [u2 k2].
  unfold _parse_variable_declaration, _parse_expression, literal, finish,
    take_name, mbind', new_ASTNode, ret, lift, tok_at, type_is.
  by_cases.
Qed.

Lemma skip_to_brace_related t tokens start file_path w1 w2 :
  related same_statement (skip_to_brace t tokens start file_path w1)
                         (skip_to_brace t tokens start file_path w2).
Proof.
  destruct w1 as [u1 k1], w2 as [u2 k2].
  unfold skip_to_brace, finish, mbind', new_ASTNode, ret, lift, tok_at.
  by_cases.
Qed.

Lemma return_statement_related tokens start file_path w1 w2 :
  related same_statement (_parse_return_statement tokens start file_path w1)
                         (_parse_return_statement tokens start file_path w2).
Proof.
  destruct w1 as [u1 k1], w2 as [u2 k2].
  unfold _parse_return_statement, _parse_expression, literal, finish,
    mbind', new_ASTNode, ret, lift, tok_at, type_is, type_is_not.
  by_cases.
Qed.

Lemma keyword_statement_related t tokens start file_path w1 w2 :
  related same_statement (keyword_statement t tokens start file_path w1)
                         (keyword_statement t tokens start file_path w2).
Proof.
  destruct w1 as [u1 k1], w2 as [u2 k2].
  unfold keyword_statement, finish, mbind', new_ASTNode, ret, lift, tok_at, type_is.
  by_cases.
Qed.

Lemma class_declaration_related tokens start file_path w1 w2 :
  related same_statement (_parse_class_declaration tokens start file_path w1)
                         (_parse_class_declaration tokens start file_path w2).
Proof.
  destruct w1 as [u1 k1], w2 as [u2 k2].
  unfold _parse_class_declaration, finish, take_name, mbind', new_ASTNode,
    ret, lift, tok_at.
  by_cases.
Qed.

Lemma import_export_related tokens start file_path w1 w2 :
  related same_statement (_parse_import_export tokens start file_path w1)
                         (_parse_import_export tokens start file_path w2).
Proof.
  destruct w1 as [u1 k1], w2 as [u2 k2].
  unfold _parse_import_export, finish, mbind', new_ASTNode, ret, lift, tok_at.
  by_cases.
Qed.

Lemma expression_statement_related tokens start file_path w1 w2 :
  related same_statement (_parse_expression_statement tokens start file_path w1)
                         (_parse_expression_statement tokens start file_path w2).
Proof.
  destruct w1 as [u1 k1], w2 as [u2 k2].
  unfold _parse_expression_statement, _parse_expression, literal,
    mbind', new_ASTNode, ret, lift.
  by_cases.
Qed.

Lemma statement_related tokens start file_path w1 w2 :
  related same_statement (_parse_statement tokens start file_path w1)
                         (_parse_statement tokens start file_path w2).
Proof.
  unfold _parse_statement, _parse_if_statement, _parse_for_statement,
    _parse_while_statement, _parse_break_statement, _parse_continue_statement.
  destruct (tokens !! start) as [token|];
    [|destruct w1, w2; cbn; split; reflexivity].
  repeat match goal with
         | |- context [if ?c then _ else _] => destruct c
         end;
    auto using function_declaration_related, variable_declaration_related,
      skip_to_brace_related, return_statement_related, keyword_statement_related,
      class_declaration_related, import_export_related,
      expression_statement_related.
Qed.

Lemma statements_related fuel tokens file_path :
  forall root1 root2 i w1 w2,
    same_shape root1 root2 ->
    related same_shape (statements fuel tokens file_path root1 i w1)
                       (statements fuel tokens file_path root2 i w2).
Proof.
  induction fuel as [|fuel IH]; intros root1 root2 i w1 w2 Hroot;
    cbn [statements]; destruct (i <? length tokens);
    try (destruct w1, w2; exact Hroot).
  unfold mbind'.
  pose proof (statement_related tokens i file_path w1 w2) as Hs.
  destruct (_parse_statement tokens i file_path w1) as [[[n1 c1] w1']|e1],
           (_parse_statement tokens i file_path w2) as [[[n2 c2] w2']|e2];
    cbn [related] in Hs; try contradiction; [|exact Hs].
  destruct Hs as [Hn Hc]. cbn [fst snd] in Hn, Hc. subst c2.
  apply IH. unfold same_shape in *.
  destruct n1 as [n1|], n2 as [n2|]; try contradiction; [|exact Hroot].
  rewrite !erase_add_child, Hroot, Hn. reflexivity.
Qed.

Lemma javascript_parse_related source_code file_path w1 w2 :
  related (fun a b => erase_tree a = erase_tree b)
          (JavaScriptParser.parse source_code file_path w1)
          (JavaScriptParser.parse source_code file_path w2).
Proof.
  unfold JavaScriptParser.parse, reraise, _parse_tokens, mbind', ret.
  destruct w1 as [u1 k1], w2 as [u2 k2]. cbn [new_ASTNode uuid4 drawn].
  match goal with
  | |- context [statements ?f ?t ?p ?r1 ?i ?wa] =>
      match goal with
      | |- context [statements f t p ?r2 i (mkWorld u2 ?k)] =>
          pose proof (statements_related f t p r1 r2 i wa (mkWorld u2 k) eq_refl) as H;
          destruct (statements f t p r1 i wa) as [[a1 w1']|e1],
                   (statements f t p r2 i (mkWorld u2 k)) as [[a2 w2']|e2]
      end
  end; cbn [related] in H |- *; try contradiction.
  - unfold erase_tree. cbn [root metadata version]. rewrite H. reflexivity.
  - congruence.
Qed.

(** ** Runs of the adapter differ in ids only *)

Lemma process_node_attributes_related (ast_node : PyAst) (a1 a2 : ASTNode) :
  same_shape a1 a2 ->
  related_res same_shape (_process_node_attributes ast_node a1)
                         (_process_node_attributes ast_node a2).
Proof.
  destruct a1 as [i1 t1 cs1 at1 sr1 ol1], a2 as [i2 t2 cs2 at2 sr2 ol2].
  unfold same_shape. cbn [erase_ids type children attributes source_range
                          original_language].
  intros [= -> Hcs -> -> ->].
  destruct ast_node as [kind pos fields].
  unfold _process_node_attributes, set_decorators, field_value, field_node,
    field_list, field, isinstance, rbind.
  cbn [kind_of fields_of].
  run_both; try reflexivity; try (rewrite Hcs; reflexivity).
Qed.

Lemma over_items_related (convert : PyAst -> M ASTNode) (items : list AstField) :
  Forall (on_item (converts_alike convert)) items ->
  forall a1 a2 w1 w2,
    same_shape a1 a2 ->
    related same_shape (over_items convert items a1 w1)
                       (over_items convert items a2 w2).
Proof.
  induction 1 as [|item items Hitem _ IH]; intros a1 a2 w1 w2 Ha;
    cbn [over_items].
  - destruct w1, w2. exact Ha.
  - destruct item as [v|child|l]; cbn [on_item] in Hitem; [apply IH, Ha| |apply IH, Ha].
    unfold mbind'. specialize (Hitem w1 w2).
    destruct (convert child w1) as [[c1 w1']|e1], (convert child w2) as [[c2 w2']|e2];
      cbn [related] in Hitem; try contradiction; [|exact Hitem].
    apply IH. unfold same_shape in *. rewrite !erase_add_child, Ha, Hitem.
    reflexivity.
Qed.

Lemma over_fields_related (convert : PyAst -> M ASTNode)
      (fs : list (string * AstField)) :
  Forall (fun kf => on_field (converts_alike convert) (snd kf)) fs ->
  forall a1 a2 w1 w2,
    same_shape a1 a2 ->
    related same_shape (over_fields convert fs a1 w1)
                       (over_fields convert fs a2 w2).
Proof.
  induction 1 as [|[name f] fs Hf _ IH]; intros a1 a2 w1 w2 Ha;
    cbn [over_fields].
  - destruct w1, w2. exact Ha.
  - cbn [snd] in Hf. destruct f as [v|child|items]; cbn [on_field] in Hf.
    + apply IH, Ha.
    + unfold mbind'. specialize (Hf w1 w2).
      destruct (convert child w1) as [[c1 w1']|e1],
               (convert child w2) as [[c2 w2']|e2];
        cbn [related] in Hf; try contradiction; [|exact Hf].
      apply IH. unfold same_shape in *. rewrite !erase_add_child, Ha, Hf.
      reflexivity.
    + unfold mbind'.
      pose proof (over_items_related convert items Hf a1 a2 w1 w2 Ha) as Hi.
      destruct (over_items convert items a1 w1) as [[b1 w1']|e1],
               (over_items convert items a2 w2) as [[b2 w2']|e2];
        cbn [related] in Hi; try contradiction; [|exact Hi].
      apply IH, Hi.
Qed.

Lemma related_bind {A B} (RA : A -> A -> Prop) (RB : B -> B -> Prop)
      (m1 m2 : M A) (k1 k2 : A -> M B) (w1 w2 : World) :
  related RA (m1 w1) (m2 w2) ->
  (forall a1 a2 w1' w2', RA a1 a2 -> related RB (k1 a1 w1') (k2 a2 w2')) ->
  related RB (mbind' m1 k1 w1) (mbind' m2 k2 w2).
Proof.
  unfold mbind'. intros Hm Hk.
  destruct (m1 w1) as [[a1 w1']|e1], (m2 w2) as [[a2 w2']|e2];
    cbn [related] in Hm; try contradiction; [|exact Hm].
  apply Hk, Hm.
Qed.

Lemma related_lift {A} (R : A -> A -> Prop) (r1 r2 : result A) (w1 w2 : World) :
  related_res R r1 r2 -> related R (lift r1 w1) (lift r2 w2).
Proof. destruct r1, r2; cbn; auto. Qed.

Lemma erase_set_source_range (n : ASTNode) (sr : SourceRange) :
  erase_ids (set_source_range n sr) = set_source_range (erase_ids n) sr.
Proof. destruct n; reflexivity. Qed.

Lemma convert_related (file_path : option string) (node : PyAst) :
  converts_alike (fun n => _convert_ast_node n file_path) node.
Proof.
  induction node as [kind pos fields IH] using PyAst_nested_ind.
  intros w1 w2. cbn [_convert_ast_node].
  apply (related_bind same_shape).
  { destruct w1, w2. reflexivity. }
  intros a1 a2 w1' w2' Ha.
  apply (related_bind same_shape).
  - apply related_lift, process_node_attributes_related.
    destruct (native_range (AstNode kind pos fields) file_path); [|exact Ha].
    unfold same_shape in *. rewrite !erase_set_source_range, Ha. reflexivity.
  - intros b1 b2 w1'' w2'' Hb. apply over_fields_related; assumption.
Qed.

Lemma python_parse_related (ast_parse : string -> string -> NativeResult)
      (source_code : string) (file_path : option string) (w1 w2 : World) :
  related (fun a b => erase_tree a = erase_tree b)
          (PythonParser.parse ast_parse source_code file_path w1)
          (PythonParser.parse ast_parse source_code file_path w2).
Proof.
  unfold PythonParser.parse.
  destruct (ast_parse source_code _) as [tree|e|e]; [|reflexivity|reflexivity].
  unfold reraise, mbind', ret.
  pose proof (convert_related file_path tree w1 w2) as H.
  destruct (_convert_ast_node tree file_path w1) as [[a1 w1']|e1],
           (_convert_ast_node tree file_path w2) as [[a2 w2']|e2];
    cbn [related] in H |- *; try contradiction.
  - unfold erase_tree. cbn [root metadata version]. rewrite H. reflexivity.
  - congruence.
Qed.

(** Both runs consult the same registry, so they pick the same parser. *)
Lemma parse_code_related (ast_parse : string -> string -> NativeResult)
      (source_code : string) (lang file_path : option string) (w1 w2 : World) :
  related (fun a b => erase_tree a = erase_tree b)
          (parse_code (app_registry ast_parse) source_code lang file_path w1)
          (parse_code (app_registry ast_parse) source_code lang file_path w2).
Proof.
  unfold parse_code.
  assert (Hreg : forall p l, _parsers (app_registry ast_parse) !! l = Some p ->
                             p = python_parser ast_parse \/ p = javascript_parser).
  { intros p l. unfold app_registry, register_parser, empty_registry.
    cbn [_parsers language].
    destruct (decide (l = "javascript")) as [->|Hjs].
    - rewrite lookup_insert_eq. intros [= <-]. right. reflexivity.
    - rewrite lookup_insert_ne by (intros Heq; apply Hjs; rewrite <- Heq; reflexivity).
      destruct (decide (l = "python")) as [->|Hpy].
      + rewrite lookup_insert_eq. intros [= <-]. left. reflexivity.
      + rewrite lookup_insert_ne by (intros Heq; apply Hpy; rewrite <- Heq; reflexivity).
        rewrite lookup_empty. discriminate. }
  match goal with
  | |- context [match ?sel with Some p => parse p _ _ | None => _ end] =>
      assert (Hsel : forall p, sel = Some p ->
                               p = python_parser ast_parse \/ p = javascript_parser);
      [|destruct sel as [p|]; [|reflexivity]]
  end.
  - intros p.
    destruct (given lang) as [l|]; [apply Hreg|].
    destruct (given file_path) as [f|]; [|discriminate].
    unfold get_parser_by_extension.
    destruct (_extension_map _ !! _) as [l|]; [|discriminate].
    destruct (String.eqb l ""); [discriminate|apply Hreg].
  - destruct (Hsel p eq_refl) as [->| ->]; cbn [parse python_parser javascript_parser].
    + apply python_parse_related.
    + apply javascript_parse_related.
Qed.

(** ** Determinism up to node ids *)

(** C3 as stated fails: two runs of [parse] on the same input, in which the
    random source answers differently, return trees that differ (in the id
    of the root already). *)
Lemma parse_ids_differ_between_runs :
  let run_a := mkWorld (fun _ => "1b4e28ba-2fa1-41d2-883f-0016d3cca427") 0 in
  let run_b := mkWorld (fun _ => "6fa459ea-ee8a-4ca4-894e-db77e160355e") 0 in
  outcome (fun t => t) (JavaScriptParser.parse "const x = 5;" None run_a)
  <> outcome (fun t => t) (JavaScriptParser.parse "const x = 5;" None run_b) /\
  outcome (fun t => t)
          (parse_code (app_registry no_native) "const x = 5;" (Some "javascript")
                      None run_a)
  <> outcome (fun t => t)
             (parse_code (app_registry no_native) "const x = 5;" (Some "javascript")
                         None run_b).
Proof.
  cbn zeta. split; vm_compute; discriminate.
Qed.

(** C3, amended. [detect_language] is a function of the source text, the
    file path and the registry's extension map. Two runs of a [parse] call
    on the same input end alike whatever the random source answers: both
    raise the same error, or both return trees that are equal once the node
    ids, drawn afresh in each run, are blanked. This holds of the JavaScript
    parser, of the Python adapter over any native grammar, and of
    [parse_code] over the application's registry. *)
Theorem runs_agree_up_to_ids
        (ast_parse : string -> string -> NativeResult)
        (source_code : string) (lang file_path : option string) (w1 w2 : World) :
  (forall parsers1 parsers2 extension_map,
      detect_language (mkRegistry parsers1 extension_map) source_code file_path
      = detect_language (mkRegistry parsers2 extension_map) source_code file_path) /\
  outcome erase_tree (JavaScriptParser.parse source_code file_path w1)
  = outcome erase_tree (JavaScriptParser.parse source_code file_path w2) /\
  outcome erase_tree (PythonParser.parse ast_parse source_code file_path w1)
  = outcome erase_tree (PythonParser.parse ast_parse source_code file_path w2) /\
  outcome erase_tree
          (parse_code (app_registry ast_parse) source_code lang file_path w1)
  = outcome erase_tree
            (parse_code (app_registry ast_parse) source_code lang file_path w2).
Proof.
  split; [reflexivity|].
  split; [apply related_outcome, javascript_parse_related|].
  split; [apply related_outcome, python_parse_related|].
  apply related_outcome, parse_code_related.
Qed.

(** The statement loop does not depend on its bound once the bound covers
    the tokens left. *)
Lemma statements_fuel (tokens : list Token) (file_path : option string) :
  forall fuel1 fuel2 root i w,
    length tokens - i <= fuel1 -> length tokens - i <= fuel2 ->
    statements fuel1 tokens file_path root i w
    = statements fuel2 tokens file_path root i w.
Proof.
  induction fuel1 as [|fuel1 IH]; intros fuel2 root i w H1 H2;
    destruct fuel2 as [|fuel2]; cbn [statements];
    destruct (i <? length tokens) eqn:Hi; try reflexivity;
    try (apply Nat.ltb_lt in Hi; lia).
  apply Nat.ltb_lt in Hi. unfold mbind'.
  destruct (_parse_statement tokens i file_path w) as [[[node consumed] w']|e];
    [|reflexivity].
  apply IH; destruct (0 <? consumed) eqn:Hc;
    try apply Nat.ltb_lt in Hc; lia.
Qed.

(** * Further properties of the tree model and the analysis utilities *)

Lemma rbind_Ok {A B} (r : result A) (k : A -> result B) (b : B) :
  rbind r k = Ok b -> exists a, r = Ok a /\ k a = Ok b.
Proof. destruct r as [a|e]; cbn; [eauto|discriminate]. Qed.

Lemma results_Ok {A B} (f : A -> result B) (l : list A) :
  forall bs, results (map f l) = Ok bs -> Forall2 (fun a b => f a = Ok b) l bs.
Proof.
  induction l as [|a l IH]; intros bs H; cbn [map results] in H.
  - injection H as <-. constructor.
  - apply rbind_Ok in H as (b & Hb & H).
    apply rbind_Ok in H as (bs' & Hbs & H). injection H as <-.
    constructor; [exact Hb | apply IH, Hbs].
Qed.

Lemma well_typed_unfold (i : string) (t : NodeType) (cs : list (option ASTNode))
      (a : list (string * PyVal)) (sr : option SourceRange) (ol : option string) :
  well_typed (mkASTNode i t cs a sr ol)
  = forallb (fun child => match child with
                          | Some c => well_typed c
                          | None => false
                          end) cs.
Proof. reflexivity. Qed.

Lemma all_children_typed {A} (f : A -> result ASTNode) (l : list A)
      (cs : list ASTNode) :
  Forall2 (fun a c => f a = Ok c) l cs ->
  (forall a c, f a = Ok c -> well_typed c = true) ->
  forallb (fun child => match child with
                        | Some c => well_typed c
                        | None => false
                        end) (map Some cs) = true.
Proof.
  intros Hall Hf. induction Hall as [|a c l cs Hc _ IH]; cbn [map forallb];
    [reflexivity|].
  rewrite (Hf a c Hc). exact IH.
Qed.

Lemma from_dict_rec_well_typed (depth : nat) :
  forall data n, from_dict_rec depth data = Ok n -> well_typed n = true.
Proof.
  induction depth as [|depth IH]; intros data n H; cbn [from_dict_rec] in H;
    [discriminate|].
  repeat match type of H with
         | rbind _ _ = Ok _ =>
             let x := fresh "x" in
             let Hx := fresh "Hx" in
             apply rbind_Ok in H as (x & Hx & H)
         end.
  injection H as <-. rewrite well_typed_unfold.
  match goal with
  | Hr : results (map (from_dict_rec depth) _) = Ok ?cs |- _ =>
      apply results_Ok in Hr; eapply all_children_typed; [exact Hr | exact IH]
  end.
Qed.

(** X1. A tree all of whose children are nodes has a canonical form, and
    reading the form back gives the tree, ids included. *)
Theorem typed_tree_round_trip (n : ASTNode) (Hwt : well_typed n = true) :
  exists d, to_dict n = Ok d /\ from_dict d = Ok n.
Proof.
  apply to_dict_well_typed in Hwt as [d Hd].
  exists d. split; [exact Hd | apply round_trip_node, Hd].
Qed.

Lemma typed_tree_round_trip_witness :
  exists d, to_dict sample_tree = Ok d /\ from_dict d = Ok sample_tree.
Proof. apply (typed_tree_round_trip sample_tree). reflexivity. Defined.

(** X2. Whatever dict [from_dict] accepts, the tree it builds has only nodes
    as children; it can therefore be serialized again, and reading that
    form back gives the same tree. *)
Theorem from_dict_builds_typed_tree (data : PyVal) (n : ASTNode)
        (Hread : from_dict data = Ok n) :
  well_typed n = true /\
  exists d, to_dict n = Ok d /\ from_dict d = Ok n.
Proof.
  assert (Hwt : well_typed n = true)
    by (eapply from_dict_rec_well_typed; exact Hread).
  split; [exact Hwt|].
  apply to_dict_well_typed in Hwt as [d Hd].
  exists d. split; [exact Hd | apply round_trip_node, Hd].
Qed.

Lemma from_dict_builds_typed_tree_witness :
  well_typed (mkASTNode "n1" LITERAL
                [Some (mkASTNode "n2" COMMENT [] [] None None)] [] None None) = true /\
  exists d, to_dict (mkASTNode "n1" LITERAL
                       [Some (mkASTNode "n2" COMMENT [] [] None None)] [] None None)
            = Ok d /\
            from_dict d = Ok (mkASTNode "n1" LITERAL
                                [Some (mkASTNode "n2" COMMENT [] [] None None)]
                                [] None None).
Proof. apply (from_dict_builds_typed_tree bare_dict). reflexivity. Defined.

Lemma py_size_dict (d : list (string * PyVal)) :
  exists depth, py_size (PDict d) = S depth.
Proof. cbn [py_size]. eauto. Qed.

(** X3. [from_dict] needs the keys [id] and [type], and reads them in that
    order: on a dict without [id] it raises [KeyError('id')]; with an [id],
    whatever its value, but without [type] it raises [KeyError('type')];
    and on a [type] string that is the value of no member of [NodeType] it
    raises the [ValueError] of [Enum], whose message is the repr of that
    string followed by " is not a valid NodeType". *)
Theorem from_dict_required_keys (d : list (string * PyVal)) :
  (dict_get "id" d = None -> from_dict (PDict d) = Raise (KeyError "id")) /\
  (forall i, dict_get "id" d = Some i -> dict_get "type" d = None ->
             from_dict (PDict d) = Raise (KeyError "type")) /\
  (forall i v, dict_get "id" d = Some i ->
               dict_get "type" d = Some (PStr v) ->
               (forall t, NodeType_value t <> v) ->
               from_dict (PDict d)
               = Raise (ValueError (repr_str v +:+ " is not a valid NodeType"))).
Proof.
  unfold from_dict. destruct (py_size_dict d) as [depth ->].
  cbn [from_dict_rec subscript]. repeat split.
  - intros ->. reflexivity.
  - intros i -> ->. reflexivity.
  - intros i v -> -> Hv. cbn [rbind as_str]. unfold NodeType_of_value.
    destruct (find _ NodeType_members) as [t|] eqn:Hf; [|reflexivity].
    apply find_some in Hf as [_ Heq]. apply String.eqb_eq in Heq.
    exfalso. exact (Hv t Heq).
Qed.

Lemma from_dict_required_keys_witness :
  from_dict (PDict [("type", PStr "program")]) = Raise (KeyError "id") /\
  from_dict (PDict [("id", PInt 7)]) = Raise (KeyError "type") /\
  from_dict (PDict [("id", PInt 7); ("type", PStr "it's")])
  = Raise (ValueError (repr_str "it's" +:+ " is not a valid NodeType")) /\
  repr_str "it's" = String double_quote ("it's" +:+ String double_quote "").
Proof.
  split; [|split; [|split]].
  - apply (from_dict_required_keys [("type", PStr "program")]). reflexivity.
  - apply (proj1 (proj2 (from_dict_required_keys [("id", PInt 7)])) (PInt 7));
      reflexivity.
  - apply (proj2 (proj2 (from_dict_required_keys
                           [("id", PInt 7); ("type", PStr "it's")]))
             (PInt 7) "it's"); [reflexivity | reflexivity |].
    intros t; destruct t; discriminate.
  - reflexivity.
Defined.

(** X4. Every other key of the node dict is optional: when [children],
    [attributes], [source_range] and [original_language] are all missing,
    [from_dict] builds a node with no children, an empty attribute bag, no
    source range and no language tag; keys it does not know are ignored. *)
Theorem from_dict_optional_keys
        (d : list (string * PyVal)) (i : string) (t : NodeType)
        (Hid : dict_get "id" d = Some (PStr i))
        (Htype : dict_get "type" d = Some (PStr (NodeType_value t)))
        (Hchildren : dict_get "children" d = None)
        (Hattributes : dict_get "attributes" d = None)
        (Hrange : dict_get "source_range" d = None)
        (Hlanguage : dict_get "original_language" d = None) :
  from_dict (PDict d) = Ok (mkASTNode i t [] [] None None).
Proof.
  unfold from_dict. destruct (py_size_dict d) as [depth ->].
  cbn [from_dict_rec subscript get get_default]. unfold dict_get_default.
  rewrite Hid, Htype, Hchildren, Hattributes, Hrange, Hlanguage.
  cbn [rbind as_str]. rewrite NodeType_of_value_value. reflexivity.
Qed.

Lemma from_dict_optional_keys_witness :
  from_dict (PDict [("color", PStr "red"); ("type", PStr "comment"); ("id", PStr "c")])
  = Ok (mkASTNode "c" COMMENT [] [] None None).
Proof.
  apply (from_dict_optional_keys
           [("color", PStr "red"); ("type", PStr "comment"); ("id", PStr "c")]
           "c" COMMENT); reflexivity.
Defined.

Lemma dict_get_set_same (key : string) (value : PyVal) (d : list (string * PyVal)) :
  dict_get key (dict_set key value d) = Some value.
Proof.
  induction d as [|[k v] d IH]; cbn [dict_set dict_get].
  - rewrite String.eqb_refl. reflexivity.
  - destruct (String.eqb k key) eqn:Hk; cbn [dict_get]; rewrite Hk;
      [reflexivity | exact IH].
Qed.

Lemma dict_get_set_other (key key' : string) (value : PyVal)
      (d : list (string * PyVal)) :
  key' <> key -> dict_get key' (dict_set key value d) = dict_get key' d.
Proof.
  intros Hne. induction d as [|[k v] d IH]; cbn [dict_set dict_get].
  - destruct (String.eqb key key') eqn:Hk; [|reflexivity].
    apply String.eqb_eq in Hk. congruence.
  - destruct (String.eqb k key) eqn:Hk; cbn [dict_get].
    + apply String.eqb_eq in Hk. subst k.
      destruct (String.eqb key key') eqn:Hk'; [|reflexivity].
      apply String.eqb_eq in Hk'. congruence.
    + destruct (String.eqb k key'); [reflexivity | exact IH].
Qed.

Lemma dict_set_keys (key : string) (value : PyVal) (d : list (string * PyVal)) :
  map fst (dict_set key value d)
  = if existsb (fun k => String.eqb k key) (map fst d)
    then map fst d else (map fst d ++ [key])%list.
Proof.
  induction d as [|[k v] d IH]; cbn [dict_set map fst existsb app]; [reflexivity|].
  destruct (String.eqb k key) eqn:Hk; cbn [map fst orb]; [reflexivity|].
  rewrite IH. destruct (existsb _ (map fst d)); reflexivity.
Qed.

(** X5. The attribute bag is a map: after [set_attribute(key, value)],
    [get_attribute(key)] answers [value] and every other key answers as
    before; an existing key keeps its place in the bag and a new one goes
    last; the id, type, children, source range and language tag of the node
    are untouched. *)
Theorem set_attribute_then_get
        (self : ASTNode) (key : string) (value dflt : PyVal) :
  get_attribute (set_attribute self key value) key dflt = value /\
  (forall key', key' <> key ->
                get_attribute (set_attribute self key value) key' dflt
                = get_attribute self key' dflt) /\
  map fst (attributes (set_attribute self key value))
  = (if existsb (fun k => String.eqb k key) (map fst (attributes self))
     then map fst (attributes self)
     else (map fst (attributes self) ++ [key])%list) /\
  (id (set_attribute self key value), type (set_attribute self key value),
   children (set_attribute self key value),
   source_range (set_attribute self key value),
   original_language (set_attribute self key value))
  = (id self, type self, children self, source_range self, original_language self).
Proof.
  unfold get_attribute, dict_get_default. cbn [set_attribute attributes].
  split; [rewrite dict_get_set_same; reflexivity|].
  split; [intros key' Hne; rewrite dict_get_set_other by exact Hne; reflexivity|].
  split; [apply dict_set_keys | reflexivity].
Qed.

Lemma traverse_by_type_unfold (node_type : NodeType) (node : ASTNode) :
  traverse_by_type node_type node =
  (do below <~ results (map (fun child => match child with
                                          | Some c => traverse_by_type node_type c
                                          | None => Raise (no_attribute "type")
                                          end) (children node)) ;;
   Ok ((if has_type node_type node then [node] else []) ++ concat below)%list)%res.
Proof. destruct node; reflexivity. Qed.

Lemma filter_concat {A} (f : A -> bool) (ls : list (list A)) :
  List.filter f (concat ls) = concat (map (List.filter f) ls).
Proof.
  induction ls as [|l ls IH]; cbn [concat map]; [reflexivity|].
  rewrite List.filter_app, IH. reflexivity.
Qed.

(** X6. On a tree all of whose children are nodes, [get_nodes_by_type]
    returns exactly the nodes of the requested type, each once, in the
    pre-order in which a full traversal meets them. *)
Theorem get_nodes_by_type_filters_preorder
        (self : UniversalSyntaxTree) (node_type : NodeType)
        (Hwt : well_typed (root self) = true) :
  exists nodes,
    count_nodes (root self) = Ok nodes /\
    get_nodes_by_type self node_type = Ok (List.filter (has_type node_type) nodes).
Proof.
  unfold get_nodes_by_type. generalize dependent (root self). clear self.
  intros n. induction n as [i t cs a sr ol IH] using ASTNode_nested_ind.
  intros Hwt. rewrite count_nodes_unfold, traverse_by_type_unfold.
  rewrite well_typed_unfold in Hwt. cbn [children].
  assert (H : exists below,
             results (map child_count_nodes cs) = Ok below /\
             results (map (fun child => match child with
                                        | Some c => traverse_by_type node_type c
                                        | None => Raise (no_attribute "type")
                                        end) cs)
             = Ok (map (List.filter (has_type node_type)) below)).
  { induction cs as [|child cs IHcs]; cbn [map results forallb] in *.
    - exists []. split; reflexivity.
    - apply andb_prop in Hwt as [Hc Hcs].
      apply List.Forall_cons_iff in IH as [IHc IHrest].
      destruct (IHcs IHrest Hcs) as (below & Hbelow & Hsel).
      destruct child as [c|]; [|discriminate].
      cbn [on_child child_count_nodes] in *.
      destruct (IHc Hc) as (nodes & Hnodes & Hn).
      exists (nodes :: below). rewrite Hnodes, Hbelow, Hn, Hsel. cbn [rbind map].
      split; reflexivity. }
  destruct H as (below & Hbelow & Hsel).
  exists (mkASTNode i t cs a sr ol :: concat below).
  rewrite Hbelow, Hsel. cbn [rbind]. split; [reflexivity|].
  cbn [List.filter]. rewrite filter_concat.
  destruct (has_type node_type (mkASTNode i t cs a sr ol)); reflexivity.
Qed.

Lemma get_nodes_by_type_witness :
  exists nodes,
    count_nodes sample_tree = Ok nodes /\
    get_nodes_by_type (mkUST sample_tree [] "1.0") FOR_STATEMENT
    = Ok (List.filter (has_type FOR_STATEMENT) nodes).
Proof.
  apply (get_nodes_by_type_filters_preorder (mkUST sample_tree [] "1.0") FOR_STATEMENT).
  reflexivity.
Defined.

Lemma traverse_by_id_unfold (node_id : string) (node : ASTNode) :
  traverse_by_id node_id node =
  if has_id node_id node then Ok (Some node)
  else first_hit (traverse_by_id node_id) (children node).
Proof. destruct node; reflexivity. Qed.

Lemma find_app_none {A} (f : A -> bool) (l1 l2 : list A) :
  List.find f (l1 ++ l2)
  = match List.find f l1 with
    | Some x => Some x
    | None => List.find f l2
    end.
Proof.
  induction l1 as [|x l1 IH]; cbn [app List.find]; [reflexivity|].
  destruct (f x); [reflexivity | exact IH].
Qed.

(** X7. On a tree all of whose children are nodes, [find_node_by_id]
    returns the first node, in pre-order, whose id is the one asked for, and
    [None] when no node of the tree has that id. *)
Theorem find_node_by_id_first_in_preorder
        (self : UniversalSyntaxTree) (node_id : string)
        (Hwt : well_typed (root self) = true) :
  exists nodes,
    count_nodes (root self) = Ok nodes /\
    find_node_by_id self node_id = Ok (List.find (has_id node_id) nodes).
Proof.
  unfold find_node_by_id. generalize dependent (root self). clear self.
  intros n. induction n as [i t cs a sr ol IH] using ASTNode_nested_ind.
  intros Hwt. rewrite count_nodes_unfold, traverse_by_id_unfold.
  rewrite well_typed_unfold in Hwt. cbn [children].
  assert (H : exists below,
             results (map child_count_nodes cs) = Ok below /\
             first_hit (traverse_by_id node_id) cs
             = Ok (List.find (has_id node_id) (concat below))).
  { induction cs as [|child cs IHcs]; cbn [map results forallb first_hit] in *.
    - exists []. split; reflexivity.
    - apply andb_prop in Hwt as [Hc Hcs].
      apply List.Forall_cons_iff in IH as [IHc IHrest].
      destruct (IHcs IHrest Hcs) as (below & Hbelow & Hfirst).
      destruct child as [c|]; [|discriminate].
      cbn [on_child child_count_nodes] in *.
      destruct (IHc Hc) as (nodes & Hnodes & Hn).
      exists (nodes :: below). rewrite Hnodes, Hbelow, Hn. cbn [rbind concat].
      split; [reflexivity|]. rewrite find_app_none.
      destruct (List.find (has_id node_id) nodes); [reflexivity | exact Hfirst]. }
  destruct H as (below & Hbelow & Hfirst).
  exists (mkASTNode i t cs a sr ol :: concat below).
  rewrite Hbelow. cbn [rbind List.find]. split; [reflexivity|].
  destruct (has_id node_id (mkASTNode i t cs a sr ol)); [reflexivity | exact Hfirst].
Qed.

Lemma find_node_by_id_witness :
  exists nodes,
    count_nodes sample_tree = Ok nodes /\
    find_node_by_id (mkUST sample_tree [] "1.0") "c"
    = Ok (List.find (has_id "c") nodes).
Proof.
  apply (find_node_by_id_first_in_preorder (mkUST sample_tree [] "1.0") "c").
  reflexivity.
Defined.

Lemma height_unfold (node : ASTNode) :
  height node = match children node with
                | [] => 0%Z
                | cs => (1 + children_height cs)%Z
                end.
Proof. destruct node as [i t [|c cs] a sr ol]; reflexivity. Qed.

Lemma calculate_ast_depth_unfold (node : ASTNode) (current_depth : Z) :
  _calculate_ast_depth node current_depth =
  match children node with
  | [] => Ok current_depth
  | cs => deepest (fun c => _calculate_ast_depth c (current_depth + 1)%Z) cs 0%Z
  end.
Proof. destruct node as [i t [|c cs] a sr ol]; reflexivity. Qed.

Lemma children_height_nonneg (cs : list (option ASTNode)) :
  (0 <= children_height cs)%Z.
Proof.
  induction cs as [|child cs IH]; [cbn; lia|].
  destruct child as [c|].
  - change (children_height (Some c :: cs))
      with (Z.max (height c) (children_height cs)). lia.
  - exact IH.
Qed.

Lemma height_nonneg (node : ASTNode) : (0 <= height node)%Z.
Proof.
  rewrite height_unfold. destruct (children node) as [|c cs]; [lia|].
  pose proof (children_height_nonneg (c :: cs)). lia.
Qed.

Lemma deepest_typed (f : ASTNode -> result Z) (d : Z) (cs : list (option ASTNode)) :
  Forall (on_child (fun c => f c = Ok (d + 1 + height c)%Z)) cs ->
  forallb (fun child => match child with Some _ => true | None => false end) cs = true ->
  forall m,
    deepest f cs m
    = Ok (match cs with
          | [] => m
          | _ => Z.max m (d + 1 + children_height cs)
          end).
Proof.
  induction 1 as [|child cs Hc _ IH]; intros Hall m; cbn [deepest]; [reflexivity|].
  cbn [forallb] in Hall. apply andb_prop in Hall as [Hsome Hall].
  destruct child as [c|]; [|discriminate]. cbn [on_child] in Hc.
  rewrite Hc. cbn [rbind]. rewrite (IH Hall). f_equal.
  change (children_height (Some c :: cs))
    with (Z.max (height c) (children_height cs)).
  pose proof (height_nonneg c). pose proof (children_height_nonneg cs).
  destruct cs as [|c' cs'].
  - change (children_height []) with 0%Z. lia.
  - lia.
Qed.

(** X8. On a tree all of whose children are nodes and from a non-negative
    starting depth, [_calculate_ast_depth] returns the starting depth plus
    the height of the tree, the number of edges on its longest path from
    the root to a leaf; from depth 0 it is the height itself, 0 for a
    single node. *)
Theorem calculate_ast_depth_is_height
        (node : ASTNode) (current_depth : Z)
        (Hwt : well_typed node = true) (Hd : (0 <= current_depth)%Z) :
  _calculate_ast_depth node current_depth = Ok (current_depth + height node)%Z.
Proof.
  revert current_depth Hd Hwt.
  induction node as [i t cs a sr ol IH] using ASTNode_nested_ind.
  intros d Hd Hwt. rewrite calculate_ast_depth_unfold, height_unfold.
  rewrite well_typed_unfold in Hwt. cbn [children].
  destruct cs as [|child cs]; [f_equal; lia|].
  rewrite (deepest_typed _ d).
  - f_equal. pose proof (children_height_nonneg (child :: cs)). lia.
  - apply List.Forall_forall. intros x Hin.
    rewrite List.Forall_forall in IH. specialize (IH x Hin).
    rewrite List.forallb_forall in Hwt. specialize (Hwt x Hin).
    destruct x as [c|]; cbn [on_child] in *; [|trivial].
    rewrite IH; [f_equal; lia | lia | exact Hwt].
  - apply List.forallb_forall. intros x Hin.
    rewrite List.forallb_forall in Hwt. specialize (Hwt x Hin).
    destruct x; [reflexivity | discriminate].
Qed.

Lemma calculate_ast_depth_witness :
  _calculate_ast_depth lopsided_tree 0 = Ok 3%Z.
Proof.
  rewrite (calculate_ast_depth_is_height lopsided_tree 0 eq_refl); [reflexivity|lia].
Defined.

Lemma NodeType_value_eqb (a b : NodeType) :
  String.eqb (NodeType_value a) (NodeType_value b) = NodeType_eqb a b.
Proof. destruct a, b; reflexivity. Qed.

Lemma counts_get_set (key key' : string) (value : Z) (counts : list (string * Z)) :
  counts_get key' (counts_set key value counts)
  = if String.eqb key key' then value else counts_get key' counts.
Proof.
  induction counts as [|[k v] counts IH]; cbn [counts_set counts_get].
  - reflexivity.
  - destruct (String.eqb k key) eqn:Hk; cbn [counts_get].
    + apply String.eqb_eq in Hk. subst k. destruct (String.eqb key key'); reflexivity.
    + rewrite IH. destruct (String.eqb k key') eqn:Hk'; [|reflexivity].
      apply String.eqb_eq in Hk'. subst k. rewrite String.eqb_sym, Hk. reflexivity.
Qed.

Lemma counts_total_set (key : string) (value : Z) (counts : list (string * Z)) :
  counts_total (counts_set key value counts)
  = (counts_total counts - counts_get key counts + value)%Z.
Proof.
  induction counts as [|[k v] counts IH]; cbn [counts_set counts_get].
  - cbn. lia.
  - destruct (String.eqb k key) eqn:Hk.
    + change (counts_total ((k, value) :: counts)) with (value + counts_total counts)%Z.
      change (counts_total ((k, v) :: counts)) with (v + counts_total counts)%Z. lia.
    + change (counts_total ((k, v) :: counts_set key value counts))
        with (v + counts_total (counts_set key value counts))%Z.
      change (counts_total ((k, v) :: counts)) with (v + counts_total counts)%Z.
      rewrite IH. lia.
Qed.

Lemma node_counts_from (nodes : list ASTNode) :
  forall counts,
    counts_total (fold_left count_type nodes counts)
    = (counts_total counts + Z.of_nat (length nodes))%Z /\
    forall t, counts_get (NodeType_value t) (fold_left count_type nodes counts)
              = (counts_get (NodeType_value t) counts
                 + Z.of_nat (length (List.filter (has_type t) nodes)))%Z.
Proof.
  induction nodes as [|n nodes IH]; intros counts; cbn [fold_left].
  - cbn [length List.filter]. split; [|intros t]; lia.
  - destruct (IH (count_type counts n)) as [Htotal Hget]. split.
    + rewrite Htotal. unfold count_type. rewrite counts_total_set.
      cbn [length]. lia.
    + intros t. rewrite Hget. unfold count_type. rewrite counts_get_set.
      rewrite NodeType_value_eqb. cbn [List.filter]. unfold has_type at 2.
      destruct (NodeType_eqb (type n) t) eqn:Ht; cbn [length]; [|lia].
      assert (type n = t) as -> by (destruct (type n), t; (reflexivity || discriminate)).
      lia.
Qed.

(** X9. The node-type histogram of [_analyze_ust] is consistent with the
    node list it is computed from: its counts add up to the number of nodes,
    and the count stored under the value of a type is the number of nodes of
    that type (0 for a type the dict has no key for). *)
Theorem node_counts_consistent (all_nodes : list ASTNode) :
  counts_total (node_counts all_nodes) = Z.of_nat (length all_nodes) /\
  forall t, counts_get (NodeType_value t) (node_counts all_nodes)
            = Z.of_nat (length (List.filter (has_type t) all_nodes)).
Proof.
  unfold node_counts. destruct (node_counts_from all_nodes []) as [Htotal Hget].
  split; [rewrite Htotal; cbn; lia|].
  intros t. rewrite Hget. cbn. lia.
Qed.

(** * Further properties of the registry and of dispatch *)

Lemma extensions_lookup_in (lang : string) (exts : list string) :
  forall (m : gmap string string) (k : string),
    In k exts ->
    fold_left (fun m ext => <[ext := lang]> m) exts m !! k = Some lang.
Proof.
  induction exts as [|ext exts IH]; intros m k Hin; [destruct Hin|].
  cbn [fold_left]. destruct (List.in_dec string_dec k exts) as [Hk|Hk].
  - apply IH, Hk.
  - destruct Hin as [->|Hin]; [|contradiction].
    clear IH. revert m. induction exts as [|e exts IH]; intros m; cbn [fold_left].
    + apply lookup_insert_eq.
    + assert (Hne : e <> k) by (intros ->; apply Hk; left; reflexivity).
      assert (Hk' : ~ In k exts) by (intros H; apply Hk; right; exact H).
      rewrite insert_insert_ne by (intros ->; contradiction).
      apply IH, Hk'.
Qed.

Lemma extensions_lookup_out (lang : string) (exts : list string) :
  forall (m : gmap string string) (k : string),
    ~ In k exts ->
    fold_left (fun m ext => <[ext := lang]> m) exts m !! k = m !! k.
Proof.
  induction exts as [|ext exts IH]; intros m k Hout; cbn [fold_left]; [reflexivity|].
  rewrite IH by (intros H; apply Hout; right; exact H).
  apply lookup_insert_ne. intros ->. apply Hout. left. reflexivity.
Qed.

(** X10. Registration is an insert into both dicts. After
    [register_parser(parser)], [get_parser(parser.language)] returns that
    parser and every other language resolves as before; each of its
    extensions that is written in lower case resolves to it through
    [get_parser_by_extension], provided its language name is not empty; and
    an extension that is not among its own resolves in the extension map as
    before. *)
Theorem register_then_lookup (reg : ParserRegistry) (parser : BaseParser) :
  get_parser (register_parser reg parser) (language parser) = Some parser /\
  (forall lang, lang <> language parser ->
                get_parser (register_parser reg parser) lang = get_parser reg lang) /\
  (forall ext, In ext (supported_extensions parser) -> lower ext = ext ->
               language parser <> "" ->
               get_parser_by_extension (register_parser reg parser) ext
               = Some parser) /\
  (forall ext, ~ In ext (supported_extensions parser) ->
               _extension_map (register_parser reg parser) !! ext
               = _extension_map reg !! ext).
Proof.
  unfold get_parser, get_parser_by_extension.
  cbn [register_parser _parsers _extension_map].
  split; [apply lookup_insert_eq|].
  split; [intros lang Hne; apply lookup_insert_ne; congruence|].
  split.
  - intros ext Hin -> Hlang. rewrite extensions_lookup_in by exact Hin.
    apply String.eqb_neq in Hlang. rewrite Hlang. apply lookup_insert_eq.
  - intros ext Hout. apply extensions_lookup_out, Hout.
Qed.

Lemma lower_char_idempotent (c : ascii) : lower_char (lower_char c) = lower_char c.
Proof. destruct c as [[] [] [] [] [] [] [] []]; reflexivity. Qed.

Lemma lower_idempotent (s : string) : lower (lower s) = lower s.
Proof.
  unfold lower. rewrite list_ascii_of_string_of_list_ascii, map_map.
  f_equal. apply map_ext. intros c. apply lower_char_idempotent.
Qed.

(** X11. Lookups ignore letter case. [get_parser_by_extension] and
    [can_parse] answer for an extension as for its lower-cased form, and
    [detect_language] answers for a source text as for its lower-cased
    form. Registration stores an extension as written, so an extension
    registered with an upper-case letter is a key no lookup ever asks for. *)
Theorem lookups_ignore_case
        (reg : ParserRegistry) (parser : BaseParser)
        (ext source_code : string) (file_path : option string) :
  get_parser_by_extension reg (lower ext) = get_parser_by_extension reg ext /\
  can_parse parser (lower ext) = can_parse parser ext /\
  detect_language reg (lower source_code) file_path
  = detect_language reg source_code file_path /\
  (forall registered, lower registered <> registered -> lower ext <> registered).
Proof.
  unfold get_parser_by_extension, can_parse, detect_language.
  rewrite !lower_idempotent. repeat split.
  intros registered Hup Heq. apply Hup. rewrite <- Heq. apply lower_idempotent.
Qed.

(** X12. Dispatch by extension agrees with detection. In a registry that
    satisfies the invariant, when the extension of a given file path is,
    lower-cased, a key of the extension map bound to a non-empty language
    name, [detect_language] returns that name whatever the source text is,
    and [parse_code] without a language does what [parse_code] with that
    name does. *)
Theorem extension_dispatch_agrees_with_detection
        (reg : ParserRegistry) (source_code f lang : string) (w : World)
        (Hinv : registry_inv reg)
        (Hpath : given (Some f) = Some f)
        (Hext : _extension_map reg !! lower (splitext_ext f) = Some lang)
        (Hlang : lang <> "") :
  detect_language reg source_code (Some f) = Some lang /\
  parse_code reg source_code None (Some f) w
  = parse_code reg source_code (Some lang) (Some f) w.
Proof.
  unfold detect_language, parse_code, get_parser_by_extension, get_parser.
  rewrite Hpath, Hext. split; [reflexivity|].
  destruct (Hinv _ _ Hext) as [p Hp].
  cbn [given]. apply String.eqb_neq in Hlang. rewrite Hlang, Hp. reflexivity.
Qed.

Lemma extension_dispatch_witness :
  detect_language (app_registry no_native) "x = 1" (Some "src/App.JSX")
  = Some "javascript" /\
  parse_code (app_registry no_native) "x = 1" None (Some "src/App.JSX") world0
  = parse_code (app_registry no_native) "x = 1" (Some "javascript")
               (Some "src/App.JSX") world0.
Proof.
  apply (extension_dispatch_agrees_with_detection
           (app_registry no_native) "x = 1" "src/App.JSX" "javascript" world0);
    [ | reflexivity | reflexivity | discriminate].
  apply registry_inv_register, registry_inv_register, registry_inv_empty.
Defined.

Lemma app_extension_map (ast_parse : string -> string -> NativeResult) (k : string) :
  _extension_map (app_registry ast_parse) !! k
  = if existsb (String.eqb k) JavaScriptParser.supported_extensions
    then Some "javascript"
    else if existsb (String.eqb k) PythonParser.supported_extensions
         then Some "python" else None.
Proof.
  unfold app_registry, register_parser, empty_registry.
  cbn [_extension_map supported_extensions language python_parser javascript_parser
       JavaScriptParser.supported_extensions PythonParser.supported_extensions
       JavaScriptParser.language PythonParser.language fold_left existsb].
  repeat match goal with
         | |- context [<[?e := _]> _ !! k] =>
             destruct (decide (e = k)) as [<-|Hne];
             [rewrite lookup_insert_eq; reflexivity
             | rewrite lookup_insert_ne by exact Hne;
               assert (String.eqb k e = false)
                 by (apply String.eqb_neq; congruence); clear Hne]
         end.
  rewrite lookup_empty.
  repeat match goal with H : String.eqb k _ = false |- _ => rewrite H; clear H end.
  reflexivity.
Qed.

(** X13. In the registry src/routes/ast_api.py builds, resolution by
    extension agrees with [can_parse]: a file whose extension the JavaScript
    parser can parse is parsed by [JavaScriptParser.parse] when no language is
    given, one the Python adapter can parse by [PythonParser.parse], and for
    one neither can parse [parse_code] raises. *)
Theorem app_dispatch_follows_can_parse
        (ast_parse : string -> string -> NativeResult)
        (source_code f : string) (w : World)
        (Hpath : given (Some f) = Some f) :
  parse_code (app_registry ast_parse) source_code None (Some f) w
  = if can_parse javascript_parser (splitext_ext f)
    then JavaScriptParser.parse source_code (Some f) w
    else if can_parse (python_parser ast_parse) (splitext_ext f)
         then PythonParser.parse ast_parse source_code (Some f) w
         else Raise (no_parser_found None (Some f)).
Proof.
  unfold parse_code, get_parser_by_extension, can_parse.
  rewrite Hpath. cbn [given]. rewrite app_extension_map.
  cbn [supported_extensions javascript_parser python_parser].
  destruct (existsb _ JavaScriptParser.supported_extensions); [reflexivity|].
  destruct (existsb _ PythonParser.supported_extensions); reflexivity.
Qed.

Lemma app_dispatch_witness :
  parse_code (app_registry no_native) "const x = 5;" None (Some "lib/util.MJS") world0
  = JavaScriptParser.parse "const x = 5;" (Some "lib/util.MJS") world0.
Proof.
  rewrite (app_dispatch_follows_can_parse no_native "const x = 5;" "lib/util.MJS"
             world0 eq_refl).
  reflexivity.
Defined.

(** * Further properties of the tokenizer *)

Lemma rmatch_alphabet (r : regex) (s : list ascii) :
  forall k i e,
    rmatch r s k i = Some e ->
    exists j, i <= j /\ k j = Some e /\
              forall p, i <= p < j ->
                        exists c, s !! p = Some c /\ alphabet r c = true.
Proof.
  induction r as [| c | q | | a IHa b IHb | a IHa b IHb | a IHa | a IHa];
    intros k i e H; cbn [rmatch] in H.
  - exists i. repeat split; [lia | exact H | intros p Hp; lia].
  - destruct (s !! i) as [c'|] eqn:Hc; [|discriminate].
    destruct (Ascii.eqb c c') eqn:Heq; [|discriminate].
    exists (S i). repeat split; [lia | exact H |].
    intros p Hp. assert (p = i) as -> by lia. exists c'. split; assumption.
  - destruct (s !! i) as [c'|] eqn:Hc; [|discriminate].
    destruct (q c') eqn:Heq; [|discriminate].
    exists (S i). repeat split; [lia | exact H |].
    intros p Hp. assert (p = i) as -> by lia. exists c'. split; assumption.
  - destruct (at_boundary s i); [|discriminate].
    exists i. repeat split; [lia | exact H | intros p Hp; lia].
  - apply IHa in H as (j1 & Hj1 & H & Ha).
    apply IHb in H as (j2 & Hj2 & H & Hb).
    exists j2. repeat split; [lia | exact H |].
    intros p Hp. cbn [alphabet]. destruct (Nat.lt_ge_cases p j1) as [Hlt|Hge].
    + destruct (Ha p) as (c & Hc & Hal); [lia|]. exists c. rewrite Hal. auto.
    + destruct (Hb p) as (c & Hc & Hal); [lia|]. exists c. rewrite Hal.
      rewrite orb_true_r. auto.
  - destruct (rmatch a s k i) eqn:Hm.
    + injection H as ->. apply IHa in Hm as (j & Hj & Hk & Ha).
      exists j. repeat split; [exact Hj | exact Hk |].
      intros p Hp. destruct (Ha p Hp) as (c & Hc & Hal).
      exists c. cbn [alphabet]. rewrite Hal. auto.
    + apply IHb in H as (j & Hj & Hk & Hb).
      exists j. repeat split; [exact Hj | exact Hk |].
      intros p Hp. destruct (Hb p Hp) as (c & Hc & Hal).
      exists c. cbn [alphabet]. rewrite Hal, orb_true_r. auto.
  - revert i H. generalize (length s) as n.
    induction n as [|n IHn]; intros i H.
    + exists i. repeat split; [lia | exact H | intros p Hp; lia].
    + match type of H with
      | match ?m with _ => _ end = _ => destruct m eqn:Hm
      end.
      * injection H as ->. apply IHa in Hm as (j & Hj & Hm & Ha).
        destruct (i <? j) eqn:Hij; [|discriminate].
        apply IHn in Hm as (j' & Hj' & Hk & Hrest).
        exists j'. repeat split; [lia | exact Hk |].
        intros p Hp. cbn [alphabet]. destruct (Nat.lt_ge_cases p j) as [Hlt|Hge].
        -- apply Ha. lia.
        -- apply Hrest. lia.
      * exists i. repeat split; [lia | exact H | intros p Hp; lia].
  - revert i H. generalize (length s) as n.
    induction n as [|n IHn]; intros i H.
    + destruct (k i) eqn:Hk; [|discriminate].
      exists i. repeat split; [lia | congruence | intros p Hp; lia].
    + destruct (k i) eqn:Hk.
      * exists i. repeat split; [lia | congruence | intros p Hp; lia].
      * apply IHa in H as (j & Hj & Hm & Ha).
        destruct (i <? j) eqn:Hij; [|discriminate].
        apply IHn in Hm as (j' & Hj' & Hk' & Hrest).
        exists j'. repeat split; [lia | exact Hk' |].
        intros p Hp. cbn [alphabet]. destruct (Nat.lt_ge_cases p j) as [Hlt|Hge].
        -- apply Ha. lia.
        -- apply Hrest. lia.
Qed.

Lemma re_match_chars (r : regex) (s : list ascii) (pos e : nat) :
  re_match r s pos = Some e ->
  pos <= e /\
  forall p, pos <= p < e -> exists c, s !! p = Some c /\ alphabet r c = true.
Proof.
  unfold re_match. intros H.
  apply rmatch_alphabet in H as (j & Hj & Hk & Hc). injection Hk as ->. auto.
Qed.

Lemma first_match_bounds (line : list ascii) (column : nat)
      (token_type : string) (e : nat) :
  first_match token_patterns line column = Some (token_type, e) ->
  column < e <= length line.
Proof.
  intros H.
  pose proof (first_match_advances token_patterns line column token_type e
                eq_refl H) as Hlt.
  split; [exact Hlt|].
  assert (Hgen : forall patterns,
             first_match patterns line column = Some (token_type, e) ->
             exists r, re_match r line column = Some e).
  { induction patterns as [|[ty r] rest IH]; cbn [first_match]; [discriminate|].
    destruct (re_match r line column) as [e'|] eqn:Hm; [|exact IH].
    intros [= _ <-]. eauto. }
  destruct (Hgen _ H) as (r & Hr). apply re_match_chars in Hr as [_ Hc].
  destruct (Hc (e - 1)) as (c & Hlook & _); [lia|].
  apply lookup_lt_Some in Hlook. lia.
Qed.

Lemma string_of_list_ascii_length (l : list ascii) :
  String.length (string_of_list_ascii l) = length l.
Proof. induction l as [|c l IH]; cbn; [reflexivity | rewrite IH; reflexivity]. Qed.

Lemma slice_length (line : list ascii) (a b : nat) :
  a <= b <= length line -> str_len (slice line a b) = b - a.
Proof.
  intros H. unfold str_len, slice.
  rewrite string_of_list_ascii_length, length_take, length_drop. lia.
Qed.

Lemma star_always_matches (a : regex) (s : list ascii) (i : nat) :
  rmatch (Star a) s Some i <> None.
Proof.
  cbn [rmatch]. destruct (length s) as [|n]; [discriminate|].
  match goal with |- match ?m with _ => _ end <> _ => destruct m end; discriminate.
Qed.

(** A line feed is white space: where the NEWLINE rule would match, the
    WHITESPACE rule listed before it matches too. *)
Lemma newline_needs_whitespace (line : list ascii) (column e : nat) :
  re_match (Chr "010") line column = Some e ->
  re_match (Plus (Cls is_space)) line column <> None.
Proof.
  unfold re_match, Plus. cbn [rmatch].
  destruct (line !! column) as [c|]; [|discriminate].
  destruct (Ascii.eqb "010" c) eqn:Hc; [|discriminate].
  apply Ascii.eqb_eq in Hc. subst c. intros _.
  change (is_space "010") with true. cbv iota.
  apply (star_always_matches (Cls is_space)).
Qed.

Lemma newline_rule_unreachable (line : list ascii) (column : nat)
      (token_type : string) (e : nat) :
  first_match token_patterns line column = Some (token_type, e) ->
  token_type <> "NEWLINE".
Proof.
  cbn [first_match token_patterns].
  repeat match goal with
         | |- context [match re_match ?r line column with _ => _ end] =>
             let H := fresh "H" in
             destruct (re_match r line column) eqn:H;
             try (intros [= <- _]; discriminate)
         end.
  match goal with
  | H : re_match (Chr _) line column = Some _ |- _ =>
      apply newline_needs_whitespace in H; contradiction
  end.
Qed.

Lemma scan_line_emitted (line_num : Z) (line : list ascii) :
  forall fuel column toks,
    column <= length line ->
    scan_line fuel line_num line column = Some toks ->
    emitted_from line_num line column toks.
Proof.
  induction fuel as [|fuel IH]; intros column toks Hcol H; cbn [scan_line] in H.
  - destruct (column <? length line); [discriminate|]. injection H as <-. exact I.
  - destruct (column <? length line) eqn:Hlt; [|injection H as <-; exact I].
    apply Nat.ltb_lt in Hlt. unfold scan_step in H.
    destruct (first_match token_patterns line column) as [[ty e]|] eqn:Hm.
    + pose proof (first_match_bounds _ _ _ _ Hm) as Hb.
      destruct (scan_line fuel line_num line e) as [rest|] eqn:Hrest;
        [|destruct (discarded ty); discriminate].
      apply IH in Hrest; [|lia].
      destruct (discarded ty) eqn:Hd; cbn in H; injection H as <-.
      * clear Hm. revert Hrest. generalize rest. clear - Hb.
        intros l. destruct l as [|t ts]; cbn [emitted_from]; [trivial|].
        intros (e' & H1 & H2 & H3). exists e'. split; [lia|]. exact (conj H2 H3).
      * cbn [emitted_from tok_column tok_type]. exists e.
        repeat split; try assumption; lia.
    + destruct (scan_line fuel line_num line (column + 1)) as [rest|] eqn:Hrest;
        [|discriminate].
      apply IH in Hrest; [|lia]. cbn in H. injection H as <-.
      destruct rest as [|t ts]; cbn [emitted_from] in *; [trivial|].
      destruct Hrest as (e' & H1 & H2 & H3). exists e'. split; [lia|].
      exact (conj H2 H3).
Qed.

Lemma emitted_located (line_num : Z) (line : list ascii) :
  forall toks column,
    emitted_from line_num line column toks ->
    Forall (located line_num line) toks /\ ordered_from column toks.
Proof.
  induction toks as [|t ts IH]; intros column H; cbn [emitted_from] in H.
  - split; [constructor | exact I].
  - destruct H as (e & Hcol & Hlt & Hm & Hd & Ht & Hrest).
    pose proof (first_match_bounds _ _ _ _ Hm) as Hb.
    assert (Hlen : str_len (tok_value t) = e - tok_column t).
    { rewrite Ht at 1. cbn [tok_value]. apply slice_length. lia. }
    destruct (IH _ Hrest) as [Hall Hord].
    split; [constructor; [|exact Hall]|].
    + unfold located. rewrite Hlen.
      replace (tok_column t + (e - tok_column t)) with e by lia.
      split; [rewrite Ht; reflexivity|].
      split; [intros Hempty; rewrite Hempty in Hlen; cbn in Hlen; lia|].
      split; [lia|].
      split; [rewrite Ht at 1; reflexivity|].
      intros Hin. cbn [In] in Hin.
      destruct Hin as [H|[H|[H|[H|[]]]]]; try (rewrite <- H in Hd; discriminate).
      symmetry in H. exact (newline_rule_unreachable _ _ _ _ Hm H).
    + cbn [ordered_from]. split; [exact Hcol|].
      rewrite Hlen. replace (tok_column t + (e - tok_column t)) with e by lia.
      exact Hord.
Qed.

Lemma scan_lines_line_by_line (lines : list (list ascii)) :
  forall line_num toks,
    scan_lines line_num lines = Some toks ->
    exists per_line,
      toks = concat per_line /\ line_by_line line_num lines per_line.
Proof.
  induction lines as [|line rest IH]; intros line_num toks H; cbn [scan_lines] in H.
  - injection H as <-. exists []. split; [reflexivity | exact I].
  - destruct (scan_line (length line) line_num line 0) as [a|] eqn:Ha; [|discriminate].
    destruct (scan_lines (line_num + 1)%Z rest) as [b|] eqn:Hb; [|discriminate].
    injection H as <-. destruct (IH _ _ Hb) as (per_line & -> & Hrest).
    apply scan_line_emitted in Ha; [|lia].
    destruct (emitted_located _ _ _ _ Ha) as [Hloc Hord].
    exists (a :: per_line). split; [reflexivity|].
    cbn [line_by_line]. auto.
Qed.

(** X14. The tokens of any source text sit where they say and come in
    order. The token list is the concatenation, line by line, of the tokens
    of each line of [source.split('\n')]; a token of line number n has a
    non-empty text that is the text of line n from the token's column on;
    the tokens of a line come in increasing column order without
    overlapping; and no token is of type WHITESPACE, COMMENT_SINGLE,
    COMMENT_MULTI or NEWLINE. *)
Theorem tokens_located_in_order (source_code : string) :
  exists per_line,
    _tokenize source_code = concat per_line /\
    line_by_line 1 (split_lines [] (list_ascii_of_string source_code)) per_line.
Proof.
  pose proof (tokenize_run_total source_code) as H. unfold tokenize_run in H.
  apply scan_lines_line_by_line in H as (per_line & Heq & Hlines).
  exists per_line. split; assumption.
Qed.

(** * Further properties of the statement parser *)

Lemma first_match_number (line : list ascii) (column e : nat) :
  first_match token_patterns line column = Some ("NUMBER", e) ->
  re_match (Cat (Plus (Cls is_digit)) (Cat (Opt (Chr ".")) (Star (Cls is_digit))))
           line column = Some e.
Proof.
  cbn [first_match token_patterns].
  repeat match goal with
         | |- context [match re_match ?r line column with _ => _ end] =>
             let H := fresh "H" in
             destruct (re_match r line column) eqn:H;
             try (intros [= ? ?]; discriminate)
         end.
  intros [= <-]. reflexivity.
Qed.

Lemma slice_chars (line : list ascii) (a b : nat) (P : ascii -> bool) :
  (forall p, a <= p < b -> exists c, line !! p = Some c /\ P c = true) ->
  forallb P (list_ascii_of_string (slice line a b)) = true.
Proof.
  intros H. unfold slice. rewrite list_ascii_of_string_of_list_ascii.
  apply List.forallb_forall. intros c Hin.
  apply list_elem_of_In, list_elem_of_lookup in Hin as [i Hi].
  pose proof (lookup_lt_Some _ _ _ Hi) as Hlt. rewrite length_take in Hlt.
  rewrite lookup_take_lt in Hi by lia. rewrite lookup_drop in Hi.
  destruct (H (a + i)) as (c' & Hc' & HP); [lia|]. congruence.
Qed.

Lemma emitted_digit_run (line_num : Z) (line : list ascii) :
  forall toks column,
    emitted_from line_num line column toks -> Forall digit_run toks.
Proof.
  induction toks as [|t ts IH]; intros column H; cbn [emitted_from] in H;
    [constructor|].
  destruct H as (e & Hcol & Hlt & Hm & Hd & Ht & Hrest).
  constructor; [|exact (IH _ Hrest)].
  intros Hty Hdot. rewrite Hty in Hm.
  pose proof (first_match_bounds _ _ _ _ Hm) as Hb.
  apply first_match_number, re_match_chars in Hm as [_ Hc].
  assert (Hv : tok_value t = slice line (tok_column t) e)
    by (rewrite Ht; reflexivity).
  rewrite Hv in Hdot |- *.
  split.
  - unfold has_dot in Hdot.
    assert (Hall : forallb (fun c => is_digit c || Ascii.eqb "." c)
                     (list_ascii_of_string (slice line (tok_column t) e)) = true).
    { apply slice_chars. intros p Hp. destruct (Hc p Hp) as (c & Hl & Ha).
      exists c. split; [exact Hl|]. unfold Plus, Opt in Ha. cbn [alphabet] in Ha.
      destruct (is_digit c); [reflexivity|].
      destruct (Ascii.eqb "." c); [reflexivity|].
      cbn [orb] in Ha. discriminate. }
    rewrite List.forallb_forall in Hall. apply List.forallb_forall.
    intros c Hin. specialize (Hall c Hin).
    destruct (is_digit c); [reflexivity|]. cbn [orb] in Hall.
    assert (Hex : existsb (Ascii.eqb ".") (list_ascii_of_string
                                             (slice line (tok_column t) e)) = true)
      by (apply List.existsb_exists; eauto).
    congruence.
  - intros Hempty.
    pose proof (slice_length line (tok_column t) e ltac:(lia)) as Hlen.
    rewrite Hempty in Hlen. cbn in Hlen. lia.
Qed.

Lemma tokenize_digit_run (source_code : string) :
  Forall digit_run (_tokenize source_code).
Proof.
  pose proof (tokenize_run_total source_code) as H. unfold tokenize_run in H.
  revert H. generalize (_tokenize source_code) as toks.
  generalize 1%Z as line_num.
  generalize (split_lines [] (list_ascii_of_string source_code)) as lines.
  induction lines as [|line rest IH]; intros line_num toks H; cbn [scan_lines] in H.
  - injection H as <-. constructor.
  - destruct (scan_line (length line) line_num line 0) as [a|] eqn:Ha; [|discriminate].
    destruct (scan_lines (line_num + 1)%Z rest) as [b|] eqn:Hb; [|discriminate].
    injection H as <-. apply List.Forall_app. split; [|exact (IH _ _ Hb)].
    apply scan_line_emitted in Ha; [|lia].
    exact (emitted_digit_run _ _ _ _ Ha).
Qed.

Lemma length_list_ascii_of_string (s : string) :
  length (list_ascii_of_string s) = String.length s.
Proof. induction s as [|c s IH]; cbn; [reflexivity | rewrite IH; reflexivity]. Qed.

(** [int] on a digit run: the value within the limit, the error beyond. *)
Lemma int_digit_run (s : string) :
  forallb is_digit (list_ascii_of_string s) = true -> s <> "" ->
  if (Z.of_nat (str_len s) <=? int_max_str_digits)%Z
  then exists z, int_ s = Ok z
  else int_ s = Raise (digit_limit_error (str_len s)).
Proof.
  intros Hdigits Hne. unfold int_, digit_limit_error, str_len.
  rewrite Hdigits, length_list_ascii_of_string.
  apply String.eqb_neq in Hne. rewrite Hne. cbn [negb andb].
  destruct (Z.of_nat (String.length s) <=? int_max_str_digits)%Z; eauto.
Qed.

Lemma tokenize_number_ok (source_code : string) :
  within_digit_limit (_tokenize source_code) = true ->
  Forall number_ok (_tokenize source_code).
Proof.
  intros Hlimit. pose proof (tokenize_digit_run source_code) as Hrun.
  unfold within_digit_limit in Hlimit. rewrite List.forallb_forall in Hlimit.
  rewrite List.Forall_forall in Hrun |- *. intros t Hin Hty Hdot.
  destruct (Hrun t Hin Hty Hdot) as [Hdigits Hne].
  specialize (Hlimit t Hin). unfold is_integer_literal in Hlimit.
  rewrite Hty, Hdot in Hlimit. cbn in Hlimit.
  pose proof (int_digit_run (tok_value t) Hdigits Hne) as Hint.
  rewrite Hlimit in Hint. exact Hint.
Qed.

Lemma skip_until_bounds (stop : string) (rest : list Token) :
  forall i, i <= skip_until stop rest i <= i + length rest.
Proof.
  induction rest as [|t rest IH]; intros i; cbn [skip_until length]; [lia|].
  destruct (String.eqb (tok_type t) stop); [lia|]. specialize (IH (S i)). lia.
Qed.

Lemma scan_body_bounds (rest : list Token) :
  forall i brace_count, i <= scan_body rest i brace_count <= i + length rest.
Proof.
  induction rest as [|t rest IH]; intros i bc; cbn [scan_body length]; [lia|].
  destruct (0 <? bc)%Z; [|lia].
  match goal with |- context [scan_body rest (S i) ?b] => specialize (IH (S i) b) end.
  lia.
Qed.

Lemma scan_parameters_bounds (rest : list Token) :
  forall i parameters,
    i <= fst (scan_parameters rest i parameters) <= i + length rest.
Proof.
  induction rest as [|t rest IH]; intros i ps; cbn [scan_parameters length fst]; [lia|].
  destruct (String.eqb (tok_type t) "RPAREN"); cbn [fst]; [lia|].
  match goal with |- context [scan_parameters rest (S i) ?p] => specialize (IH (S i) p) end.
  lia.
Qed.

Ltac lookup_facts :=
  repeat match goal with
         | H : ?l !! ?i = Some _ |- _ =>
             lazymatch goal with
             | _ : i < length l |- _ => fail
             | _ => pose proof (lookup_lt_Some _ _ _ H)
             end
         | H : _ !! _ = None |- _ => apply lookup_ge_None in H
         | H : (_ <? _) = true |- _ => apply Nat.ltb_lt in H
         | H : (_ <? _) = false |- _ => apply Nat.ltb_ge in H
         | H : (_ <=? _) = true |- _ => apply Nat.leb_le in H
         | H : (_ <=? _) = false |- _ => apply Nat.leb_gt in H
         end.

Ltac loop_facts :=
  repeat match goal with
         | H : scan_parameters ?r ?i ?ps = (_, _) |- _ =>
             let Hb := fresh "Hb" in
             pose proof (scan_parameters_bounds r i ps) as Hb;
             rewrite H in Hb; cbn [fst] in Hb; revert H
         end;
  repeat match goal with
         | |- context [skip_until ?s ?r ?i] =>
             lazymatch goal with
             | _ : i <= skip_until s r i <= _ |- _ => fail
             | _ => pose proof (skip_until_bounds s r i)
             end
         | |- context [scan_body ?r ?i ?b] =>
             lazymatch goal with
             | _ : i <= scan_body r i b <= _ |- _ => fail
             | _ => pose proof (scan_body_bounds r i b)
             end
         end;
  intros; rewrite ?length_drop in *.

Lemma parse_expression_total (tokens : list Token) (start : nat)
      (file_path : option string) (w : World) :
  Forall number_ok tokens -> start < length tokens ->
  exists node w', _parse_expression tokens start file_path w = Ok ((node, 1), w').
Proof.
  intros Hok Hlt. destruct w as [u k].
  destruct (lookup_lt_is_Some_2 tokens start Hlt) as [t Ht].
  assert (Hnum : number_ok t).
  { rewrite List.Forall_forall in Hok. apply Hok.
    apply list_elem_of_In, list_elem_of_lookup. eauto. }
  unfold _parse_expression, literal, mbind', new_ASTNode, ret, lift. rewrite Ht.
  unfold number_ok in Hnum.
  run_both; eauto.
  exfalso.
  match goal with
  | Hty : String.eqb (tok_type t) "NUMBER" = true,
    Hint : rbind (int_ (tok_value t)) _ = Raise _ |- _ =>
      apply String.eqb_eq in Hty; destruct (Hnum Hty eq_refl) as [z Hz];
      rewrite Hz in Hint; discriminate
  end.
Qed.

Ltac expression_facts Hok :=
  repeat match goal with
         | H : _parse_expression ?t ?i ?fp ?w = _ |- _ =>
             let n := fresh "n" in
             let w' := fresh "w'" in
             let Hn := fresh "Hn" in
             destruct (parse_expression_total t i fp w Hok) as (n & w' & Hn);
             [lia|]; rewrite Hn in H; clear Hn; inversion H; subst; clear H
         end.

Ltac total Hok :=
  run_both; lookup_facts; loop_facts; lookup_facts; try congruence;
  expression_facts Hok;
  try solve [ unfold consumes; eexists _, _, _; split; [reflexivity|];
              cbn [fst snd] in *; lia
            | exfalso; lia ].

Lemma function_declaration_consumes tokens start file_path w :
  Forall number_ok tokens -> start < length tokens ->
  consumes tokens start (_parse_function_declaration tokens start file_path w).
Proof.
  intros Hok Hlt. destruct w as [u k].
  unfold _parse_function_declaration, finish, take_name, mbind', new_ASTNode,
    ret, lift, tok_at, type_is.
  total Hok.
Qed.

Lemma variable_declaration_consumes tokens start file_path w :
  Forall number_ok tokens -> start < length tokens ->
  consumes tokens start (_parse_variable_declaration tokens start file_path w).
Proof.
  intros Hok Hlt. destruct w as [u k].
  unfold _parse_variable_declaration, finish, take_name, mbind', new_ASTNode,
    ret, lift, tok_at, type_is.
  total Hok.
Qed.

Lemma skip_to_brace_consumes t tokens start file_path w :
  Forall number_ok tokens -> start < length tokens ->
  consumes tokens start (skip_to_brace t tokens start file_path w).
Proof.
  intros Hok Hlt. destruct w as [u k].
  unfold skip_to_brace, finish, mbind', new_ASTNode, ret, lift, tok_at.
  total Hok.
Qed.

Lemma return_statement_consumes tokens start file_path w :
  Forall number_ok tokens -> start < length tokens ->
  consumes tokens start (_parse_return_statement tokens start file_path w).
Proof.
  intros Hok Hlt. destruct w as [u k].
  unfold _parse_return_statement, finish, mbind', new_ASTNode, ret, lift,
    tok_at, type_is, type_is_not.
  total Hok.
Qed.

Lemma keyword_statement_consumes t tokens start file_path w :
  Forall number_ok tokens -> start < length tokens ->
  consumes tokens start (keyword_statement t tokens start file_path w).
Proof.
  intros Hok Hlt. destruct w as [u k].
  unfold keyword_statement, finish, mbind', new_ASTNode, ret, lift, tok_at, type_is.
  total Hok.
Qed.

Lemma class_declaration_consumes tokens start file_path w :
  Forall number_ok tokens -> start < length tokens ->
  consumes tokens start (_parse_class_declaration tokens start file_path w).
Proof.
  intros Hok Hlt. destruct w as [u k].
  unfold _parse_class_declaration, finish, take_name, mbind', new_ASTNode,
    ret, lift, tok_at.
  total Hok.
Qed.

Lemma import_export_consumes tokens start file_path w :
  Forall number_ok tokens -> start < length tokens ->
  consumes tokens start (_parse_import_export tokens start file_path w).
Proof.
  intros Hok Hlt. destruct w as [u k].
  unfold _parse_import_export, finish, mbind', new_ASTNode, ret, lift, tok_at.
  total Hok.
Qed.

Lemma expression_statement_consumes tokens start file_path w :
  Forall number_ok tokens -> start < length tokens ->
  consumes tokens start (_parse_expression_statement tokens start file_path w).
Proof.
  intros Hok Hlt. destruct w as [u k].
  unfold _parse_expression_statement, mbind', new_ASTNode, ret.
  total Hok.
Qed.

Lemma parse_statement_consumes tokens start file_path w :
  Forall number_ok tokens -> start < length tokens ->
  consumes tokens start (_parse_statement tokens start file_path w).
Proof.
  intros Hok Hlt. unfold _parse_statement.
  destruct (lookup_lt_is_Some_2 tokens start Hlt) as [t ->]. cbv zeta.
  repeat match goal with
         | |- context [if ?b then _ else _] =>
             lazymatch b with
             | context [if _ then _ else _] => fail
             | _ => destruct b
             end
         end;
    unfold _parse_if_statement, _parse_for_statement, _parse_while_statement,
      _parse_break_statement, _parse_continue_statement;
    auto using function_declaration_consumes, variable_declaration_consumes,
      skip_to_brace_consumes, return_statement_consumes, keyword_statement_consumes,
      class_declaration_consumes, import_export_consumes,
      expression_statement_consumes.
Qed.

Lemma parse_expression_leaf tokens start file_path w e consumed w' :
  _parse_expression tokens start file_path w = Ok ((Some e, consumed), w') ->
  children e = [].
Proof.
  destruct w as [u k].
  unfold _parse_expression, literal, mbind', new_ASTNode, ret, lift.
  run_both; intros H; try discriminate; inversion H; subst; reflexivity.
Qed.

Ltac flat_cases :=
  run_both;
  let H := fresh "H" in
  intros H; try discriminate; inversion H; subst; clear H;
  repeat match goal with
         | H : _parse_expression _ _ _ _ = Ok (?p, _) |- _ =>
             is_var p; destruct p as [[?|] ?]
         | H : _parse_expression _ _ _ _ = Ok ((Some _, _), _) |- _ =>
             apply parse_expression_leaf in H
         end;
  unfold flat; cbn;
  repeat match goal with
         | H : children _ = [] |- _ => rewrite H
         end;
  try reflexivity.

Lemma parse_statement_flat tokens start file_path w n consumed w' :
  _parse_statement tokens start file_path w = Ok ((Some n, consumed), w') ->
  flat n = true.
Proof.
  destruct w as [u k]. unfold _parse_statement.
  destruct (tokens !! start) as [t|]; [|discriminate]. cbv zeta.
  repeat match goal with
         | |- context [if ?b then _ else _] =>
             lazymatch b with
             | context [if _ then _ else _] => fail
             | _ => destruct b
             end
         end;
    unfold _parse_if_statement, _parse_for_statement, _parse_while_statement,
      _parse_break_statement, _parse_continue_statement,
      _parse_function_declaration, _parse_variable_declaration, skip_to_brace,
      _parse_return_statement, keyword_statement, _parse_class_declaration,
      _parse_import_export, _parse_expression_statement,
      finish, take_name, mbind', new_ASTNode, ret, lift, tok_at, type_is, type_is_not;
    flat_cases.
Qed.

(** The statement loop returns whatever the bound, and only appends
    children to the root: at most one per token left, each of them flat. *)
Lemma statements_total (tokens : list Token) (file_path : option string) :
  Forall number_ok tokens ->
  forall fuel root i w,
    exists added w',
      statements fuel tokens file_path root i w
      = Ok (mkASTNode (id root) (type root)
              (children root ++ map Some added)%list
              (attributes root) (source_range root) (original_language root), w')
      /\ i + length added <= Nat.max i (length tokens)
      /\ Forall (fun n => flat n = true) added.
Proof.
  intros Hok. induction fuel as [|fuel IH]; intros root i w; cbn [statements];
    destruct (i <? length tokens) eqn:Hi;
    try (exists [], w; cbn [map length]; rewrite app_nil_r; destruct root;
         split; [reflexivity | split; [lia | constructor]]).
  apply Nat.ltb_lt in Hi. unfold mbind'.
  destruct (parse_statement_consumes tokens i file_path w Hok Hi)
    as (node & consumed & w1 & Hstep & Hc). rewrite Hstep.
  replace (0 <? consumed) with true by (symmetry; apply Nat.ltb_lt; lia).
  destruct node as [n|].
  - destruct (IH (add_child root (Some n)) (i + consumed) w1)
      as (added & w' & -> & Hlen & Hflat).
    exists (n :: added), w'. destruct root; cbn [add_child children id type
      attributes source_range original_language map length] in *.
    rewrite <- app_assoc. split; [reflexivity | split; [lia|]].
    constructor; [exact (parse_statement_flat _ _ _ _ _ _ _ Hstep) | exact Hflat].
  - destruct (IH root (i + consumed) w1) as (added & w' & -> & Hlen & Hflat).
    exists added, w'. split; [reflexivity | split; [lia | exact Hflat]].
Qed.


(** What [parse] returns on a source whose integer literals [int] takes. *)
Lemma javascript_parse_shape (source_code : string) (file_path : option string)
      (w : World) :
  within_digit_limit (_tokenize source_code) = true ->
  exists added w',
    JavaScriptParser.parse source_code file_path w
    = Ok (mkUST (mkASTNode (uuid4 w (drawn w)) PROGRAM (map Some added)
                   [("language", PStr "javascript")] None javascript)
            [("language", PStr "javascript");
             ("file_path", of_opt_str file_path);
             ("parser", PStr "JavaScriptParser");
             ("token_count", PInt (Z.of_nat (length (_tokenize source_code))))]
            "1.0", w')
    /\ length added <= length (_tokenize source_code)
    /\ Forall (fun n => flat n = true) added.
Proof.
  intros Hlimit.
  unfold JavaScriptParser.parse, reraise, _parse_tokens, mbind', new_ASTNode, ret.
  cbv zeta.
  destruct (statements_total (_tokenize source_code) file_path
              (tokenize_number_ok source_code Hlimit) (length (_tokenize source_code))
              (set_attribute (mkASTNode (uuid4 w (drawn w)) PROGRAM [] [] None javascript)
                             "language" (PStr "javascript"))
              0 (mkWorld (uuid4 w) (S (drawn w))))
    as (added & w' & Hrun & Hlen & Hflat).
  exists added, w'. rewrite Hrun. cbn. split; [reflexivity | split; [lia | exact Hflat]].
Qed.



(** A statement that starts with an integer literal [int] refuses is not
    parsed: the error of [int] comes out of the statement dispatch. *)
Lemma parse_statement_digit_limit (tokens : list Token) (start : nat)
      (file_path : option string) (w : World) (t : Token) :
  tokens !! start = Some t -> digit_run t ->
  is_integer_literal t = true ->
  (int_max_str_digits < Z.of_nat (str_len (tok_value t)))%Z ->
  _parse_statement tokens start file_path w
  = Raise (digit_limit_error (str_len (tok_value t))).
Proof.
  intros Ht Hrun Hlit Hlong. unfold is_integer_literal in Hlit.
  apply andb_prop in Hlit as [Hty Hdot]. apply String.eqb_eq in Hty.
  apply negb_true_iff in Hdot.
  destruct (Hrun Hty Hdot) as [Hdigits Hne].
  pose proof (int_digit_run (tok_value t) Hdigits Hne) as Hint.
  replace (Z.of_nat (str_len (tok_value t)) <=? int_max_str_digits)%Z with false in Hint
    by (symmetry; apply Z.leb_gt; exact Hlong).
  unfold _parse_statement, _parse_expression_statement, _parse_expression,
    mbind', new_ASTNode, lift.
  rewrite Ht. cbv zeta. rewrite Hty, Hdot, Hint. reflexivity.
Qed.

(** X15. On the tokens of a source none of whose integer literals has more
    than 4300 digits, the statement dispatch at an index inside the token
    list returns, and the number of tokens it reports as consumed is at
    least one and at most the number of tokens left. *)
Theorem statement_dispatch_consumes (source_code : string) (start : nat)
        (file_path : option string) (w : World) :
  within_digit_limit (_tokenize source_code) = true ->
  start < length (_tokenize source_code) ->
  exists node consumed w',
    _parse_statement (_tokenize source_code) start file_path w
    = Ok ((node, consumed), w')
    /\ 1 <= consumed <= length (_tokenize source_code) - start.
Proof.
  intros Hlimit Hlt.
  exact (parse_statement_consumes _ _ file_path w
           (tokenize_number_ok source_code Hlimit) Hlt).
Qed.

Lemma statement_dispatch_consumes_witness :
  exists node consumed w',
    _parse_statement (_tokenize "return 1.5;") 0 None (mkWorld (fun _ => "n") 0)
    = Ok ((node, consumed), w')
    /\ 1 <= consumed <= length (_tokenize "return 1.5;") - 0.
Proof.
  apply (statement_dispatch_consumes "return 1.5;" 0 None (mkWorld (fun _ => "n") 0)).
  - vm_compute. reflexivity.
  - vm_compute. lia.
Defined.

(** X16. [JavaScriptParser.parse] returns a tree for every source text none
    of whose integer literals has more than 4300 digits. The root is a
    program node whose children are all present, at most one per token, and
    the metadata records the number of tokens. *)
Theorem javascript_parse_returns (source_code : string)
        (file_path : option string) (w : World) :
  within_digit_limit (_tokenize source_code) = true ->
  exists ust w',
    JavaScriptParser.parse source_code file_path w = Ok (ust, w')
    /\ type (root ust) = PROGRAM
    /\ Forall (fun child => child <> None) (children (root ust))
    /\ length (children (root ust)) <= length (_tokenize source_code)
    /\ dict_get "token_count" (metadata ust)
       = Some (PInt (Z.of_nat (length (_tokenize source_code)))).
Proof.
  intros Hlimit.
  destruct (javascript_parse_shape source_code file_path w Hlimit)
    as (added & w' & -> & Hlen & _).
  eexists _, w'. split; [reflexivity|]. cbn [root type children metadata].
  split; [reflexivity|]. split; [|split; [rewrite length_map; exact Hlen | reflexivity]].
  apply List.Forall_forall. intros child Hin. apply in_map_iff in Hin as (n & <- & _).
  discriminate.
Qed.

Lemma javascript_parse_returns_witness :
  exists ust w',
    JavaScriptParser.parse "function f(a) { return 12; }" None world0 = Ok (ust, w')
    /\ type (root ust) = PROGRAM
    /\ Forall (fun child => child <> None) (children (root ust))
    /\ length (children (root ust))
       <= length (_tokenize "function f(a) { return 12; }")
    /\ dict_get "token_count" (metadata ust)
       = Some (PInt (Z.of_nat (length (_tokenize "function f(a) { return 12; }")))).
Proof.
  apply (javascript_parse_returns "function f(a) { return 12; }" None world0).
  vm_compute. reflexivity.
Defined.



(** X22. A source whose first token is an integer literal of more than 4300
    digits is not parsed: [int] refuses the literal, and
    [JavaScriptParser.parse] raises the [ValueError] of its [except] branch,
    whose message is the fixed prefix followed by the message of [int] and
    whose context is the error of [int]. *)
Theorem javascript_parse_digit_limit (source_code : string)
        (file_path : option string) (w : World) (t : Token) :
  _tokenize source_code !! 0 = Some t ->
  is_integer_literal t = true ->
  (int_max_str_digits < Z.of_nat (str_len (tok_value t)))%Z ->
  JavaScriptParser.parse source_code file_path w
  = Raise (WithContext
             (ValueError ("Erreur lors du parsing JavaScript: "
                          +:+ exn_str (digit_limit_error (str_len (tok_value t)))))
             (inl (digit_limit_error (str_len (tok_value t))))).
Proof.
  intros Ht Hlit Hlong.
  assert (Hrun : digit_run t).
  { pose proof (tokenize_digit_run source_code) as Hall.
    rewrite List.Forall_forall in Hall. apply Hall.
    apply list_elem_of_In, list_elem_of_lookup. eauto. }
  pose proof (lookup_lt_Some _ _ _ Ht) as Hlen.
  unfold JavaScriptParser.parse, reraise, _parse_tokens, mbind', new_ASTNode, ret.
  cbv zeta.
  destruct (length (_tokenize source_code)) as [|fuel] eqn:Hfuel; [lia|].
  cbn [statements]. rewrite Hfuel. cbn [Nat.ltb Nat.leb]. unfold mbind'.
  rewrite (parse_statement_digit_limit _ 0 file_path _ t Ht Hrun Hlit Hlong).
  reflexivity.
Qed.

Lemma javascript_parse_digit_limit_witness :
  JavaScriptParser.parse long_literal None world0
  = Raise (WithContext
             (ValueError ("Erreur lors du parsing JavaScript: "
                          +:+ exn_str (digit_limit_error 4301)))
             (inl (digit_limit_error 4301)))
  /\ exn_str (digit_limit_error 4301)
     = "Exceeds the limit (4300 digits) for integer string conversion: value has 4301 digits; use sys.set_int_max_str_digits() to increase the limit".
Proof.
  split; [|vm_compute; reflexivity].
  assert (Hlen : str_len long_literal = 4301) by (vm_compute; reflexivity).
  rewrite <- Hlen.
  apply (javascript_parse_digit_limit long_literal None world0
           (mkToken "NUMBER" long_literal 1 0)).
  - vm_compute. reflexivity.
  - vm_compute. reflexivity.
  - vm_compute. reflexivity.
Defined.

(** * Further properties of the Python adapter *)

Lemma process_node_attributes_frame (ast_node : PyAst) (a a' : ASTNode) :
  _process_node_attributes ast_node a = Ok a' ->
  id a' = id a /\ type a' = type a /\ children a' = children a /\
  source_range a' = source_range a /\ original_language a' = original_language a.
Proof.
  destruct a as [i t cs att sr ol], ast_node as [kind pos fields].
  unfold _process_node_attributes, set_decorators, field_value, field_node,
    field_list, field, isinstance, rbind.
  cbn [kind_of fields_of].
  run_both; intros H; try discriminate; inversion H; subst; cbn; auto.
Qed.

Lemma results_app {A} (l1 l2 : list (result A)) (b1 b2 : list A) :
  results l1 = Ok b1 -> results l2 = Ok b2 ->
  results (l1 ++ l2)%list = Ok (b1 ++ b2)%list.
Proof.
  revert b1. induction l1 as [|r l1 IH]; intros b1 H1 H2; cbn [results app] in *.
  - injection H1 as <-. exact H2.
  - destruct r as [a|e]; [|discriminate]. cbn [rbind] in *.
    destruct (results l1) as [t|e]; [|discriminate]. cbn [rbind] in *.
    injection H1 as <-. rewrite (IH t eq_refl H2). reflexivity.
Qed.

Lemma forallb_typed (cs : list ASTNode) :
  Forall (fun c => well_typed c = true) cs ->
  forallb (fun child => match child with
                        | Some c => well_typed c
                        | None => false
                        end) (map Some cs) = true.
Proof.
  induction 1 as [|c cs Hc _ IH]; [reflexivity|].
  cbn [map forallb]. rewrite Hc. exact IH.
Qed.

Lemma items_size_cons (size : PyAst -> nat) (item : AstField) (items : list AstField) :
  items_size size (item :: items)
  = match item with FNode c => size c | _ => 0 end + items_size size items.
Proof. reflexivity. Qed.

Lemma fields_size_cons (size : PyAst -> nat) (kf : string * AstField)
      (fs : list (string * AstField)) :
  fields_size size (kf :: fs)
  = match snd kf with
    | FValue _ => 0
    | FNode c => size c
    | FList items => items_size size items
    end + fields_size size fs.
Proof. reflexivity. Qed.

Lemma appended_nothing file_path (a : ASTNode) (w : World) :
  appended file_path [] a w a w 0.
Proof.
  exists []. cbn [map]. rewrite app_nil_r. destruct a.
  repeat split; try constructor; try (cbn; lia).
  exists []. split; reflexivity.
Qed.

Lemma appended_child file_path (child : PyAst) (natives : list PyAst)
      (a : ASTNode) (w : World) (c : ASTNode) (w1 : World) (a' : ASTNode)
      (w' : World) (size : nat) :
  converted file_path child w c w1 ->
  appended file_path natives (add_child a (Some c)) w1 a' w' size ->
  appended file_path (child :: natives) a w a' w' (native_size child + size).
Proof.
  intros (Hm & Hwc & (nodes & Hnodes & Hids1) & Hu1 & Hd1)
         (cs & -> & Hcs & Hwt & Hu & Hd & below & Hbelow & Hids).
  exists (c :: cs). destruct a.
  cbn [add_child id type children attributes source_range original_language map].
  rewrite <- app_assoc. split; [reflexivity|].
  split; [constructor; assumption|]. split; [constructor; assumption|].
  split; [congruence|]. split; [lia|].
  exists (nodes :: below). cbn [results child_count_nodes].
  rewrite Hnodes, Hbelow. cbn [rbind]. split; [reflexivity|].
  cbn [concat]. rewrite map_app, Hids1, Hids, Hu1, Hd1, seq_app, map_app.
  reflexivity.
Qed.

Lemma appended_more file_path (natives1 natives2 : list PyAst)
      (a : ASTNode) (w : World) (a1 : ASTNode) (w1 : World) (a' : ASTNode)
      (w' : World) (size1 size2 : nat) :
  appended file_path natives1 a w a1 w1 size1 ->
  appended file_path natives2 a1 w1 a' w' size2 ->
  appended file_path (natives1 ++ natives2) a w a' w' (size1 + size2).
Proof.
  intros (cs1 & -> & Hcs1 & Hwt1 & Hu1 & Hd1 & below1 & Hbelow1 & Hids1)
         (cs & -> & Hcs & Hwt & Hu & Hd & below & Hbelow & Hids).
  exists (cs1 ++ cs)%list. destruct a.
  cbn [id type children attributes source_range original_language].
  rewrite !map_app, app_assoc. split; [reflexivity|].
  split; [apply Forall2_app; assumption|].
  split; [apply List.Forall_app; split; assumption|].
  split; [congruence|]. split; [lia|].
  exists (below1 ++ below)%list. split; [apply results_app; assumption|].
  rewrite concat_app, map_app, Hids1, Hids, Hu1, Hd1, seq_app, map_app.
  reflexivity.
Qed.

Lemma over_items_converted (file_path : option string)
      (convert : PyAst -> M ASTNode) (items : list AstField) :
  Forall (on_item (converts_well file_path convert)) items ->
  forall a w a' w',
    over_items convert items a w = Ok (a', w') ->
    appended file_path (item_nodes items) a w a' w' (items_size native_size items).
Proof.
  induction 1 as [|item items Hitem _ IH]; intros a w a' w' Hrun;
    cbn [over_items] in Hrun.
  - injection Hrun as <- <-. apply appended_nothing.
  - rewrite items_size_cons.
    destruct item as [v|child|l]; cbn [on_item] in Hitem.
    + exact (IH _ _ _ _ Hrun).
    + unfold mbind' in Hrun.
      destruct (convert child w) as [[c w1]|e] eqn:Hc; [|discriminate].
      apply (appended_child file_path child (item_nodes items) a w c w1);
        [exact (Hitem _ _ _ Hc) | exact (IH _ _ _ _ Hrun)].
    + exact (IH _ _ _ _ Hrun).
Qed.

Lemma over_fields_converted (file_path : option string)
      (convert : PyAst -> M ASTNode) (fs : list (string * AstField)) :
  Forall (fun kf => on_field (converts_well file_path convert) (snd kf)) fs ->
  forall a w a' w',
    over_fields convert fs a w = Ok (a', w') ->
    appended file_path (flat_map (fun kf => field_nodes (snd kf)) fs) a w a' w'
             (fields_size native_size fs).
Proof.
  induction 1 as [|[name f] fs Hf _ IH]; intros a w a' w' Hrun;
    cbn [over_fields] in Hrun.
  - injection Hrun as <- <-. apply appended_nothing.
  - rewrite fields_size_cons. cbn [snd flat_map] in *.
    destruct f as [v|child|items]; cbn [on_field field_nodes] in *.
    + exact (IH _ _ _ _ Hrun).
    + unfold mbind' in Hrun.
      destruct (convert child w) as [[c w1]|e] eqn:Hc; [|discriminate].
      apply (appended_child file_path child _ a w c w1);
        [exact (Hf _ _ _ Hc) | exact (IH _ _ _ _ Hrun)].
    + unfold mbind' in Hrun.
      destruct (over_items convert items a w) as [[a1 w1]|e] eqn:Hi; [|discriminate].
      apply (appended_more file_path _ _ a w a1 w1);
        [exact (over_items_converted file_path convert items Hf _ _ _ _ Hi)
        | exact (IH _ _ _ _ Hrun)].
Qed.

Lemma convert_converts_well (file_path : option string) (node : PyAst) :
  converts_well file_path (fun n => _convert_ast_node n file_path) node.
Proof.
  induction node as [kind pos fields IH] using PyAst_nested_ind.
  intros w n w' Hrun. cbn [_convert_ast_node] in Hrun.
  unfold mbind', new_ASTNode, lift in Hrun.
  match type of Hrun with
  | context [_process_node_attributes ?x ?a] =>
      destruct (_process_node_attributes x a) as [b|e] eqn:Hp; [|discriminate];
      apply process_node_attributes_frame in Hp as (Hid & Hty & Hch & Hsr & Hol);
      assert (Hsr' : source_range b = native_range x file_path)
        by (rewrite Hsr; destruct (native_range x file_path); reflexivity);
      assert (Hid' : id b = uuid4 w (drawn w))
        by (rewrite Hid; destruct (native_range x file_path); reflexivity);
      assert (Hty' : type b = _get_asu_node_type x)
        by (rewrite Hty; destruct (native_range x file_path); reflexivity);
      assert (Hch' : children b = [])
        by (rewrite Hch; destruct (native_range x file_path); reflexivity);
      assert (Hol' : original_language b = Some "python")
        by (rewrite Hol; destruct (native_range x file_path); reflexivity);
      clear Hid Hty Hch Hsr Hol
  end.
  apply (over_fields_converted file_path _ fields IH) in Hrun
    as (cs & -> & Hcs & Hwt & Hu & Hd & below & Hbelow & Hids).
  cbn [uuid4 drawn] in Hu, Hd, Hids. rewrite Hch'. cbn [app].
  unfold converted, ids_in_preorder.
  change (native_size (AstNode kind pos fields))
    with (S (fields_size native_size fields)).
  split; [|split; [|split; [|split; [exact Hu | lia]]]].
  - apply (mirrors_node file_path _ _ cs); cbn [type source_range
      original_language children]; try assumption; reflexivity.
  - rewrite well_typed_unfold. apply forallb_typed, Hwt.
  - eexists. rewrite count_nodes_unfold. cbn [children]. rewrite Hbelow.
    cbn [rbind]. split; [reflexivity|].
    cbn [map seq id]. rewrite Hid', Hids. reflexivity.
Qed.

(** X18. Whenever [_convert_ast_node] returns, the node it returns mirrors
    the native tree all the way down: each node has the type the kind table
    gives, the native position and the language python, and its children
    are the conversions of [ast.iter_child_nodes], all present and in
    order. One id is drawn per native node, and the ids of the nodes in
    pre-order are the ids in the order drawn. *)
Theorem convert_mirrors_native_tree (node : PyAst) (file_path : option string)
        (w : World) (n : ASTNode) (w' : World) :
  _convert_ast_node node file_path w = Ok (n, w') ->
  mirrors file_path node n /\ well_typed n = true /\
  (exists nodes, count_nodes n = Ok nodes /\
                 map id nodes = map (uuid4 w) (seq (drawn w) (native_size node))) /\
  uuid4 w' = uuid4 w /\ drawn w' = drawn w + native_size node.
Proof. exact (convert_converts_well file_path node w n w'). Qed.

Lemma convert_mirrors_native_tree_witness :
  exists n w',
    _convert_ast_node native_assignment None world0 = Ok (n, w') /\
    mirrors None native_assignment n /\
    drawn w' = drawn world0 + native_size native_assignment.
Proof.
  destruct (_convert_ast_node native_assignment None world0) as [[n w']|e] eqn:Hrun;
    [|vm_compute in Hrun; discriminate].
  exists n, w'. split; [reflexivity|].
  destruct (convert_mirrors_native_tree native_assignment None world0 n w' Hrun)
    as (Hm & _ & _ & _ & Hd).
  split; [exact Hm | exact Hd].
Defined.

(** X19. A tree [PythonParser.parse] returns comes from a native tree the
    native grammar accepted, mirrors it, and has a dict form: [to_dict]
    returns on its root, and [from_dict] applied to that dict gives the same
    tree back, ids included. *)
Theorem python_parse_round_trip (ast_parse : string -> string -> NativeResult)
        (source_code : string) (file_path : option string) (w : World)
        (ust : UniversalSyntaxTree) (w' : World) :
  PythonParser.parse ast_parse source_code file_path w = Ok (ust, w') ->
  (exists python_ast,
      ast_parse source_code
                (match given file_path with Some f => f | None => "<string>" end)
      = Parsed python_ast
      /\ mirrors file_path python_ast (root ust))
  /\ exists d, to_dict (root ust) = Ok d /\ from_dict d = Ok (root ust).
Proof.
  unfold PythonParser.parse.
  destruct (ast_parse source_code _) as [tree|e|e]; [|discriminate|discriminate].
  unfold reraise, mbind', ret.
  destruct (_convert_ast_node tree file_path w) as [[n w1]|e] eqn:Hrun; [|discriminate].
  intros [= <- <-]. cbn [root].
  destruct (convert_converts_well file_path tree w n w1 Hrun) as (Hm & Hwt & _).
  split; [exists tree; split; [reflexivity | exact Hm]|].
  apply to_dict_well_typed in Hwt as [d Hd].
  exists d. split; [exact Hd | exact (round_trip_node n d Hd)].
Qed.

Lemma python_parse_round_trip_witness :
  exists ust w',
    PythonParser.parse (accepting native_assignment) "x = 1" None world0
    = Ok (ust, w')
    /\ exists d, to_dict (root ust) = Ok d /\ from_dict d = Ok (root ust).
Proof.
  destruct (PythonParser.parse (accepting native_assignment) "x = 1" None world0)
    as [[ust w']|e] eqn:Hrun; [|vm_compute in Hrun; discriminate].
  exists ust, w'. split; [reflexivity|].
  exact (proj2 (python_parse_round_trip (accepting native_assignment) "x = 1" None
                  world0 ust w' Hrun)).
Defined.

(** * Further properties of dispatch in the application's registry *)

Lemma app_parsers (ast_parse : string -> string -> NativeResult) (k : string) :
  _parsers (app_registry ast_parse) !! k
  = if String.eqb k "javascript" then Some javascript_parser
    else if String.eqb k "python" then Some (python_parser ast_parse) else None.
Proof.
  unfold app_registry, register_parser, empty_registry.
  cbn [_parsers language python_parser javascript_parser].
  unfold JavaScriptParser.language, PythonParser.language.
  destruct (String.eqb_spec k "javascript") as [->|Hjs];
    [rewrite lookup_insert_eq; reflexivity|].
  rewrite lookup_insert_ne by congruence.
  destruct (String.eqb_spec k "python") as [->|Hpy];
    [rewrite lookup_insert_eq; reflexivity|].
  rewrite lookup_insert_ne by congruence. apply lookup_empty.
Qed.

Lemma app_parser_cases (ast_parse : string -> string -> NativeResult)
      (lang file_path : option string) (p : BaseParser) :
  match given lang with
  | Some l => get_parser (app_registry ast_parse) l
  | None =>
      match given file_path with
      | Some f => get_parser_by_extension (app_registry ast_parse) (splitext_ext f)
      | None => None
      end
  end = Some p ->
  p = javascript_parser \/ p = python_parser ast_parse.
Proof.
  unfold get_parser, get_parser_by_extension.
  assert (Hp : forall k, _parsers (app_registry ast_parse) !! k = Some p ->
                         p = javascript_parser \/ p = python_parser ast_parse).
  { intros k. rewrite app_parsers.
    destruct (String.eqb k "javascript"); [intros [= <-]; auto|].
    destruct (String.eqb k "python"); [intros [= <-]; auto | discriminate]. }
  destruct (given lang) as [l|]; [apply Hp|].
  destruct (given file_path) as [f|]; [|discriminate].
  destruct (_extension_map (app_registry ast_parse) !! lower (splitext_ext f))
    as [l|]; [|discriminate].
  destruct (String.eqb l ""); [discriminate | apply Hp].
Qed.

(** X20. In the registry src/routes/ast_api.py builds, whatever [parse_code]
    raises is a [ValueError]: no parser is found, or the parser chosen, the
    Python adapter or the JavaScript parser, wraps what went wrong in the
    [ValueError] of its [except] branch. *)
Theorem app_parse_code_raises_value_error
        (ast_parse : string -> string -> NativeResult)
        (source_code : string) (lang file_path : option string) (w : World) (e : exn) :
  parse_code (app_registry ast_parse) source_code lang file_path w = Raise e ->
  is_ValueError e = true.
Proof.
  unfold parse_code.
  pose proof (app_parser_cases ast_parse lang file_path) as Hcases.
  destruct (match given lang with Some _ => _ | None => _ end) as [p|];
    [|intros [= <-]; reflexivity].
  destruct (Hcases p eq_refl) as [-> | ->]; cbn [parse javascript_parser python_parser].
  - unfold JavaScriptParser.parse, reraise.
    destruct (mbind' _ _ w) as [r|e']; [discriminate|].
    intros [= <-]. reflexivity.
  - unfold PythonParser.parse, reraise, raise.
    destruct (ast_parse source_code _) as [tree|e'|e'];
      [|intros [= <-]; reflexivity|intros [= <-]; reflexivity].
    destruct (mbind' _ _ w) as [r|e']; [discriminate|].
    intros [= <-]. reflexivity.
Qed.

Lemma app_parse_code_raises_value_error_witness :
  is_ValueError (no_parser_found (Some "ruby") None) = true /\
  parse_code (app_registry no_native) "puts 1" (Some "ruby") None world0
  = Raise (no_parser_found (Some "ruby") None).
Proof.
  split; [|reflexivity].
  apply (app_parse_code_raises_value_error no_native "puts 1" (Some "ruby") None world0).
  reflexivity.
Defined.

(** X21. In the registry src/routes/ast_api.py builds, [detect_language]
    answers one of five names, and three of them, java, cpp and c, name a
    language no parser is registered for: [get_parser] answers [None] for
    exactly those. *)
Theorem detected_language_parser
        (ast_parse : string -> string -> NativeResult)
        (source_code : string) (file_path : option string) (lang : string) :
  detect_language (app_registry ast_parse) source_code file_path = Some lang ->
  In lang ["python"; "javascript"; "java"; "cpp"; "c"] /\
  (get_parser (app_registry ast_parse) lang = None
   <-> In lang ["java"; "cpp"; "c"]).
Proof.
  intros Hdetect.
  assert (Hin : In lang ["python"; "javascript"; "java"; "cpp"; "c"]).
  { revert Hdetect. unfold detect_language.
    destruct (match given file_path with Some _ => _ | None => _ end) as [l|] eqn:Hext.
    - intros [= <-]. destruct (given file_path) as [f|]; [|discriminate].
      rewrite app_extension_map in Hext.
      destruct (existsb _ JavaScriptParser.supported_extensions);
        [injection Hext as <-; cbn; auto|].
      destruct (existsb _ PythonParser.supported_extensions);
        [injection Hext as <-; cbn; auto | discriminate].
    - cbv zeta.
      repeat match goal with
             | |- (if ?b then _ else _) = _ -> _ => destruct b
             end;
        intros [= <-]; cbn; auto 6.
      destruct (contains "cout" _); auto 6. }
  split; [exact Hin|].
  unfold get_parser. rewrite app_parsers.
  cbn [In] in Hin.
  destruct Hin as [<-|[<-|[<-|[<-|[<-|[]]]]]]; cbn;
    split; intros H; try discriminate; auto;
    repeat destruct H as [H|H]; try discriminate; contradiction.
Qed.

Lemma detected_language_parser_witness :
  In "c" ["python"; "javascript"; "java"; "cpp"; "c"] /\
  (get_parser (app_registry no_native) "c" = None <-> In "c" ["java"; "cpp"; "c"]).
Proof.
  apply (detected_language_parser no_native "#include <stdio.h>" None "c").
  vm_compute. reflexivity.
Defined.
